(** * ScholarMate: the retrying generation pipeline and its consumers

    A shallow embedding of [services/geminiService.ts] (the helpers
    [cleanCode], [cleanJson], [delay], [generateWithRetry] and the seven-stage
    [generateAnalysis]) and of the validation view of [App.tsx], followed by
    the properties the specification states about them.

    Conventions of the embedding.
    - A JavaScript string is the list of its UTF-16 code units ([jsstring]).
    - The remote endpoint, the timer, the console and the progress callback
      are the environment: a run threads a [World] holding the scripted
      outcomes of the remote calls, the number of calls made so far and the
      trace of everything the program did, in order.
    - A rejected promise / thrown value is the [Throw] result of the monad. *)

From Stdlib Require Import List NArith ZArith QArith Qpower Lqa Bool Lia Ascii String.
Import ListNotations.

Set Implicit Arguments.
Set Warnings "-register-all".

(* ================================================================== *)
(** * JavaScript strings *)
(* ================================================================== *)

Module JsString.

(** A UTF-16 code unit. *)
Definition jschar := N.
Definition jsstring := list jschar.

(** An ASCII literal as a JavaScript string. *)
Definition u (s : string) : jsstring :=
  List.map N_of_ascii (list_ascii_of_string s).

(** The characters the prompts and patterns name explicitly. *)
Definition LF : jsstring := [10%N].
Definition dq : jsstring := [34%N].
Definition endash : jsstring := [8211%N].
Definition backtick : jschar := 96%N.

Definition eqb_char (a b : jschar) : bool := N.eqb a b.

Fixpoint eqb (a b : jsstring) : bool :=
  match a, b with
  | [], [] => true
  | x :: a', y :: b' => eqb_char x y && eqb a' b'
  | _, _ => false
  end.

(** [startsWith s p]: [p] is a prefix of [s]. *)
Fixpoint startsWith (s p : jsstring) {struct p} : bool :=
  match p, s with
  | [], _ => true
  | _ :: _, [] => false
  | y :: p', x :: s' => eqb_char x y && startsWith s' p'
  end.

(** [String.prototype.includes]: [needle] occurs in [s] as a contiguous
    run of code units. *)
Fixpoint includes (s needle : jsstring) : bool :=
  startsWith s needle ||
  match s with
  | [] => false
  | _ :: s' => includes s' needle
  end.

(** The regular-expression class [\s], which is also the set removed by
    [String.prototype.trim]: WhiteSpace and LineTerminator code points. *)
Definition is_space (c : jschar) : bool :=
  ((9 <=? c) && (c <=? 13)          (* TAB, LF, VT, FF, CR *)
   || (c =? 32) || (c =? 160)       (* SP, NBSP *)
   || (c =? 5760)                   (* U+1680 *)
   || ((8192 <=? c) && (c <=? 8202)) (* U+2000 .. U+200A *)
   || (c =? 8232) || (c =? 8233)    (* LS, PS *)
   || (c =? 8239) || (c =? 8287)    (* U+202F, U+205F *)
   || (c =? 12288) || (c =? 65279)  (* U+3000, U+FEFF *))%N.

Fixpoint dropSpaces (s : jsstring) : jsstring :=
  match s with
  | c :: s' => if is_space c then dropSpaces s' else s
  | [] => []
  end.

(** [String.prototype.trim]. *)
Definition trim (s : jsstring) : jsstring :=
  rev (dropSpaces (rev (dropSpaces s))).

(** Case folding of a pattern character under the [i] flag (no [u] flag):
    two code units match when their upper-case forms agree; for the
    letters of the patterns used here only the two ASCII cases do. *)
Definition toUpperAscii (c : jschar) : jschar :=
  if ((97 <=? c) && (c <=? 122))%N then (c - 32)%N else c.

Definition isAsciiLetter (c : jschar) : bool :=
  ((65 <=? c) && (c <=? 90) || (97 <=? c) && (c <=? 122))%N.

Definition eqb_char_ci (x y : jschar) : bool :=
  if isAsciiLetter y then eqb_char (toUpperAscii x) (toUpperAscii y)
  else eqb_char x y.

Fixpoint startsWith_ci (s p : jsstring) {struct p} : bool :=
  match p, s with
  | [], _ => true
  | _ :: _, [] => false
  | y :: p', x :: s' => eqb_char_ci x y && startsWith_ci s' p'
  end.

(** [s.replace(/^<lit>\s*/, '')], with [ci] telling whether the pattern
    carries the [i] flag: when [s] starts with the literal, the literal
    and the white space after it are removed; otherwise [s] is unchanged. *)
Definition replaceLeading (ci : bool) (lit s : jsstring) : jsstring :=
  if (if ci then startsWith_ci s lit else startsWith s lit)
  then dropSpaces (skipn (List.length lit) s)
  else s.

(** [s.replace(/<lit>\s*$/, '')] (no [g], no [m] flag): the leftmost
    position at which the literal is followed by white space only up to the
    end of the input is where the match starts; it extends to the end. *)
Fixpoint replaceTrailing (lit s : jsstring) : jsstring :=
  if startsWith s lit && forallb is_space (skipn (List.length lit) s)
  then []
  else match s with
       | [] => []
       | c :: s' => c :: replaceTrailing lit s'
       end.

End JsString.
Import JsString.

(* ================================================================== *)
(** * services/geminiService.ts: the text helpers *)
(* ================================================================== *)

Definition MODEL_NAME : jsstring := u "gemini-3-pro-preview".

Definition fence : jsstring := u "```".

(** [cleanCode]: three replacements in sequence, then [trim]. *)
Definition cleanCode (text : jsstring) : jsstring :=
  trim (replaceTrailing fence
          (replaceLeading false fence
             (replaceLeading true (u "```python") text))).

Definition cleanJson (text : jsstring) : jsstring :=
  trim (replaceTrailing fence
          (replaceLeading false fence
             (replaceLeading true (u "```json") text))).

(* ================================================================== *)
(** * JSON values and [JSON.parse] *)
(* ================================================================== *)

(** [JSON.parse] belongs to the language, not to the repository; it is
    embedded after the JSON grammar of ECMA-404: white space is TAB, LF, CR
    and SP; a string is quoted, holds no raw control character and knows the
    nine escapes; a number is [-? int frac? exp?].  A number keeps its
    lexeme (its floating-point value is never inspected by the program) and an
    object keeps its members in textual order. *)
Module Json.

Inductive value : Type :=
| JNull
| JBool (b : bool)
| JNumber (lexeme : jsstring)
| JString (s : jsstring)
| JArray (elements : list value)
| JObject (members : list (jsstring * value)).

Definition is_ws (c : jschar) : bool :=
  ((c =? 9) || (c =? 10) || (c =? 13) || (c =? 32))%N.

Fixpoint skipWs (s : jsstring) : jsstring :=
  match s with
  | c :: s' => if is_ws c then skipWs s' else s
  | [] => []
  end.

Definition is_digit (c : jschar) : bool := ((48 <=? c) && (c <=? 57))%N.

Definition hexval (c : jschar) : option N :=
  if is_digit c then Some (c - 48)%N
  else if ((65 <=? c) && (c <=? 70))%N then Some (c - 55)%N
  else if ((97 <=? c) && (c <=? 102))%N then Some (c - 87)%N
  else None.

(** The body of a string literal, after the opening quote. *)
Fixpoint parseChars (s acc : jsstring) : option (jsstring * jsstring) :=
  match s with
  | [] => None
  | c :: r =>
      if (c =? 34)%N then Some (rev acc, r)
      else if (c <? 32)%N then None
      else if (c =? 92)%N then
        match r with
        | e :: r1 =>
            if (e =? 34)%N then parseChars r1 (34%N :: acc)
            else if (e =? 92)%N then parseChars r1 (92%N :: acc)
            else if (e =? 47)%N then parseChars r1 (47%N :: acc)
            else if (e =? 98)%N then parseChars r1 (8%N :: acc)
            else if (e =? 102)%N then parseChars r1 (12%N :: acc)
            else if (e =? 110)%N then parseChars r1 (10%N :: acc)
            else if (e =? 114)%N then parseChars r1 (13%N :: acc)
            else if (e =? 116)%N then parseChars r1 (9%N :: acc)
            else if (e =? 117)%N then
              match r1 with
              | h1 :: h2 :: h3 :: h4 :: r2 =>
                  match hexval h1, hexval h2, hexval h3, hexval h4 with
                  | Some a, Some b, Some c', Some d =>
                      parseChars r2 ((((a * 16 + b) * 16 + c') * 16 + d)%N :: acc)
                  | _, _, _, _ => None
                  end
              | _ => None
              end
            else None
        | [] => None
        end
      else parseChars r (c :: acc)
  end.

Fixpoint takeDigits (s : jsstring) : jsstring * jsstring :=
  match s with
  | c :: r =>
      if is_digit c then let (d, r') := takeDigits r in (c :: d, r')
      else ([], s)
  | [] => ([], [])
  end.

(** One or more digits. *)
Definition digits1 (s : jsstring) : option (jsstring * jsstring) :=
  match takeDigits s with
  | ([], _) => None
  | p => Some p
  end.

(** [int]: a single [0], or a non-zero digit followed by digits. *)
Definition parseInt (s : jsstring) : option (jsstring * jsstring) :=
  match s with
  | c :: r =>
      if (c =? 48)%N then Some ([c], r)
      else if is_digit c then let (d, r') := takeDigits r in Some (c :: d, r')
      else None
  | [] => None
  end.

Definition parseFrac (s : jsstring) : option (jsstring * jsstring) :=
  match s with
  | c :: r =>
      if (c =? 46)%N then
        match digits1 r with
        | Some (d, r') => Some (c :: d, r')
        | None => None
        end
      else Some ([], s)
  | [] => Some ([], [])
  end.

Definition parseExp (s : jsstring) : option (jsstring * jsstring) :=
  match s with
  | c :: r =>
      if ((c =? 101) || (c =? 69))%N then
        let (sign, r0) :=
          match r with
          | g :: r' => if ((g =? 43) || (g =? 45))%N then ([g], r') else ([], r)
          | [] => ([], [])
          end in
        match digits1 r0 with
        | Some (d, r') => Some (c :: sign ++ d, r')
        | None => None
        end
      else Some ([], s)
  | [] => Some ([], [])
  end.

Definition parseNumber (s : jsstring) : option (jsstring * jsstring) :=
  let (minus, s0) :=
    match s with
    | c :: r => if (c =? 45)%N then ([c], r) else ([], s)
    | [] => ([], [])
    end in
  match parseInt s0 with
  | Some (i, s1) =>
      match parseFrac s1 with
      | Some (f, s2) =>
          match parseExp s2 with
          | Some (e, s3) => Some (minus ++ i ++ f ++ e, s3)
          | None => None
          end
      | None => None
      end
  | None => None
  end.

Definition expect (lit : jsstring) (v : value) (s : jsstring)
  : option (value * jsstring) :=
  if startsWith s lit then Some (v, skipn (List.length lit) s) else None.

(** Values, array elements and object members; [fuel] bounds the nesting
    of the recursive calls and [parse] supplies enough of it. *)
Fixpoint parseValue (fuel : nat) (s : jsstring) : option (value * jsstring) :=
  match fuel with
  | O => None
  | S fuel' =>
      match skipWs s with
      | [] => None
      | c :: r =>
          if (c =? 91)%N then                       (* [ *)
            match skipWs r with
            | c' :: r' =>
                if (c' =? 93)%N then Some (JArray [], r')
                else parseElements fuel' r []
            | [] => None
            end
          else if (c =? 123)%N then                 (* { *)
            match skipWs r with
            | c' :: r' =>
                if (c' =? 125)%N then Some (JObject [], r')
                else parseMembers fuel' r []
            | [] => None
            end
          else if (c =? 34)%N then
            match parseChars r [] with
            | Some (str, r') => Some (JString str, r')
            | None => None
            end
          else if (c =? 116)%N then expect (u "true") (JBool true) (c :: r)
          else if (c =? 102)%N then expect (u "false") (JBool false) (c :: r)
          else if (c =? 110)%N then expect (u "null") JNull (c :: r)
          else
            match parseNumber (c :: r) with
            | Some (n, r') => Some (JNumber n, r')
            | None => None
            end
      end
  end

with parseElements (fuel : nat) (s : jsstring) (acc : list value)
  : option (value * jsstring) :=
  match fuel with
  | O => None
  | S fuel' =>
      match parseValue fuel' s with
      | Some (v, r) =>
          match skipWs r with
          | c :: r' =>
              if (c =? 44)%N then parseElements fuel' r' (v :: acc)
              else if (c =? 93)%N then Some (JArray (rev (v :: acc)), r')
              else None
          | [] => None
          end
      | None => None
      end
  end

with parseMembers (fuel : nat) (s : jsstring) (acc : list (jsstring * value))
  : option (value * jsstring) :=
  match fuel with
  | O => None
  | S fuel' =>
      match skipWs s with
      | q :: r0 =>
          if (q =? 34)%N then
            match parseChars r0 [] with
            | Some (key, r1) =>
                match skipWs r1 with
                | colon :: r2 =>
                    if (colon =? 58)%N then
                      match parseValue fuel' r2 with
                      | Some (v, r3) =>
                          match skipWs r3 with
                          | c :: r4 =>
                              if (c =? 44)%N
                              then parseMembers fuel' r4 ((key, v) :: acc)
                              else if (c =? 125)%N
                              then Some (JObject (rev ((key, v) :: acc)), r4)
                              else None
                          | [] => None
                          end
                      | None => None
                      end
                    else None
                | [] => None
                end
            | None => None
            end
          else None
      | [] => None
      end
  end.

(** [JSON.parse text]: [Some v] when the whole text is one JSON value
    surrounded by white space, [None] when it throws a [SyntaxError]. *)
Definition parse (text : jsstring) : option value :=
  match parseValue (2 * List.length text + 2) text with
  | Some (v, r) => match skipWs r with [] => Some v | _ :: _ => None end
  | None => None
  end.

End Json.
Import Json.

(* ================================================================== *)
(** * The environment: remote endpoint, timer, console, progress callback *)
(* ================================================================== *)

(** A value caught by [catch (error: any)]: the fields the program reads.
    [status] and [code] are numbers or absent, [message] a string or absent,
    as in the errors of the SDK; [new Error(msg)] has a message and neither
    [status] nor [code]. *)
Record JsError : Type := mkError {
  status : option Z;
  code : option Z;
  message : option jsstring
}.

Definition newError (msg : jsstring) : JsError :=
  {| status := None; code := None; message := Some msg |}.

(** What the program reads of a [GenerateContentResponse]: [text] is a
    string or [undefined]. *)
Record GenerateContentResponse : Type := mkResponse {
  text : option jsstring
}.

(** [Schema] of the structured-output request, as far as stage 5 builds one. *)
Inductive Schema : Type :=
| TypeSTRING
| TypeARRAY (items : Schema)
| TypeOBJECT (properties : list (jsstring * Schema)) (required : list jsstring).

Inductive Part : Type :=
| inlineData (mimeType data : jsstring)
| textPart (t : jsstring).

Record GenerationConfig : Type := mkConfig {
  systemInstructionOf : option jsstring;
  responseMimeType : option jsstring;
  responseSchema : option Schema
}.

(** The argument of [ai.models.generateContent]: [config] may be absent, and
    [parts] is [contents.parts]. *)
Record Params : Type := mkParams {
  model : jsstring;
  config : option GenerationConfig;
  parts : list Part
}.

(** The outcome of one remote call: the promise resolves or rejects. *)
Inductive Outcome : Type :=
| Resolve (resp : GenerateContentResponse)
| Reject (error : JsError).

(** Everything a run does to its environment, in order; a remote call is
    recorded with the way it settled.  The retry notice of [console.warn] is
    kept as the three numbers interpolated in it.  Times are milliseconds;
    the progress callback is taken to return normally, as the one [App.tsx]
    passes does. *)
Inductive Event : Type :=
| EGenerate (params : Params) (o : Outcome) (* await ai.models.generateContent(params) *)
| EDelay (ms : Q)                        (* await delay(ms) *)
| EWarn (attempt retries : nat) (ms : Q) (* console.warn(`Rate limit hit ...`) *)
| EConsoleError (msg : jsstring)         (* console.error(msg, e) *)
| EProgress (step : jsstring).           (* onProgress(step) *)

Record World : Type := mkWorld {
  script : nat -> Outcome;   (* outcome of the n-th remote call, n = 0, 1, ... *)
  calls : nat;               (* remote calls made so far *)
  trace : list Event         (* what has happened so far, oldest first *)
}.

(** The environment after [n] more remote calls and the events [t]. *)
Definition advance (w : World) (n : nat) (t : list Event) : World :=
  {| script := script w; calls := calls w + n; trace := trace w ++ t |}.

Inductive Result (A : Type) : Type :=
| Ok (a : A)
| Throw (e : JsError).
Arguments Throw {A} e.

(** The monad of the asynchronous code: state passing over [World], with
    exceptions. *)
Definition M (A : Type) : Type := World -> Result A * World.

Definition ret {A} (a : A) : M A := fun w => (Ok a, w).

Definition throw {A} (e : JsError) : M A := fun w => (Throw e, w).

Definition bind {A B} (m : M A) (k : A -> M B) : M B :=
  fun w => match m w with
           | (Ok a, w') => k a w'
           | (Throw e, w') => (Throw e, w')
           end.

Notation "x <- m ;; k" := (bind m (fun x => k))
  (at level 61, m at next level, right associativity).
Notation "m ;;; k" := (bind m (fun _ => k))
  (at level 61, right associativity).

(** [try { ... } catch]: the outcome of the body is handed to the handler. *)
Definition try_ {A} (m : M A) : M (Result A) :=
  fun w => let (r, w') := m w in (Ok r, w').

Definition emit (e : Event) : M unit :=
  fun w => (Ok tt, advance w 0 [e]).

(** [ai.models.generateContent(params)]: the next outcome of the script. *)
Definition generateContent (params : Params) : M GenerateContentResponse :=
  fun w =>
    let o := script w (calls w) in
    let w' := advance w 1 [EGenerate params o] in
    match o with
    | Resolve resp => (Ok resp, w')
    | Reject error => (Throw error, w')
    end.

(** [delay(ms)], awaited. *)
Definition delay (ms : Q) : M unit := emit (EDelay ms).

(* ================================================================== *)
(** * services/geminiService.ts: [generateWithRetry] *)
(* ================================================================== *)

(** [x && x.includes(s)] for a message that is a string or [undefined]. *)
Definition messageIncludes (msg : option jsstring) (s : jsstring) : bool :=
  match msg with
  | Some ((_ :: _) as m) => includes m s
  | _ => false
  end.

Definition isRateLimit (error : JsError) : bool :=
  match status error with Some n => (n =? 429)%Z | None => false end
  || match code error with Some n => (n =? 429)%Z | None => false end
  || messageIncludes (message error) (u "429")
  || messageIncludes (message error) (u "RESOURCE_EXHAUSTED").

Definition quotaExhausted : JsError :=
  newError (u "Failed to generate content after retries. The API quota may be exhausted.").

(** The [for (let i = 0; i < retries; i++)] loop; [n] is [retries - i], the
    number of iterations left, and the statement after the loop is reached
    when none is.  [currentDelay *= 1.5] is taken on the rationals; for the
    default arguments the floating-point product is exact (see
    [backoff_binary64_exact]). *)
Fixpoint retryLoop (params : Params) (retries : nat) (n i : nat)
    (currentDelay : Q) : M GenerateContentResponse :=
  match n with
  | O => throw quotaExhausted
  | S n' =>
      r <- try_ (generateContent params) ;;
      match r with
      | Ok resp => ret resp
      | Throw error =>
          if isRateLimit error && (Z.of_nat i <? Z.of_nat retries - 1)%Z then
            emit (EWarn (i + 1) retries currentDelay) ;;;
            delay currentDelay ;;;
            retryLoop params retries n' (S i) (currentDelay * (3 # 2))
          else throw error
      end
  end.

Definition generateWithRetry (params : Params) (retries : nat)
    (initialDelay : Q) : M GenerateContentResponse :=
  retryLoop params retries retries 0 initialDelay.

(** The default arguments [retries = 10, initialDelay = 10000]. *)
Definition generateWithRetry' (params : Params) : M GenerateContentResponse :=
  generateWithRetry params 10 10000.

(* ================================================================== *)
(** * services/geminiService.ts: [generateAnalysis] *)
(* ================================================================== *)

(** ** The fixed instruction texts *)

Definition systemInstruction : jsstring :=
  u "
    You are ScholarMate, a senior research scientist, ML engineer, and academic reviewer combined.
    Your job is to transform research papers into accurate, grounded, reproducible research artifacts.
    
    STRICT RULES:
    - Use ONLY the provided paper context.
    - Never hallucinate facts, numbers, or results.
    - If information is missing, explicitly say: "
  ++ dq
  ++ u "Not specified in the paper."
  ++ dq
  ++ u "
    - Be precise, technical, and concise.
    - Prefer correctness over verbosity.
    - Assume the user is a technical student or researcher.
    - All outputs must be structured, evaluable, and demo-ready.
  ".

Definition summaryPrompt : jsstring :=
  u "
        Analyze this paper and provide a comprehensive, structured technical summary.
        
        Output Structure (Markdown):
        
        ## 1. Executive Summary
        *   **Context**: The broader field and specific problem addressed.
        *   **Core Contribution**: The main innovation or thesis.
        *   **Impact**: Why this work is significant.

        ## 2. Methodology & Architecture
        *   **Theoretical Basis**: Mathematical or theoretical foundation.
        *   **System Design**: Key components/algorithms.
        *   **Data Strategy**: Collection/generation methods.

        ## 3. Key Findings
        *   **Metrics**: Specific numerical results (SOTA comparison, accuracy).
        *   **Evidence**: Description of key graphs/visuals.

        ## 4. Conclusions
        *   Authors' final stance and future work.
        ".

Definition critiquePrompt : jsstring :=
  u "
        You are acting as an academic reviewer.

        TASK:
        Identify EXACTLY THREE concrete weaknesses or limitations of the paper.

        REQUIREMENTS:
        - Each point must be specific and technical.
        - Base each critique ONLY on what is stated or clearly missing in the paper.
        - Avoid generic criticism.
        - Focus on:
          - experimental design
          - dataset limitations
          - evaluation methodology
          - scalability or reproducibility

        OUTPUT FORMAT (Markdown):
        1. **Short Title**: Explanation (2"
  ++ endash
  ++ u "3 concise technical sentences).
        2. **Short Title**: Explanation (2"
  ++ endash
  ++ u "3 concise technical sentences).
        3. **Short Title**: Explanation (2"
  ++ endash
  ++ u "3 concise technical sentences).
        ".

Definition experimentPrompt : jsstring :=
  u "
    Design ONE reproducible mini-experiment inspired by the paper.

    GOAL:
    The experiment must help a student understand or validate
    a core idea from the paper.

    STRICT CONSTRAINTS:
    - Must run in under 5 minutes on a laptop.
    - Use only standard Python libraries (sklearn, numpy, pandas, matplotlib).
    - Must be educational and realistic.

    REQUIREMENTS:
    - If no dataset is provided, use a small synthetic dataset.
    - Clearly define:
      - Objective
      - Data
      - Method
      - Evaluation metric
    - Do NOT overcomplicate.

    OUTPUT FORMAT (Use Markdown):
    **Experiment Objective**: [text]
    
    **Data Description**: [text]
    
    **Method**: [text]
    
    **Evaluation Metric**: [text]
    
    **Expected Outcome**: [text]
  ".

Definition codePrompt (experimentPlan : jsstring) : jsstring :=
  u "
    Generate runnable Python code for the experiment described below.

    Experiment Plan:
    "
  ++ experimentPlan
  ++ u "

    STRICT RULES:
    - Use ONLY these libraries: numpy, pandas, scikit-learn, matplotlib
    - Do NOT use deep learning frameworks.
    - Do NOT use external files or APIs.
    - Generate any required data inside the code (e.g. using numpy.random or sklearn.datasets).
    - The code MUST run top-to-bottom with no edits.

    TASK:
    Implement the experiment exactly as described in the plan.
    Ensure strict reproducibility and clear output of results.

    OUTPUT FORMAT:
    - Output ONLY valid Python code.
    - Add comments to explain necessary lines and how they relate to the paper's concepts.
  ".

Definition slidesPrompt (summary experimentPlan : jsstring) : jsstring :=
  u "
    Create content for a 5-slide technical presentation summarizing the paper and experiment.
    
    Context:
    "
  ++ summary
  ++ u "
    "
  ++ experimentPlan
  ++ u "

    TASK:
    Create slide text summarizing the paper and experiment.

    SLIDE STRUCTURE:
    1. Problem & Motivation
    2. Core Idea
    3. Method Overview
    4. Reproducible Experiment
    5. Key Takeaways & Next Steps

    REQUIREMENTS:
    - Each slide must have:
      - A clear title
      - 3"
  ++ endash
  ++ u "5 concise bullet points
    - Use technical but simple language.
    - Avoid marketing language.
    
    Return JSON array.
  ".

Definition interpretationPrompt (experimentPlan : jsstring) : jsstring :=
  u "
    Interpret the EXPECTED results of the mini-experiment described below.

    Experiment Plan:
    "
  ++ experimentPlan
  ++ u "

    TASK:
    Explain what the results demonstrate in relation to the paper.

    REQUIREMENTS:
    - Max 150 words.
    - Be honest about limitations (since it uses synthetic data).
    - Do not exaggerate conclusions.
    - Focus on educational value.
  ".

Definition validationPrompt (summary critique experimentPlan : jsstring) : jsstring :=
  u "
    Validate the following generated research artifacts against the original paper.

    Artifacts to Check:
    1. Summary: "
  ++ summary
  ++ u "
    2. Critique: "
  ++ critique
  ++ u "
    3. Experiment Plan: "
  ++ experimentPlan
  ++ u "

    TASK:
    Check for:
    - Hallucinated claims
    - Inconsistencies between summary, critique, and experiment
    - Unsupported assumptions

    If issues exist, list them clearly.
    If none exist, output:
    "
  ++ dq
  ++ u "Outputs are internally consistent and grounded."
  ++ dq
  ++ u "
  ".

(** ** The requests of the seven stages *)

Definition filePart (fileBase64 mimeType : jsstring) : Part :=
  inlineData mimeType fileBase64.

Definition withSystemInstruction : option GenerationConfig :=
  Some {| systemInstructionOf := Some systemInstruction;
          responseMimeType := None; responseSchema := None |}.

Definition slidesSchema : Schema :=
  TypeARRAY
    (TypeOBJECT [(u "title", TypeSTRING); (u "bullets", TypeARRAY TypeSTRING)]
                [u "title"; u "bullets"]).

Definition summaryParams (fileBase64 mimeType : jsstring) : Params :=
  {| model := MODEL_NAME;
     config := withSystemInstruction;
     parts := [filePart fileBase64 mimeType; textPart summaryPrompt] |}.

Definition critiqueParams (fileBase64 mimeType : jsstring) : Params :=
  {| model := MODEL_NAME;
     config := withSystemInstruction;
     parts := [filePart fileBase64 mimeType; textPart critiquePrompt] |}.

Definition experimentParams (fileBase64 mimeType : jsstring) : Params :=
  {| model := MODEL_NAME;
     config := withSystemInstruction;
     parts := [filePart fileBase64 mimeType; textPart experimentPrompt] |}.

Definition codeParams (experimentPlan : jsstring) : Params :=
  {| model := MODEL_NAME;
     config := None;
     parts := [textPart (codePrompt experimentPlan)] |}.

Definition slidesParams (fileBase64 mimeType summary experimentPlan : jsstring)
  : Params :=
  {| model := MODEL_NAME;
     config := Some {| systemInstructionOf := None;
                       responseMimeType := Some (u "application/json");
                       responseSchema := Some slidesSchema |};
     parts := [filePart fileBase64 mimeType;
               textPart (slidesPrompt summary experimentPlan)] |}.

Definition interpretationParams (experimentPlan : jsstring) : Params :=
  {| model := MODEL_NAME;
     config := None;
     parts := [textPart (interpretationPrompt experimentPlan)] |}.

Definition validationParams
    (fileBase64 mimeType summary critique experimentPlan : jsstring) : Params :=
  {| model := MODEL_NAME;
     config := None;
     parts := [filePart fileBase64 mimeType;
               textPart (validationPrompt summary critique experimentPlan)] |}.

(** ** The result bundle *)

Record SlideData : Type := mkSlide {
  title : jsstring;
  bullets : list jsstring
}.

(** A [SlideData] as the object [JSON.parse] would give. *)
Definition slideValue (s : SlideData) : Json.value :=
  JObject [(u "title", JString (title s));
           (u "bullets", JArray (List.map JString (bullets s)))].

(** [slides] is declared [SlideData[]] but holds whatever [JSON.parse]
    returned: the value is not validated at run time. *)
Record AnalysisResult : Type := mkResult {
  summary : jsstring;
  critique : jsstring;
  experimentPlan : jsstring;
  pythonCode : jsstring;
  experimentInterpretation : jsstring;
  validationReport : jsstring;
  slides : Json.value
}.

(** [x || d] for [x] a string or [undefined]: the empty string is falsy. *)
Definition orElse (x : option jsstring) (d : jsstring) : jsstring :=
  match x with
  | Some ((_ :: _) as s) => s
  | _ => d
  end.

Definition errorSlides : Json.value :=
  JArray [slideValue {| title := u "Error";
                        bullets := [u "Failed to generate slides data."] |}].

(** The [try { slides = JSON.parse(...) } catch] block of stage 5. *)
Definition parseSlides (slidesText : option jsstring) : M Json.value :=
  match Json.parse (cleanJson (orElse slidesText (u "[]"))) with
  | Some v => ret v
  | None =>
      emit (EConsoleError (u "Failed to parse slides JSON")) ;;;
      ret errorSlides
  end.

Definition generateAnalysis (fileBase64 mimeType : jsstring)
  : M AnalysisResult :=
  (* STEP 1: SUMMARY *)
  emit (EProgress (u "Step 1/7: Generating Deep Summary...")) ;;;
  summaryResp <- generateWithRetry' (summaryParams fileBase64 mimeType) ;;
  let summary := orElse (text summaryResp) (u "Failed to generate summary.") in
  delay 12000 ;;;
  (* STEP 2: CRITIQUE *)
  emit (EProgress (u "Step 2/7: Generating Critical Review...")) ;;;
  critiqueResp <- generateWithRetry' (critiqueParams fileBase64 mimeType) ;;
  let critique := orElse (text critiqueResp) (u "Failed to generate critique.") in
  delay 12000 ;;;
  (* STEP 3: EXPERIMENT PLAN *)
  emit (EProgress (u "Step 3/7: Designing Experiment...")) ;;;
  experimentResp <- generateWithRetry' (experimentParams fileBase64 mimeType) ;;
  let experimentPlan :=
    orElse (text experimentResp) (u "Failed to generate experiment plan.") in
  delay 12000 ;;;
  (* STEP 4: PYTHON CODE *)
  emit (EProgress (u "Step 4/7: Generating Python Code...")) ;;;
  codeResp <- generateWithRetry' (codeParams experimentPlan) ;;
  let pythonCode :=
    cleanCode (orElse (text codeResp) (u "# Failed to generate code.")) in
  delay 12000 ;;;
  (* STEP 5: SLIDES *)
  emit (EProgress (u "Step 5/7: Generating Presentation Slides...")) ;;;
  slidesResp <-
    generateWithRetry' (slidesParams fileBase64 mimeType summary experimentPlan) ;;
  slides <- parseSlides (text slidesResp) ;;
  delay 12000 ;;;
  (* STEP 6: INTERPRETATION *)
  emit (EProgress (u "Step 6/7: Generating Interpretation...")) ;;;
  interpretationResp <- generateWithRetry' (interpretationParams experimentPlan) ;;
  let experimentInterpretation :=
    orElse (text interpretationResp) (u "Failed to generate interpretation.") in
  delay 12000 ;;;
  (* STEP 7: VALIDATION *)
  emit (EProgress (u "Step 7/7: Validating Results...")) ;;;
  validationResp <-
    generateWithRetry'
      (validationParams fileBase64 mimeType summary critique experimentPlan) ;;
  let validationReport :=
    orElse (text validationResp) (u "Validation check failed.") in
  ret {| summary := summary;
         critique := critique;
         experimentPlan := experimentPlan;
         pythonCode := pythonCode;
         experimentInterpretation := experimentInterpretation;
         validationReport := validationReport;
         slides := slides |}.

(** A run from a fresh environment whose remote calls follow [sc]. *)
Definition fresh (sc : nat -> Outcome) : World :=
  {| script := sc; calls := 0; trace := [] |}.

Definition run {A} (m : M A) (sc : nat -> Outcome) : Result A * World :=
  m (fresh sc).

(* ================================================================== *)
(** * App.tsx: the validation view *)
(* ================================================================== *)

Inductive Icon : Type := CheckCircle2 | AlertCircle.

(** What the ['validation'] case of [renderContent] shows for a report: the
    five places that test [validationReport.includes("consistent and
    grounded")]. *)
Record ValidationView : Type := mkView {
  panelClass : jsstring;
  icon : Icon;
  headingClass : jsstring;
  heading : jsstring;
  bodyClass : jsstring
}.

Definition validationView (validationReport : jsstring) : ValidationView :=
  {| panelClass :=
       if includes validationReport (u "consistent and grounded")
       then u "bg-green-50 border-green-100" else u "bg-red-50 border-red-100";
     icon :=
       if includes validationReport (u "consistent and grounded")
       then CheckCircle2 else AlertCircle;
     headingClass :=
       if includes validationReport (u "consistent and grounded")
       then u "text-green-900" else u "text-red-900";
     heading :=
       if includes validationReport (u "consistent and grounded")
       then u "Validation Passed" else u "Issues Detected";
     bodyClass :=
       if includes validationReport (u "consistent and grounded")
       then u "text-green-800" else u "text-red-800" |}.

(* ================================================================== *)
(** * Reading a trace *)
(* ================================================================== *)

(** The remote calls of a trace, each with the number of progress notices
    emitted before it: the call belongs to stage [n] when it follows the
    notice [Step n/7]. *)
Fixpoint stageCalls (seen : nat) (t : list Event) : list (nat * Params) :=
  match t with
  | [] => []
  | EProgress _ :: t' => stageCalls (S seen) t'
  | EGenerate p _ :: t' => (seen, p) :: stageCalls seen t'
  | _ :: t' => stageCalls seen t'
  end.

(** The response that resolved the remote call of stage [stage], and what
    the run did after it. *)
Fixpoint afterResolved (stage seen : nat) (t : list Event)
  : option (GenerateContentResponse * list Event) :=
  match t with
  | [] => None
  | EProgress _ :: t' => afterResolved stage (S seen) t'
  | EGenerate _ (Resolve resp) :: t' =>
      if Nat.eqb seen stage then Some (resp, t')
      else afterResolved stage seen t'
  | _ :: t' => afterResolved stage seen t'
  end.

(** The delays awaited, in order. *)
Fixpoint delaysOf (t : list Event) : list Q :=
  match t with
  | [] => []
  | EDelay ms :: t' => ms :: delaysOf t'
  | _ :: t' => delaysOf t'
  end.

(** The delay awaited between the remote call number [k - 1] and the remote
    call number [k] of a trace, calls counted from 0 like the loop variable
    [i] of [generateWithRetry]; [last] is the delay seen since the previous
    call. *)
Fixpoint delayBefore (k : nat) (last : option Q) (t : list Event) : option Q :=
  match t with
  | [] => None
  | EGenerate _ _ :: t' =>
      match k with
      | O => last
      | S k' => delayBefore k' None t'
      end
  | EDelay ms :: t' => delayBefore k (Some ms) t'
  | _ :: t' => delayBefore k last t'
  end.

Definition isGenerate (e : Event) : bool :=
  match e with EGenerate _ _ => true | _ => false end.

(** The number of remote calls of a trace. *)
Definition attempts (t : list Event) : nat :=
  List.length (filter isGenerate t).

(** The trace of [k] rate-limited attempts of the retry loop from iteration
    [i] on: call, notice, wait, with the delay growing by half each time. *)
Fixpoint retryTrace (params : Params) (retries i : nat) (currentDelay : Q)
    (errors : list JsError) : list Event :=
  match errors with
  | [] => []
  | e :: errors' =>
      EGenerate params (Reject e)
      :: EWarn (i + 1) retries currentDelay
      :: EDelay currentDelay
      :: retryTrace params retries (S i) (currentDelay * (3 # 2)) errors'
  end.

Definition resultOf (o : Outcome) : Result GenerateContentResponse :=
  match o with
  | Resolve resp => Ok resp
  | Reject error => Throw error
  end.

(* ================================================================== *)
(** * Vocabulary of the statements *)
(* ================================================================== *)

(** ** The validation sentinel and fenced texts *)

Definition sentinel : jsstring :=
  u "Outputs are internally consistent and grounded.".

Definition spaces (ws : jsstring) : Prop := forallb is_space ws = true.

Definition noBacktick (s : jsstring) : Prop :=
  forallb (fun c => negb (eqb_char c backtick)) s = true.

(** A leading fence as [cleanCode] recognises it: nothing, the generic
    fence, or the fence tagged [python] in any letter case. *)
Inductive leadingFence : jsstring -> Prop :=
| lead_none : leadingFence []
| lead_generic : leadingFence fence
| lead_python tag :
    List.length tag = 9%nat -> startsWith_ci tag (u "```python") = true ->
    leadingFence tag.

Inductive trailingFence : jsstring -> Prop :=
| trail_none : trailingFence []
| trail_generic ws : spaces ws -> trailingFence (fence ++ ws).

(** A text whose first character is no backtick starts with no fence. *)
Definition headNotBacktick (s : jsstring) : Prop :=
  match s with
  | x :: _ => eqb_char x backtick = false
  | [] => True
  end.

(** ** Scripts of the remote endpoint and the backoff *)

(** The outcomes [os] are what the script holds from call number [from] on. *)
Definition scripted (sc : nat -> Outcome) (from : nat) (os : list Outcome) : Prop :=
  forall j o, nth_error os j = Some o -> sc (from + j)%nat = o.

(** The delay after [k] rate-limited attempts, as the loop computes it. *)
Fixpoint backoff (currentDelay : Q) (k : nat) : Q :=
  match k with
  | O => currentDelay
  | S k' => backoff (currentDelay * (3 # 2)) k'
  end.

(** The error message holds [s]. *)
Definition messageContains (error : JsError) (s : jsstring) : Prop :=
  exists m a b, message error = Some m /\ m = a ++ s ++ b.

Definition rateLimited (error : JsError) : Prop := isRateLimit error = true.

(** A rejection with HTTP status 429, and one that is no rate limit. *)
Definition tooManyRequests : JsError :=
  {| status := Some 429%Z; code := None;
     message := Some (u "Too Many Requests") |}.

Definition internalError : JsError :=
  {| status := Some 500%Z; code := None;
     message := Some (u "Internal error encountered.") |}.

(** ** The seven stages as a table *)

(** The progress notice, the request, the output and the events after the
    resolved call of stage [n], read off [generateAnalysis]; [b] holds the
    outputs of the stages before.  [generateAnalysis_run] shows that every
    run of the program is a run of these stages. *)
Definition stageStep (n : nat) : jsstring :=
  match n with
  | 1 => u "Step 1/7: Generating Deep Summary..."
  | 2 => u "Step 2/7: Generating Critical Review..."
  | 3 => u "Step 3/7: Designing Experiment..."
  | 4 => u "Step 4/7: Generating Python Code..."
  | 5 => u "Step 5/7: Generating Presentation Slides..."
  | 6 => u "Step 6/7: Generating Interpretation..."
  | _ => u "Step 7/7: Validating Results..."
  end%nat.

Definition stageParams (n : nat) (fileBase64 mimeType : jsstring)
    (b : AnalysisResult) : Params :=
  match n with
  | 1 => summaryParams fileBase64 mimeType
  | 2 => critiqueParams fileBase64 mimeType
  | 3 => experimentParams fileBase64 mimeType
  | 4 => codeParams (experimentPlan b)
  | 5 => slidesParams fileBase64 mimeType (summary b) (experimentPlan b)
  | 6 => interpretationParams (experimentPlan b)
  | _ => validationParams fileBase64 mimeType
           (summary b) (critique b) (experimentPlan b)
  end%nat.

(** The value stage 5 stores in [slides]. *)
Definition slidesOf (slidesText : option jsstring) : Json.value :=
  match Json.parse (cleanJson (orElse slidesText (u "[]"))) with
  | Some v => v
  | None => errorSlides
  end.

(** The placeholder of each text stage. *)
Definition placeholder (n : nat) : jsstring :=
  match n with
  | 1 => u "Failed to generate summary."
  | 2 => u "Failed to generate critique."
  | 3 => u "Failed to generate experiment plan."
  | 4 => u "# Failed to generate code."
  | 6 => u "Failed to generate interpretation."
  | _ => u "Validation check failed."
  end%nat.

Definition stageUpdate (n : nat) (resp : GenerateContentResponse)
    (b : AnalysisResult) : AnalysisResult :=
  match n with
  | 1 => {| summary := orElse (text resp) (placeholder 1);
            critique := critique b; experimentPlan := experimentPlan b;
            pythonCode := pythonCode b;
            experimentInterpretation := experimentInterpretation b;
            validationReport := validationReport b; slides := slides b |}
  | 2 => {| summary := summary b;
            critique := orElse (text resp) (placeholder 2);
            experimentPlan := experimentPlan b;
            pythonCode := pythonCode b;
            experimentInterpretation := experimentInterpretation b;
            validationReport := validationReport b; slides := slides b |}
  | 3 => {| summary := summary b; critique := critique b;
            experimentPlan := orElse (text resp) (placeholder 3);
            pythonCode := pythonCode b;
            experimentInterpretation := experimentInterpretation b;
            validationReport := validationReport b; slides := slides b |}
  | 4 => {| summary := summary b; critique := critique b;
            experimentPlan := experimentPlan b;
            pythonCode := cleanCode (orElse (text resp) (placeholder 4));
            experimentInterpretation := experimentInterpretation b;
            validationReport := validationReport b; slides := slides b |}
  | 5 => {| summary := summary b; critique := critique b;
            experimentPlan := experimentPlan b;
            pythonCode := pythonCode b;
            experimentInterpretation := experimentInterpretation b;
            validationReport := validationReport b;
            slides := slidesOf (text resp) |}
  | 6 => {| summary := summary b; critique := critique b;
            experimentPlan := experimentPlan b;
            pythonCode := pythonCode b;
            experimentInterpretation := orElse (text resp) (placeholder 6);
            validationReport := validationReport b; slides := slides b |}
  | _ => {| summary := summary b; critique := critique b;
            experimentPlan := experimentPlan b;
            pythonCode := pythonCode b;
            experimentInterpretation := experimentInterpretation b;
            validationReport := orElse (text resp) (placeholder 7);
            slides := slides b |}
  end%nat.

Definition stageTail (n : nat) (resp : GenerateContentResponse) : list Event :=
  match n with
  | 5 => match Json.parse (cleanJson (orElse (text resp) (u "[]"))) with
         | Some _ => [EDelay 12000]
         | None => [EConsoleError (u "Failed to parse slides JSON"); EDelay 12000]
         end
  | 7 => []
  | _ => [EDelay 12000]
  end%nat.

(** Before stage 1 nothing is known; [slides] starts as the empty array. *)
Definition noOutputs : AnalysisResult :=
  {| summary := []; critique := []; experimentPlan := []; pythonCode := [];
     experimentInterpretation := []; validationReport := [];
     slides := JArray [] |}.

(** The events of one stage: the notice, the rate-limited attempts, and the
    call that settled it. *)
Definition stageEvents (step : jsstring) (p : Params)
    (errors : list JsError) (last : Outcome) : list Event :=
  EProgress step :: retryTrace p 10 0 10000 errors ++ [EGenerate p last].

(** [Completed f m n b t]: stages 1 to [n] have run to their end, producing
    the outputs [b] and the trace [t]. *)
Inductive Completed (fileBase64 mimeType : jsstring)
  : nat -> AnalysisResult -> list Event -> Prop :=
| completed_none : Completed fileBase64 mimeType 0 noOutputs []
| completed_next n b t errors resp :
    Completed fileBase64 mimeType n b t ->
    (n < 7)%nat ->
    (List.length errors < 10)%nat -> Forall rateLimited errors ->
    Completed fileBase64 mimeType (S n) (stageUpdate (S n) resp b)
      ((t ++ stageEvents (stageStep (S n))
                (stageParams (S n) fileBase64 mimeType b) errors (Resolve resp))
       ++ stageTail (S n) resp).

(** The two ways a run of the pipeline ends: all seven stages completed, or
    the wrapper threw in the stage after the [n] completed ones. *)
Inductive PipelineRun (fileBase64 mimeType : jsstring)
  : Result AnalysisResult -> list Event -> Prop :=
| run_returns b t :
    Completed fileBase64 mimeType 7 b t ->
    PipelineRun fileBase64 mimeType (Ok b) t
| run_throws n b t errors error :
    Completed fileBase64 mimeType n b t ->
    (n < 7)%nat ->
    (List.length errors < 10)%nat -> Forall rateLimited errors ->
    isRateLimit error = false \/ List.length errors = 9%nat ->
    PipelineRun fileBase64 mimeType (Throw error)
      (t ++ stageEvents (stageStep (S n))
              (stageParams (S n) fileBase64 mimeType b) errors (Reject error)).

(** The number of progress notices of a trace. *)
Fixpoint progressCount (t : list Event) : nat :=
  match t with
  | [] => 0
  | EProgress _ :: t' => S (progressCount t')
  | _ :: t' => progressCount t'
  end.

(** After the events that close stage [k] comes the notice of stage [k + 1]
    and at least one remote call. *)
Definition startsNextStage (k : nat) (post : list Event) : Prop :=
  exists rest, post = EProgress (stageStep (S k)) :: rest
               /\ (1 <= attempts rest)%nat.

(** What the trace [t] of [n] completed stages with outputs [b] tells about
    stage [k]. *)
Definition StageRead (n : nat) (b : AnalysisResult) (t : list Event) (k : nat)
  : Prop :=
  match afterResolved k 0 t with
  | Some (resp, post) =>
      (1 <= k <= n)%nat
      /\ stageUpdate k resp b = b
      /\ exists post', post = stageTail k resp ++ post'
                       /\ (k = n -> post' = [])
                       /\ (k <> n -> startsNextStage k post')
  | None => k = 0%nat \/ (n < k)%nat
  end.


(** The field of the bundle that stage [n] writes, for the text stages. *)
Definition stageOutput (n : nat) (b : AnalysisResult) : jsstring :=
  match n with
  | 1 => summary b
  | 2 => critique b
  | 3 => experimentPlan b
  | 4 => pythonCode b
  | 6 => experimentInterpretation b
  | _ => validationReport b
  end%nat.

(** [text] is [undefined] or the empty string. *)
Definition falsy (x : option jsstring) : Prop := x = None \/ x = Some [].

(** A value is a list with at least one entry. *)
Definition nonEmptyList (v : Json.value) : Prop :=
  exists x l, v = JArray (x :: l).

(** ** Sample inputs *)

(** A document and a remote endpoint that resolves every call without
    text. *)
Definition paper : jsstring := u "JVBERi0xLjcKJcfsj6IK".
Definition pdf : jsstring := u "application/pdf".
Definition noText : nat -> Outcome := fun _ => Resolve {| text := None |}.


(* ================================================================== *)
(** * More JavaScript strings: [split], [replace], [endsWith], [slice] *)
(* ================================================================== *)

(** [s.split(sep)] for a non-empty string [sep]: the pieces between the
    occurrences of [sep], found from the left without overlap.  [cur] is the
    piece being read, last character first, and [skip] counts the characters
    of a separator still to pass. *)
Fixpoint splitAux (sep s cur : jsstring) (skip : nat) : list jsstring :=
  match s with
  | [] => [rev cur]
  | c :: s' =>
      match skip with
      | S k => splitAux sep s' cur k
      | O =>
          if startsWith s sep
          then rev cur :: splitAux sep s' [] (List.length sep - 1)
          else splitAux sep s' (c :: cur) 0
      end
  end.

Definition split (sep s : jsstring) : list jsstring := splitAux sep s [] 0.

(** [pieces.join(sep)]. *)
Fixpoint join (sep : jsstring) (pieces : list jsstring) : jsstring :=
  match pieces with
  | [] => []
  | [p] => p
  | p :: rest => p ++ sep ++ join sep rest
  end.

(** [s.replace(pat, '')] for a non-empty string [pat]: the first occurrence
    is removed. *)
Fixpoint removeFirst (pat s : jsstring) : jsstring :=
  if startsWith s pat then skipn (List.length pat) s
  else match s with
       | [] => []
       | c :: s' => c :: removeFirst pat s'
       end.

Definition endsWith (s p : jsstring) : bool := startsWith (rev s) (rev p).

(** [s.slice(2, -2)]. *)
Definition slice2 (s : jsstring) : jsstring :=
  firstn (List.length s - 4) (skipn 2 s).

(* ================================================================== *)
(** * components/MarkdownView.tsx *)
(* ================================================================== *)

Module Markdown.

(** What a line is made of: text, or text in [<strong>]. *)
Inductive Inline : Type :=
| Plain (s : jsstring)
| Strong (s : jsstring).

(** The elements [formatText] returns, with what they hold. *)
Inductive Block : Type :=
| H2 (s : jsstring)
| H3 (s : jsstring)
| Bullet (content : option (list Inline))     (* li, list-disc *)
| Numbered (content : option (list Inline))   (* li, list-decimal *)
| Spacer                                      (* div, h-3 *)
| Paragraph (content : option (list Inline)).

(** The characters [.] does not match. *)
Definition isLineTerminator (c : jschar) : bool :=
  ((c =? 10) || (c =? 13) || (c =? 8232) || (c =? 8233))%N.

(** After an opening [**]: how many characters the lazy [.*?] takes before
    the closing [**]. *)
Fixpoint closing (s : jsstring) : option nat :=
  match s with
  | [] => None
  | c :: s' =>
      if startsWith s (u "**") then Some 0%nat
      else if isLineTerminator c then None
      else option_map S (closing s')
  end.

(** The length of the match of [/\*\*.*?\*\*/] at the start of [s]. *)
Definition boldMatch (s : jsstring) : option nat :=
  if startsWith s (u "**")
  then option_map (fun k => (k + 4)%nat) (closing (skipn 2 s))
  else None.

(** [text.split] at the pattern above, wrapped in a capture group: the text
    between the matches and, for the group, the matches themselves. *)
Fixpoint splitBoldAux (s cur : jsstring) (skip : nat) : list jsstring :=
  match s with
  | [] => [rev cur]
  | c :: s' =>
      match skip with
      | S k => splitBoldAux s' cur k
      | O =>
          match boldMatch s with
          | Some len => rev cur :: firstn len s :: splitBoldAux s' [] (len - 1)
          | None => splitBoldAux s' (c :: cur) 0
          end
      end
  end.

Definition splitBold (text : jsstring) : list jsstring := splitBoldAux text [] 0.

Definition renderPart (part : jsstring) : Inline :=
  if startsWith part (u "**") && endsWith part (u "**")
  then Strong (slice2 part)
  else Plain part.

(** [parseLineWithBold]; [None] is [null]. *)
Definition parseLineWithBold (text : jsstring) : option (list Inline) :=
  match text with
  | [] => None
  | _ :: _ => Some (List.map renderPart (splitBold text))
  end.

(** [line.replace(/^[-*]\s/, '')]. *)
Definition removeBulletMarker (line : jsstring) : jsstring :=
  match line with
  | c :: d :: rest =>
      if ((c =? 45) || (c =? 42))%N && is_space d then rest else line
  | _ => line
  end.

(** The rest of [line] after a match of [/^\d+\.\s/], if there is one. *)
Definition afterNumber (line : jsstring) : option jsstring :=
  match Json.takeDigits line with
  | (_ :: _, dot :: sp :: rest) =>
      if (dot =? 46)%N && is_space sp then Some rest else None
  | _ => None
  end.

(** The callback of [text.split('\n').map(...)] in [formatText]. *)
Definition formatLine (line : jsstring) : Block :=
  if startsWith line (u "## ") then H2 (removeFirst (u "## ") line)
  else if startsWith line (u "### ") then H3 (removeFirst (u "### ") line)
  else if startsWith (trim line) (u "- ") || startsWith (trim line) (u "* ")
  then Bullet (parseLineWithBold (removeBulletMarker line))
  else match afterNumber (trim line) with
       | Some _ =>
           Numbered (parseLineWithBold
                       (match afterNumber line with
                        | Some rest => rest
                        | None => line
                        end))
       | None =>
           match trim line with
           | [] => Spacer
           | _ :: _ => Paragraph (parseLineWithBold line)
           end
       end.

(** [formatText]; [None] is [null]. *)
Definition formatText (text : jsstring) : option (list Block) :=
  match text with
  | [] => None
  | _ :: _ => Some (List.map formatLine (split LF text))
  end.

(** The text a line shows. *)
Definition shown (i : Inline) : jsstring :=
  match i with
  | Plain s => s
  | Strong s => s
  end.

End Markdown.

(* ================================================================== *)
(** * components/SlideDeck.tsx: the position in the deck *)
(* ================================================================== *)

Module SlideDeck.

(** [nextSlide] and [prevSlide], as the updates of [currentIndex] for a deck
    of [n] slides. *)
Definition nextSlide (n : nat) (prev : Z) : Z := Z.min (prev + 1) (Z.of_nat n - 1).

Definition prevSlide (prev : Z) : Z := Z.max (prev - 1) 0.

Inductive Click : Type := Next | Prev.

Definition click (n : nat) (c : Click) (currentIndex : Z) : Z :=
  match c with
  | Next => nextSlide n currentIndex
  | Prev => prevSlide currentIndex
  end.

(** [useState(0)] and the clicks since, oldest first. *)
Definition indexAfter (n : nat) (clicks : list Click) : Z :=
  fold_left (fun i c => click n c i) clicks 0%Z.

(** What the component shows: the notice for an empty deck, or the slide at
    [currentIndex] with the counter "Slide i of n"; [None] stands for
    [slides[currentIndex]] being [undefined]. *)
Inductive View : Type :=
| NoSlides
| Showing (slide : option SlideData) (number total : Z)
          (prevDisabled nextDisabled : bool).

Definition view (slides : list SlideData) (currentIndex : Z) : View :=
  match slides with
  | [] => NoSlides
  | _ :: _ =>
      Showing (if (currentIndex <? 0)%Z then None
               else nth_error slides (Z.to_nat currentIndex))
              (currentIndex + 1) (Z.of_nat (List.length slides))
              (currentIndex =? 0)%Z
              (currentIndex =? Z.of_nat (List.length slides) - 1)%Z
  end.

End SlideDeck.

(* ================================================================== *)
(** * Further readings of a trace *)
(* ================================================================== *)

(** The total of a list of waits. *)
Definition totalOf (ds : list Q) : Q := fold_right Qplus 0 ds.

(** [spaced ready t]: every remote call of [t] comes after a wait of at least
    ten seconds since the call before it; [ready] tells whether such a wait
    has been seen since the last call. *)
Fixpoint spaced (ready : bool) (t : list Event) : bool :=
  match t with
  | [] => true
  | EGenerate _ _ :: t' => ready && spaced false t'
  | EDelay ms :: t' => spaced (ready || Qle_bool 10000 ms) t'
  | _ :: t' => spaced ready t'
  end.

(** Whether a long enough wait has been seen since the last call of [t]. *)
Fixpoint readyAfter (ready : bool) (t : list Event) : bool :=
  match t with
  | [] => ready
  | EGenerate _ _ :: t' => readyAfter false t'
  | EDelay ms :: t' => readyAfter (ready || Qle_bool 10000 ms) t'
  | _ :: t' => readyAfter ready t'
  end.

(** The notices handed to the progress callback, in order. *)
Fixpoint progressOf (t : list Event) : list jsstring :=
  match t with
  | [] => []
  | EProgress step :: t' => step :: progressOf t'
  | _ :: t' => progressOf t'
  end.

(** The messages written with [console.error]. *)
Fixpoint consoleErrorsOf (t : list Event) : list jsstring :=
  match t with
  | [] => []
  | EConsoleError msg :: t' => msg :: consoleErrorsOf t'
  | _ :: t' => consoleErrorsOf t'
  end.

(** An error that is no rate limit but whose message holds "429". *)
Definition badRequest : JsError :=
  {| status := Some 400%Z; code := None;
     message := Some (u "Request 14290 is malformed.") |}.

(** [params.config?.responseMimeType] and [params.config?.responseSchema]. *)
Definition responseMimeTypeIn (p : Params) : option jsstring :=
  match config p with
  | Some c => responseMimeType c
  | None => None
  end.

Definition responseSchemaIn (p : Params) : option Schema :=
  match config p with
  | Some c => responseSchema c
  | None => None
  end.

(* ================================================================== *)
(** * App.tsx: the state of the application and its handlers *)
(* ================================================================== *)

(** The component keeps its state in ten [useState] cells; a handler is the
    state it leaves once its promises have settled.  The element tree of
    [renderContent] is kept as the branch taken and the values shown in it. *)
Module App.

Inductive AppStatus : Type := IDLE | PROCESSING | COMPLETE | ERROR.

(** ['upload' | 'summary' | 'critique' | 'experiment' | 'code' | 'slides' |
    'validation']. *)
Inductive AnalysisStep : Type :=
| StepUpload | StepSummary | StepCritique | StepExperiment | StepCode
| StepSlides | StepValidation.

Inductive RunStatus : Type :=
| RunIDLE | RunLOADING | RunRUNNING | RunSUCCESS | RunERROR.

Record FileData : Type := mkFileData {
  name : jsstring;
  base64 : jsstring;
  mimeType : jsstring
}.

Record State : Type := mkState {
  status : AppStatus;
  currentStep : AnalysisStep;
  progressMsg : jsstring;
  file : option FileData;
  result : option AnalysisResult;
  error : option jsstring;
  pyodide : bool;                 (* the runtime has been loaded and kept *)
  runStatus : RunStatus;
  output : jsstring;
  runError : option jsstring
}.

Definition initial : State :=
  {| status := IDLE; currentStep := StepUpload; progressMsg := [];
     file := None; result := None; error := None;
     pyodide := false; runStatus := RunIDLE; output := []; runError := None |}.

(** The setters of the ten cells. *)
Definition setStatus (v : AppStatus) (st : State) : State :=
  {| status := v; currentStep := currentStep st; progressMsg := progressMsg st;
     file := file st; result := result st; error := error st;
     pyodide := pyodide st; runStatus := runStatus st; output := output st;
     runError := runError st |}.

Definition setCurrentStep (v : AnalysisStep) (st : State) : State :=
  {| status := status st; currentStep := v; progressMsg := progressMsg st;
     file := file st; result := result st; error := error st;
     pyodide := pyodide st; runStatus := runStatus st; output := output st;
     runError := runError st |}.

Definition setProgressMsg (v : jsstring) (st : State) : State :=
  {| status := status st; currentStep := currentStep st; progressMsg := v;
     file := file st; result := result st; error := error st;
     pyodide := pyodide st; runStatus := runStatus st; output := output st;
     runError := runError st |}.

Definition setFile (v : option FileData) (st : State) : State :=
  {| status := status st; currentStep := currentStep st;
     progressMsg := progressMsg st;
     file := v; result := result st; error := error st;
     pyodide := pyodide st; runStatus := runStatus st; output := output st;
     runError := runError st |}.

Definition setResult (v : option AnalysisResult) (st : State) : State :=
  {| status := status st; currentStep := currentStep st;
     progressMsg := progressMsg st;
     file := file st; result := v; error := error st;
     pyodide := pyodide st; runStatus := runStatus st; output := output st;
     runError := runError st |}.

Definition setError (v : option jsstring) (st : State) : State :=
  {| status := status st; currentStep := currentStep st;
     progressMsg := progressMsg st;
     file := file st; result := result st; error := v;
     pyodide := pyodide st; runStatus := runStatus st; output := output st;
     runError := runError st |}.

Definition setPyodide (v : bool) (st : State) : State :=
  {| status := status st; currentStep := currentStep st;
     progressMsg := progressMsg st;
     file := file st; result := result st; error := error st;
     pyodide := v; runStatus := runStatus st; output := output st;
     runError := runError st |}.

Definition setRunStatus (v : RunStatus) (st : State) : State :=
  {| status := status st; currentStep := currentStep st;
     progressMsg := progressMsg st;
     file := file st; result := result st; error := error st;
     pyodide := pyodide st; runStatus := v; output := output st;
     runError := runError st |}.

Definition setOutput (v : jsstring) (st : State) : State :=
  {| status := status st; currentStep := currentStep st;
     progressMsg := progressMsg st;
     file := file st; result := result st; error := error st;
     pyodide := pyodide st; runStatus := runStatus st; output := v;
     runError := runError st |}.

Definition setRunError (v : option jsstring) (st : State) : State :=
  {| status := status st; currentStep := currentStep st;
     progressMsg := progressMsg st;
     file := file st; result := result st; error := error st;
     pyodide := pyodide st; runStatus := runStatus st; output := output st;
     runError := v |}.

(** ** [handleFileUpload] *)

(** The file the user picked: its name, its type, and its bytes in base64,
    which is how [FileReader.readAsDataURL] hands them over. *)
Record SelectedFile : Type := mkSelected {
  fileName : jsstring;
  fileType : jsstring;
  contents64 : jsstring
}.

(** [reader.result] after [readAsDataURL]: a [data:] URL. *)
Definition readAsDataURL (f : SelectedFile) : jsstring :=
  u "data:" ++ fileType f ++ u ";base64," ++ contents64 f.

(** [files] is [None] when [e.target.files] holds no file.  The second piece
    of the URL always exists (see [dataURL_has_payload]); the default of
    [nth] is never taken. *)
Definition handleFileUpload (files : option SelectedFile) (st : State) : State :=
  match files with
  | None => st
  | Some selectedFile =>
      if negb (JsString.eqb (fileType selectedFile) (u "application/pdf"))
      then setError (Some (u "Please upload a valid PDF file.")) st
      else
        setFile (Some {| name := fileName selectedFile;
                         base64 := nth 1 (split (u ",") (readAsDataURL selectedFile)) [];
                         mimeType := fileType selectedFile |})
          (setError None st)
  end.

(** ** [startAnalysis] *)

(** The remote endpoint follows [sc]; the callback stores every notice. *)
Definition startAnalysis (sc : nat -> Outcome) (st : State) : State :=
  match file st with
  | None => st
  | Some f =>
      let st1 := setCurrentStep StepSummary (setStatus PROCESSING st) in
      let (r, w) := run (generateAnalysis (base64 f) (mimeType f)) sc in
      let st2 := fold_left (fun s msg => setProgressMsg msg s)
                   (progressOf (trace w)) st1 in
      match r with
      | Ok analysis => setStatus COMPLETE (setResult (Some analysis) st2)
      | Throw _ =>
          setStatus ERROR
            (setError
               (Some (u "Analysis failed. Please try again or check your API key."))
               st2)
      end
  end.

(** ** The navigation of [Layout] *)

Definition isDisabled (st : State) (id : AnalysisStep) : bool :=
  match status st, id with
  | IDLE, StepUpload => false
  | IDLE, _ => true
  | _, _ => false
  end.

(** [onClick={() => !isDisabled && setStep(item.id)}]. *)
Definition navigate (id : AnalysisStep) (st : State) : State :=
  if isDisabled st id then st else setCurrentStep id st.

(** ** [runExperiment] *)

(** What is read of a caught error: [err.message] and [err.toString()]. *)
Record PyError : Type := mkPyError {
  message : option jsstring;
  toString : jsstring
}.

(** [new Error(msg)]. *)
Definition newError (msg : jsstring) : PyError :=
  {| message := Some msg; toString := u "Error: " ++ msg |}.

(** The runtime during one run: whether the loader script is there, how
    loading the runtime and the packages end ([None]: well), what the program
    prints before [runPythonAsync] settles (with [true] for the error stream),
    and how it settles. *)
Record PyEnv : Type := mkPyEnv {
  loaderDefined : bool;
  loadPyodide : option PyError;
  loadPackage : option PyError;
  printed : list (bool * jsstring);
  runPythonAsync : option PyError
}.

(** [err.message || err.toString()]. *)
Definition errorText (err : PyError) : jsstring :=
  match message err with
  | Some ((_ :: _) as m) => m
  | _ => toString err
  end.

(** The message shown for a failed run. *)
Definition extractMessage (msg : jsstring) : jsstring :=
  if includes msg (u "PythonError:")
  then trim (nth 1 (split (u "PythonError:") msg) [])
  else msg.

Definition logLine (p : bool * jsstring) : jsstring :=
  if fst p then u "[stderr] " ++ snd p else snd p.

(** The [catch] block, with the lines captured so far. *)
Definition runFailed (logs : list jsstring) (err : PyError) (st : State) : State :=
  let st' := match logs with
             | [] => st
             | _ :: _ => setOutput (join LF logs) st
             end in
  setRunStatus RunERROR (setRunError (Some (extractMessage (errorText err))) st').

(** From [setRunStatus('RUNNING')] on. *)
Definition runLoaded (env : PyEnv) (st : State) : State :=
  let st1 := setRunStatus RunRUNNING st in
  match loadPackage env with
  | Some err => runFailed [] err st1
  | None =>
      match runPythonAsync env with
      | Some err => runFailed (List.map logLine (printed env)) err st1
      | None =>
          setRunStatus RunSUCCESS
            (setOutput (join LF (List.map logLine (printed env))) st1)
      end
  end.

Definition runExperiment (env : PyEnv) (st : State) : State :=
  match result st with
  | None => st
  | Some r =>
      match pythonCode r with
      | [] => st
      | _ :: _ =>
          let st0 := setOutput [] (setRunError None (setRunStatus RunLOADING st)) in
          if pyodide st then runLoaded env st0
          else if negb (loaderDefined env)
          then runFailed []
                 (newError (u "Pyodide script not loaded. Please check internet connection."))
                 st0
          else match loadPyodide env with
               | Some err => runFailed [] err st0
               | None => runLoaded env (setPyodide true st0)
               end
      end
  end.

(** ** [renderContent] *)

(** The run controls of the code page. *)
Record RunPanel : Type := mkRunPanel {
  runDisabled : bool;
  runLabel : jsstring;
  errorAlert : option jsstring;
  outputPanel : option jsstring
}.

Inductive View : Type :=
| Processing (msg : jsstring)
| UploadPage (picked : option jsstring) (alert : option jsstring)
             (analyzeDisabled : bool)
| Nothing
| MarkdownPage (heading : jsstring) (content : option (list Markdown.Block))
| CodePage (code : jsstring) (panel : RunPanel) (interpretation : jsstring)
| SlidesPage (deck : Json.value)
| ValidationPage (v : ValidationView) (content : option (list Markdown.Block)).

(** [x && ...] for a string or [null]. *)
Definition truthy (x : option jsstring) : option jsstring :=
  match x with
  | Some ((_ :: _) as s) => Some s
  | _ => None
  end.

Definition runPanel (st : State) : RunPanel :=
  {| runDisabled :=
       match runStatus st with RunLOADING | RunRUNNING => true | _ => false end;
     runLabel :=
       match runStatus st with
       | RunLOADING => u "Loading Pyodide..."
       | RunRUNNING => u "Running..."
       | _ => u "Run Experiment"
       end;
     errorAlert :=
       match runStatus st with
       | RunERROR => truthy (runError st)
       | _ => None
       end;
     outputPanel :=
       match runStatus st, output st with
       | RunSUCCESS, [] => Some (u "No text output produced.")
       | RunSUCCESS, _ :: _ => Some (output st)
       | RunERROR, _ :: _ => Some (output st)
       | _, _ => None
       end |}.

Definition renderContent (st : State) : View :=
  match status st with
  | PROCESSING => Processing (progressMsg st)
  | _ =>
      match currentStep st with
      | StepUpload =>
          UploadPage (option_map name (file st)) (truthy (error st))
            (match file st with None => true | Some _ => false end)
      | step =>
          match result st with
          | None => Nothing
          | Some r =>
              match step with
              | StepUpload => Nothing
              | StepSummary =>
                  MarkdownPage (u "Research Summary")
                    (Markdown.formatText (summary r))
              | StepCritique =>
                  MarkdownPage (u "Critical Analysis")
                    (Markdown.formatText (critique r))
              | StepExperiment =>
                  MarkdownPage (u "Experimental Design")
                    (Markdown.formatText (experimentPlan r))
              | StepCode =>
                  CodePage (pythonCode r) (runPanel st)
                    (experimentInterpretation r)
              | StepSlides => SlidesPage (slides r)
              | StepValidation =>
                  ValidationPage (validationView (validationReport r))
                    (Markdown.formatText (validationReport r))
              end
          end
      end
  end.

(** ** What the user does *)

Inductive Action : Type :=
| Upload (files : option SelectedFile)
| Analyze (sc : nat -> Outcome)
| Navigate (id : AnalysisStep)
| RunCode (env : PyEnv).

Definition act (st : State) (a : Action) : State :=
  match a with
  | Upload files => handleFileUpload files st
  | Analyze sc => startAnalysis sc st
  | Navigate id => navigate id st
  | RunCode env => runExperiment env st
  end.

(** The state after the actions, oldest first, from the initial one. *)
Definition after (actions : list Action) : State := fold_left act actions initial.

(** ** Readings of a run of the experiment *)

Definition settled (r : option PyError) : bool :=
  match r with
  | None => true
  | Some _ => false
  end.

(** The runtime is at hand: kept from an earlier run, or loaded now. *)
Definition runtimeReady (env : PyEnv) (st : State) : bool :=
  pyodide st || (loaderDefined env && settled (loadPyodide env)).

(** The lines the run captures: what is printed once the streams have been
    redirected. *)
Definition captured (env : PyEnv) (st : State) : list jsstring :=
  if runtimeReady env st && settled (loadPackage env)
  then List.map logLine (printed env)
  else [].

Definition runSucceeds (env : PyEnv) (st : State) : bool :=
  runtimeReady env st && settled (loadPackage env)
  && settled (runPythonAsync env).

End App.

(** ** Sample inputs *)

Definition pickedPdf : App.SelectedFile :=
  {| App.fileName := u "paper.pdf"; App.fileType := pdf;
     App.contents64 := paper |}.

Definition pickedImage : App.SelectedFile :=
  {| App.fileName := u "scan.png"; App.fileType := u "image/png";
     App.contents64 := u "iVBORw0KGgo=" |}.


Definition answering : nat -> Outcome :=
  fun _ => Resolve {| text := Some (u "ok") |}.

Definition twoSlides : list SlideData :=
  [ {| title := u "Motivation"; bullets := [u "Why"] |};
    {| title := u "Results"; bullets := [u "What"] |} ].

(** A program that prints one line on each stream and then raises. *)
Definition raising : App.PyEnv :=
  {| App.loaderDefined := true; App.loadPyodide := None;
     App.loadPackage := None;
     App.printed := [(false, u "epoch 1"); (true, u "warning")];
     App.runPythonAsync :=
       Some {| App.message :=
                 Some (u "Traceback PythonError: ZeroDivisionError: division by zero ");
               App.toString := u "PythonError" |} |}.

(* ================================================================== *)
(** * Properties of the string operations *)
(* ================================================================== *)

Arguments u : simpl never.

Section StringFacts.

Lemma eqb_char_eq (a b : jschar) : eqb_char a b = true <-> a = b.
Proof. apply N.eqb_eq. Qed.

Lemma startsWith_spec (p s : jsstring) :
  startsWith s p = true <-> exists r, s = p ++ r.
Proof.
  revert s; induction p as [|y p IH]; intros s; simpl.
  - split; [exists s; reflexivity | destruct s; reflexivity].
  - destruct s as [|x s]; simpl.
    + split; [discriminate | intros [r Hr]; discriminate].
    + rewrite andb_true_iff, eqb_char_eq, IH. split.
      * intros [-> [r ->]]. exists r; reflexivity.
      * intros [r Hr]. injection Hr as -> ->. split; [reflexivity | eauto].
Qed.

Lemma startsWith_app (p r : jsstring) : startsWith (p ++ r) p = true.
Proof. apply startsWith_spec; eauto. Qed.

(** [includes] is the search for a contiguous occurrence. *)
Lemma includes_spec (needle s : jsstring) :
  includes s needle = true <-> exists a b, s = a ++ needle ++ b.
Proof.
  induction s as [|x s IH]; cbn [includes].
  - rewrite orb_false_r, startsWith_spec. split.
    + intros [r Hr]. exists [], r. exact Hr.
    + intros (a & b & H). destruct a as [|? a]; [eauto | discriminate].
  - rewrite orb_true_iff, IH. split.
    + intros [H | (a & b & ->)].
      * apply (startsWith_spec needle (x :: s)) in H. destruct H as [r Hr].
        exists [], r. exact Hr.
      * exists (x :: a), b. reflexivity.
    + intros (a & b & H). destruct a as [|y a].
      * left. apply (startsWith_spec needle (x :: s)). exists b. exact H.
      * right. injection H as _ ->. eauto.
Qed.

End StringFacts.

(* ================================================================== *)
(** * [JSON.parse] on sample texts *)
(* ================================================================== *)

(** A slide deck as the model returns it. *)
Lemma parse_slide_deck :
  Json.parse (u "[ {" ++ dq ++ u "title" ++ dq ++ u ": " ++ dq ++ u "Core Idea" ++ dq
              ++ u ", " ++ dq ++ u "bullets" ++ dq ++ u ": [" ++ dq ++ u "a\tb" ++ dq
              ++ u ", " ++ dq ++ u "\u00e9" ++ dq ++ u "]} ]" ++ LF)
  = Some (JArray [slideValue {| title := u "Core Idea";
                                bullets := [u "a" ++ [9%N] ++ u "b"; [233%N]] |}]).
Proof. vm_compute. reflexivity. Qed.

Lemma parse_values :
  Json.parse (u "[]") = Some (JArray [])
  /\ Json.parse (u " [1, -2.5e+3, true, false, null, {}, [[]]] ")
     = Some (JArray [JNumber (u "1"); JNumber (u "-2.5e+3"); JBool true;
                     JBool false; JNull; JObject []; JArray [JArray []]]).
Proof. split; vm_compute; reflexivity. Qed.

(** Texts on which [JSON.parse] throws. *)
Lemma parse_rejects :
  Forall (fun text => Json.parse text = None)
    [u ""; u "Sorry, no slides."; u "[1,]"; u "[1 2]"; u "01"; u "1."; u "-";
     u "{a:1}"; u "nul"; u "[] x"; u "[" ++ dq ++ u "a"; u "```json"].
Proof. repeat constructor. Qed.

(** [cleanJson] frees a fenced answer for the parser. *)
Lemma cleanJson_fenced :
  cleanJson (u "```json" ++ LF ++ u "[]" ++ LF ++ u "```") = u "[]".
Proof. vm_compute. reflexivity. Qed.

(* ================================================================== *)
(** * The validation view *)
(* ================================================================== *)

(** C4, as stated, fails: a report other than the sentinel sentence is
    shown as passed as soon as it contains the words "consistent and
    grounded". *)
Lemma validation_view_other_text_passes :
  let report := u "The critique is not consistent and grounded in the paper." in
  report <> sentinel
  /\ heading (validationView report) = u "Validation Passed"
  /\ icon (validationView report) = CheckCircle2.
Proof.
  cbv zeta. split; [|split]; vm_compute; congruence.
Qed.

(** C4, amended: the validation view shows "Validation Passed" exactly for
    the reports that contain "consistent and grounded" somewhere, the
    sentinel sentence among them, and "Issues Detected" for every report
    that does not contain it. *)
Theorem validation_view_substring (report : jsstring) :
  heading (validationView sentinel) = u "Validation Passed"
  /\ (heading (validationView report) = u "Validation Passed"
      <-> exists a b, report = a ++ u "consistent and grounded" ++ b)
  /\ (heading (validationView report) = u "Issues Detected"
      <-> ~ exists a b, report = a ++ u "consistent and grounded" ++ b)
  /\ (icon (validationView report) = CheckCircle2
      <-> heading (validationView report) = u "Validation Passed").
Proof.
  split; [vm_compute; reflexivity|].
  rewrite <- includes_spec. unfold validationView; simpl.
  destruct (includes report (u "consistent and grounded"));
    (split; [|split]); split; intros H;
    try reflexivity; try discriminate;
    try (vm_compute in H; discriminate);
    try (exfalso; apply H; reflexivity);
    try (intro; discriminate).
Qed.

(* ================================================================== *)
(** * [cleanCode] *)
(* ================================================================== *)

Section CleanCodeFacts.

Lemma spaces_app (a b : jsstring) : spaces a -> spaces b -> spaces (a ++ b).
Proof. unfold spaces. rewrite forallb_app. intros -> ->. reflexivity. Qed.

Lemma spaces_noBacktick (ws : jsstring) : spaces ws -> noBacktick ws.
Proof.
  unfold spaces, noBacktick. induction ws as [|c ws IH]; simpl; [reflexivity|].
  rewrite !andb_true_iff. intros [Hc Hws]. split; [|auto].
  unfold eqb_char, backtick. destruct (N.eqb_spec c 96) as [->|]; [|reflexivity].
  vm_compute in Hc. discriminate.
Qed.

Lemma noBacktick_app (a b : jsstring) :
  noBacktick a -> noBacktick b -> noBacktick (a ++ b).
Proof. unfold noBacktick. rewrite forallb_app. intros -> ->. reflexivity. Qed.

Lemma dropSpaces_spaces (ws s : jsstring) :
  spaces ws -> dropSpaces (ws ++ s) = dropSpaces s.
Proof.
  unfold spaces. induction ws as [|c ws IH]; simpl; [reflexivity|].
  rewrite andb_true_iff. intros [-> H]. auto.
Qed.

Lemma dropSpaces_all (ws : jsstring) : spaces ws -> dropSpaces ws = [].
Proof.
  intros H. rewrite <- (app_nil_r ws). rewrite dropSpaces_spaces; auto.
Qed.

Lemma dropSpaces_length (s : jsstring) :
  (List.length (dropSpaces s) <= List.length s)%nat.
Proof.
  induction s as [|c s IH]; simpl; [lia|]. destruct (is_space c); simpl; lia.
Qed.

Lemma dropSpaces_head (c : jschar) (s : jsstring) :
  is_space c = false -> dropSpaces (c :: s) = c :: s.
Proof. simpl. intros ->. reflexivity. Qed.

Lemma dropSpaces_app_head (c : jschar) (s r : jsstring) :
  is_space c = false -> dropSpaces ((c :: s) ++ r) = (c :: s) ++ r.
Proof. simpl. intros ->. reflexivity. Qed.

(** A non-empty string that [trim] leaves alone starts and ends with a
    character that is not white space. *)
Lemma trim_fixed_head (body : jsstring) :
  trim body = body -> body <> [] ->
  exists c b, body = c :: b /\ is_space c = false.
Proof.
  intros Ht Hne. destruct body as [|c b]; [congruence|].
  exists c, b. split; [reflexivity|].
  destruct (is_space c) eqn:Hc; [exfalso|reflexivity].
  assert (L : (List.length (trim (c :: b)) <= List.length b)%nat).
  { unfold trim. rewrite length_rev.
    etransitivity; [apply dropSpaces_length|]. rewrite length_rev.
    simpl. rewrite Hc. apply dropSpaces_length. }
  rewrite Ht in L. simpl in L. lia.
Qed.

Lemma trim_fixed_last (body : jsstring) :
  trim body = body -> body <> [] ->
  exists c b, rev body = c :: b /\ is_space c = false.
Proof.
  intros Ht Hne. destruct (trim_fixed_head Ht Hne) as (c0 & b0 & Hb & Hc0).
  destruct (rev body) as [|c b] eqn:Hr.
  { apply (f_equal (@rev _)) in Hr. rewrite rev_involutive in Hr.
    simpl in Hr. congruence. }
  exists c, b. split; [reflexivity|].
  destruct (is_space c) eqn:Hc; [exfalso|reflexivity].
  assert (L : (List.length (trim body) <= List.length b)%nat).
  { unfold trim. rewrite length_rev.
    rewrite Hb, dropSpaces_head, <- Hb, Hr by assumption.
    simpl. rewrite Hc. apply dropSpaces_length. }
  rewrite Ht in L. rewrite <- (length_rev body), Hr in L. simpl in L. lia.
Qed.

(** White space around a trimmed text is what [trim] removes. *)
Lemma trim_padded (ws1 body ws2 : jsstring) :
  spaces ws1 -> spaces ws2 -> trim body = body -> body <> [] ->
  trim (ws1 ++ body ++ ws2) = body.
Proof.
  intros H1 H2 Ht Hne.
  destruct (trim_fixed_head Ht Hne) as (c & b & Hb & Hc).
  destruct (trim_fixed_last Ht Hne) as (c' & b' & Hb' & Hc').
  unfold trim. rewrite dropSpaces_spaces by assumption.
  rewrite Hb, dropSpaces_app_head, <- Hb by assumption.
  rewrite rev_app_distr, dropSpaces_spaces.
  - rewrite Hb', dropSpaces_head, <- Hb' by assumption. apply rev_involutive.
  - unfold spaces in *. rewrite forallb_forall in *.
    intros x Hx. apply H2. apply in_rev. exact Hx.
Qed.

Lemma skipn_length_app (a b : jsstring) : skipn (List.length a) (a ++ b) = b.
Proof. induction a; simpl; auto. Qed.

Lemma replaceTrailing_eq (lit s : jsstring) :
  replaceTrailing lit s =
  if startsWith s lit && forallb is_space (skipn (List.length lit) s)
  then []
  else match s with
       | [] => []
       | c :: s' => c :: replaceTrailing lit s'
       end.
Proof. destruct s; reflexivity. Qed.

Lemma startsWith_fence_head (c : jschar) (s : jsstring) :
  eqb_char c backtick = false -> startsWith (c :: s) fence = false.
Proof.
  intros H. change fence with [backtick; backtick; backtick].
  cbn [startsWith]. rewrite H. reflexivity.
Qed.

(** The trailing replacement removes the fence and the white space after
    it, and nothing else, when no backtick comes before. *)
Lemma replaceTrailing_fence (pre ws : jsstring) :
  noBacktick pre -> spaces ws -> replaceTrailing fence (pre ++ fence ++ ws) = pre.
Proof.
  unfold noBacktick. intros Hpre Hws.
  induction pre as [|c pre IH].
  - rewrite app_nil_l, replaceTrailing_eq, startsWith_app, skipn_length_app.
    rewrite Hws. reflexivity.
  - simpl in Hpre. rewrite andb_true_iff, negb_true_iff in Hpre.
    destruct Hpre as [Hc Hpre].
    rewrite <- app_comm_cons, replaceTrailing_eq.
    rewrite startsWith_fence_head by assumption.
    rewrite andb_false_l, IH by assumption. reflexivity.
Qed.

Lemma replaceTrailing_none (pre : jsstring) :
  noBacktick pre -> replaceTrailing fence pre = pre.
Proof.
  unfold noBacktick. induction pre as [|c pre IH]; intros Hpre.
  - reflexivity.
  - simpl in Hpre. rewrite andb_true_iff, negb_true_iff in Hpre.
    destruct Hpre as [Hc Hpre].
    rewrite replaceTrailing_eq, startsWith_fence_head by assumption.
    rewrite andb_false_l, IH by assumption. reflexivity.
Qed.

Lemma replaceTrailing_trailingFence (pre trail : jsstring) :
  noBacktick pre -> trailingFence trail ->
  replaceTrailing fence (pre ++ trail) = pre.
Proof.
  intros Hpre [|ws Hws].
  - rewrite app_nil_r. apply replaceTrailing_none; assumption.
  - apply replaceTrailing_fence; assumption.
Qed.

Lemma startsWith_ci_app (s p r : jsstring) :
  startsWith_ci s p = true -> startsWith_ci (s ++ r) p = true.
Proof.
  revert s; induction p as [|y p IH]; intros s; simpl; [reflexivity|].
  destruct s as [|x s]; simpl; [discriminate|].
  rewrite !andb_true_iff. intros [-> H]. auto.
Qed.

Lemma replaceLeading_unfenced (ci : bool) (lit s : jsstring) :
  headNotBacktick s -> replaceLeading ci (backtick :: lit) s = s.
Proof.
  unfold replaceLeading. destruct s as [|x s]; simpl.
  - destruct ci; reflexivity.
  - intros H. unfold eqb_char_ci. change (isAsciiLetter backtick) with false.
    cbv iota. rewrite H. destruct ci; reflexivity.
Qed.

Lemma headNotBacktick_padded (ws : jsstring) (c : jschar) (r : jsstring) :
  spaces ws -> eqb_char c backtick = false -> headNotBacktick (ws ++ c :: r).
Proof.
  intros Hws Hc. destruct ws as [|x ws]; simpl; [assumption|].
  apply spaces_noBacktick in Hws. unfold noBacktick in Hws. simpl in Hws.
  rewrite andb_true_iff, negb_true_iff in Hws. tauto.
Qed.

(** The two leading replacements remove the leading fence, tagged or
    generic, and the white space after it. *)
Lemma replaceLeading_leadingFence (lead ws1 : jsstring) (c : jschar)
    (rest : jsstring) :
  leadingFence lead -> spaces ws1 ->
  is_space c = false -> eqb_char c backtick = false ->
  (lead = fence ->
   startsWith_ci (lead ++ ws1 ++ c :: rest) (u "```python") = false) ->
  exists ws0, spaces ws0 /\
    replaceLeading false fence
      (replaceLeading true (u "```python") (lead ++ ws1 ++ c :: rest))
    = ws0 ++ c :: rest.
Proof.
  intros Hlead Hws Hsp Hbt Hgen. destruct Hlead as [| |tag Hlen Htag].
  - exists ws1. split; [assumption|]. rewrite app_nil_l.
    change (u "```python") with (backtick :: u "``python").
    change fence with (backtick :: u "``").
    rewrite (@replaceLeading_unfenced true)
      by (apply headNotBacktick_padded; assumption).
    rewrite (@replaceLeading_unfenced false)
      by (apply headNotBacktick_padded; assumption).
    reflexivity.
  - exists []. split; [reflexivity|].
    unfold replaceLeading at 2. rewrite (Hgen eq_refl).
    unfold replaceLeading. rewrite startsWith_app, skipn_length_app.
    rewrite dropSpaces_spaces by assumption. apply dropSpaces_head; assumption.
  - exists []. split; [reflexivity|].
    unfold replaceLeading at 2. rewrite startsWith_ci_app by assumption.
    change (List.length (u "```python")) with 9%nat. rewrite <- Hlen.
    rewrite skipn_length_app, dropSpaces_spaces by assumption.
    rewrite dropSpaces_head by assumption.
    change fence with (backtick :: u "``").
    apply replaceLeading_unfenced. exact Hbt.
Qed.

End CleanCodeFacts.

(** C9: on the fenced example [cleanCode] returns exactly [print(1)], with
    no fence marker and no language tag left; in general, for a trimmed text
    without backticks wrapped in an optional leading fence (tagged [python] in
    any letter case, else generic), white space and an optional trailing
    generic fence, [cleanCode] returns the text itself. *)
Theorem cleanCode_strips_fences :
  (cleanCode (u "```python" ++ LF ++ u "print(1)" ++ LF ++ u "```") = u "print(1)"
   /\ includes (cleanCode (u "```python" ++ LF ++ u "print(1)" ++ LF ++ u "```"))
        fence = false
   /\ includes (cleanCode (u "```python" ++ LF ++ u "print(1)" ++ LF ++ u "```"))
        (u "python") = false)
  /\ forall lead ws1 body ws2 trail : jsstring,
      leadingFence lead -> trailingFence trail ->
      spaces ws1 -> spaces ws2 ->
      noBacktick body -> trim body = body -> body <> [] ->
      (lead = fence ->
       startsWith_ci (lead ++ ws1 ++ body ++ ws2 ++ trail) (u "```python") = false) ->
      cleanCode (lead ++ ws1 ++ body ++ ws2 ++ trail) = body.
Proof.
  split; [repeat split; vm_compute; reflexivity|].
  intros lead ws1 body ws2 trail Hlead Htrail H1 H2 Hbt Htrim Hne Hgen.
  destruct (trim_fixed_head Htrim Hne) as (c & b & Hb & Hc).
  assert (Hcb : eqb_char c backtick = false).
  { unfold noBacktick in Hbt. rewrite Hb in Hbt. simpl in Hbt.
    rewrite andb_true_iff, negb_true_iff in Hbt. tauto. }
  unfold cleanCode.
  assert (E : body ++ ws2 ++ trail = c :: (b ++ ws2 ++ trail))
    by (rewrite Hb; reflexivity).
  rewrite E in *.
  destruct (@replaceLeading_leadingFence lead ws1 c (b ++ ws2 ++ trail))
    as (ws0 & H0 & ->); try assumption.
  rewrite <- E.
  replace (ws0 ++ body ++ ws2 ++ trail) with ((ws0 ++ body ++ ws2) ++ trail)
    by (rewrite <- !app_assoc; reflexivity).
  rewrite replaceTrailing_trailingFence; try assumption.
  - apply trim_padded; assumption.
  - repeat apply noBacktick_app; auto using spaces_noBacktick.
Qed.

(** The fenced example of C9 as an instance of the general statement. *)
Lemma cleanCode_strips_fences_witness :
  cleanCode (u "```python" ++ LF ++ u "print(1)" ++ LF ++ fence ++ [])
  = u "print(1)".
Proof.
  apply (proj2 cleanCode_strips_fences (u "```python") LF (u "print(1)") LF
           (fence ++ [])).
  - apply lead_python; reflexivity.
  - apply trail_generic. reflexivity.
  - reflexivity.
  - reflexivity.
  - reflexivity.
  - reflexivity.
  - discriminate.
  - discriminate.
Defined.

(* ================================================================== *)
(** * The retry wrapper *)
(* ================================================================== *)

Section RetryFacts.

Variable params : Params.
Variable retries : nat.

Lemma advance_advance (w : World) (n n' : nat) (t t' : list Event) :
  advance (advance w n t) n' t' = advance w (n + n') (t ++ t').
Proof.
  unfold advance; simpl. rewrite Nat.add_assoc, app_assoc. reflexivity.
Qed.

Lemma advance_0_nil (w : World) : advance w 0 [] = w.
Proof.
  destruct w; unfold advance; simpl. rewrite Nat.add_0_r, app_nil_r.
  reflexivity.
Qed.

Lemma scripted_head (sc : nat -> Outcome) (from : nat) (o : Outcome)
    (os : list Outcome) :
  scripted sc from (o :: os) -> sc from = o.
Proof. intros H. rewrite <- (H 0%nat o eq_refl). f_equal. lia. Qed.

Lemma scripted_tail (sc : nat -> Outcome) (from : nat) (o : Outcome)
    (os : list Outcome) :
  scripted sc from (o :: os) -> scripted sc (from + 1) os.
Proof.
  intros H j o' Hj. rewrite <- (H (S j) o' Hj). f_equal. lia.
Qed.

Lemma messageIncludes_spec (error : JsError) (s : jsstring) :
  s <> [] ->
  (messageIncludes (message error) s = true <-> messageContains error s).
Proof.
  intros Hs. unfold messageIncludes, messageContains.
  destruct (message error) as [[|c m]|].
  - split; [discriminate|]. intros (m & a & b & Hm & E).
    injection Hm as <-. destruct a; [destruct s|]; simpl in E; congruence.
  - rewrite includes_spec. split.
    + intros (a & b & E). exists (c :: m), a, b. auto.
    + intros (m' & a & b & Hm & E). injection Hm as <-. eauto.
  - split; [discriminate|]. intros (m & a & b & Hm & _). discriminate.
Qed.

(** The classification is the disjunction of the four tests. *)
Lemma isRateLimit_spec (error : JsError) :
  rateLimited error <->
  status error = Some 429%Z \/ code error = Some 429%Z
  \/ messageContains error (u "429")
  \/ messageContains error (u "RESOURCE_EXHAUSTED").
Proof.
  unfold rateLimited, isRateLimit.
  rewrite !orb_true_iff, !messageIncludes_spec by discriminate.
  assert (O : forall o : option Z,
             match o with Some n => (n =? 429)%Z | None => false end = true
             <-> o = Some 429%Z).
  { intros [n|]; [rewrite Z.eqb_eq|]; split; congruence. }
  rewrite !O. tauto.
Qed.

(** ** One iteration of the loop *)

Lemma retryLoop_done (i : nat) (d : Q) (w : World) :
  retryLoop params retries 0 i d w = (Throw quotaExhausted, w).
Proof. reflexivity. Qed.

Lemma retryLoop_resolve (n i : nat) (d : Q) (w : World) resp :
  script w (calls w) = Resolve resp ->
  retryLoop params retries (S n) i d w
  = (Ok resp, advance w 1 [EGenerate params (Resolve resp)]).
Proof.
  intros H. cbn [retryLoop]. unfold bind, try_, generateContent.
  rewrite H. reflexivity.
Qed.

Lemma retryLoop_retry (n i : nat) (d : Q) (w : World) error :
  script w (calls w) = Reject error ->
  rateLimited error -> (Z.of_nat i < Z.of_nat retries - 1)%Z ->
  retryLoop params retries (S n) i d w
  = retryLoop params retries n (S i) (d * (3 # 2))
      (advance w 1 [EGenerate params (Reject error);
                    EWarn (i + 1) retries d; EDelay d]).
Proof.
  intros H Hr Hi. apply Z.ltb_lt in Hi.
  cbn [retryLoop]. unfold bind at 1, try_, generateContent.
  rewrite H. cbv zeta. rewrite Hr, Hi. cbn [andb].
  unfold bind, delay, emit. rewrite !advance_advance. reflexivity.
Qed.

Lemma retryLoop_throw (n i : nat) (d : Q) (w : World) error :
  script w (calls w) = Reject error ->
  isRateLimit error = false \/ (Z.of_nat retries - 1 <= Z.of_nat i)%Z ->
  retryLoop params retries (S n) i d w
  = (Throw error, advance w 1 [EGenerate params (Reject error)]).
Proof.
  intros H Hc.
  assert (C : isRateLimit error && (Z.of_nat i <? Z.of_nat retries - 1)%Z = false).
  { destruct Hc as [-> | Hc]; [reflexivity|].
    apply Z.ltb_ge in Hc. rewrite Hc. apply andb_false_r. }
  cbn [retryLoop]. unfold bind at 1, try_, generateContent.
  rewrite H. cbv zeta. rewrite C. reflexivity.
Qed.

(** ** A run of rate-limited attempts *)

Lemma retryLoop_rate_limited (errors : list JsError) :
  forall (n i : nat) (d : Q) (w : World),
    scripted (script w) (calls w) (List.map Reject errors) ->
    Forall rateLimited errors ->
    (Z.of_nat (i + List.length errors) <= Z.of_nat retries - 1)%Z ->
    retryLoop params retries (List.length errors + n) i d w
    = retryLoop params retries n (i + List.length errors)
        (backoff d (List.length errors))
        (advance w (List.length errors) (retryTrace params retries i d errors)).
Proof.
  induction errors as [|e errors IH]; intros n i d w Hsc Hrl Hi.
  - simpl. rewrite Nat.add_0_r, advance_0_nil. reflexivity.
  - simpl List.length in *. simpl map in Hsc.
    inversion Hrl as [|? ? He Hrl']; subst.
    cbn [Nat.add]. rewrite (@retryLoop_retry _ _ _ _ e).
    + rewrite IH.
      * rewrite advance_advance. cbn [retryTrace backoff app].
        replace (S i + List.length errors)%nat
          with (i + S (List.length errors))%nat by lia.
        reflexivity.
      * apply scripted_tail in Hsc. exact Hsc.
      * assumption.
      * lia.
    + apply (scripted_head Hsc).
    + assumption.
    + lia.
Qed.

End RetryFacts.

Section RetryTheorems.

Variable params : Params.

Lemma scripted_app_l (sc : nat -> Outcome) (from : nat) (os os' : list Outcome) :
  scripted sc from (os ++ os') -> scripted sc from os.
Proof.
  intros H j o Hj. apply H. rewrite nth_error_app1; [assumption|].
  apply nth_error_Some. congruence.
Qed.

Lemma scripted_app_r (sc : nat -> Outcome) (from : nat) (os : list Outcome)
    (o : Outcome) :
  scripted sc from (os ++ [o]) -> sc (from + List.length os)%nat = o.
Proof.
  intros H. apply H. rewrite nth_error_app2, Nat.sub_diag by lia. reflexivity.
Qed.

(** After [length errors] rate-limited attempts the loop makes one more
    call, and that call settles the wrapper whenever it resolves, is not
    rate-limited, or is the last attempt allowed. *)
Lemma generateWithRetry_settles (retries : nat) (initialDelay : Q) (w : World)
    (errors : list JsError) (last : Outcome) :
  (List.length errors < retries)%nat ->
  scripted (script w) (calls w) (List.map Reject errors ++ [last]) ->
  Forall rateLimited errors ->
  (forall e, last = Reject e ->
             isRateLimit e = false \/ S (List.length errors) = retries) ->
  generateWithRetry params retries initialDelay w
  = (resultOf last,
     advance w (List.length errors + 1)
       (retryTrace params retries 0 initialDelay errors
        ++ [EGenerate params last])).
Proof.
  intros Hlen Hsc Hrl Hlast. unfold generateWithRetry.
  replace retries with (List.length errors + S (retries - S (List.length errors)))%nat
    at 2 by lia.
  rewrite retryLoop_rate_limited;
    [| eapply scripted_app_l; eassumption | assumption | lia].
  apply scripted_app_r in Hsc. rewrite length_map in Hsc.
  rewrite <- advance_advance. destruct last as [resp | e]; simpl resultOf.
  - apply retryLoop_resolve. exact Hsc.
  - apply retryLoop_throw; [exact Hsc|].
    destruct (Hlast e eq_refl) as [H | H]; [left; exact H | right; lia].
Qed.

Lemma backoff_power (k : nat) : forall d : Q,
  backoff d k == d * (3 # 2) ^ Z.of_nat k.
Proof.
  induction k as [|k IH]; intros d.
  - simpl. ring.
  - cbn [backoff]. rewrite IH, Nat2Z.inj_succ. unfold Z.succ.
    rewrite Qpower_plus by discriminate. rewrite Qpower_1_r. ring.
Qed.

(** The delays of the default wrapper are dyadic numbers with a numerator
    far below 2^53: [currentDelay *= 1.5] loses nothing in binary64, and
    the rationals of the embedding are the values the program computes. *)
Lemma backoff_binary64_exact (k : nat) :
  (k <= 9)%nat ->
  exists m : Z, (0 < m < 2 ^ 53)%Z /\ backoff 10000 k == m # (2 ^ Pos.of_nat 9).
Proof.
  intros H.
  exists (10000 * 3 ^ Z.of_nat k * 2 ^ (9 - Z.of_nat k))%Z.
  assert (C : In k (seq 0 10)) by (apply in_seq; lia).
  simpl in C.
  repeat (destruct C as [<- | C];
          [ split; [split|]; vm_compute; reflexivity |]).
  destruct C.
Qed.

Lemma delayBefore_retryTrace (retries : nat) (o : Outcome) (rest : list Event)
    (errors : list JsError) :
  forall (k i : nat) (d0 d : Q),
    (k <= List.length errors)%nat ->
    delayBefore k (Some d0)
      (retryTrace params retries i d errors ++ EGenerate params o :: rest)
    = Some (match k with O => d0 | S k' => backoff d k' end).
Proof.
  induction errors as [|e errors IH]; intros k i d0 d Hk.
  - simpl in Hk. replace k with 0%nat by lia. reflexivity.
  - destruct k as [|k]; [reflexivity|].
    cbn [retryTrace app delayBefore]. rewrite IH by (simpl in Hk; lia).
    destruct k; reflexivity.
Qed.

Lemma attempts_retryTrace (retries : nat) (errors : list JsError) :
  forall (i : nat) (d : Q) (rest : list Event),
    attempts (retryTrace params retries i d errors ++ rest)
    = (List.length errors + attempts rest)%nat.
Proof.
  unfold attempts.
  induction errors as [|e errors IH]; intros i d rest; [reflexivity|].
  cbn [retryTrace app filter isGenerate List.length]. rewrite IH. reflexivity.
Qed.

Lemma delaysOf_retryTrace_eq (retries : nat) (errors : list JsError) :
  forall (i : nat) (d : Q) (rest : list Event),
    delaysOf (retryTrace params retries i d errors ++ rest)
    = List.map (backoff d) (seq 0 (List.length errors)) ++ delaysOf rest.
Proof.
  induction errors as [|e errors IH]; intros i d rest; [reflexivity|].
  cbn [retryTrace app delaysOf List.length seq List.map backoff].
  rewrite IH, <- seq_shift, map_map. reflexivity.
Qed.

Lemma nth_error_map_seq (f : nat -> Q) (n j : nat) :
  (j < n)%nat -> nth_error (List.map f (seq 0 n)) j = Some (f j).
Proof.
  intros H. apply map_nth_error.
  rewrite (nth_error_nth' _ 0%nat) by (rewrite length_seq; lia).
  rewrite seq_nth by lia. reflexivity.
Qed.

Lemma delaysOf_retryTrace (retries : nat) (errors : list JsError) :
  forall (i : nat) (d : Q) (rest : list Event),
    List.length (delaysOf (retryTrace params retries i d errors ++ rest))
    = (List.length errors + List.length (delaysOf rest))%nat.
Proof.
  induction errors as [|e errors IH]; intros i d rest; [reflexivity|].
  cbn [retryTrace app delaysOf List.length]. rewrite IH. reflexivity.
Qed.

End RetryTheorems.

(** C6: when an attempt fails with an error that is not rate-limit
    classified (neither [status] nor [code] is 429 and the message holds
    neither "429" nor "RESOURCE_EXHAUSTED"), whatever rate-limited failures
    came before, [generateWithRetry] throws that very error; the failed call
    is the last thing it does: no notice, no delay and no further call follow
    it. *)
Theorem generateWithRetry_propagates_other_errors
    (params : Params) (retries : nat) (initialDelay : Q) (w : World)
    (errors : list JsError) (error : JsError) :
  (List.length errors < retries)%nat ->
  Forall rateLimited errors ->
  scripted (script w) (calls w) (List.map Reject errors ++ [Reject error]) ->
  status error <> Some 429%Z ->
  code error <> Some 429%Z ->
  ~ messageContains error (u "429") ->
  ~ messageContains error (u "RESOURCE_EXHAUSTED") ->
  generateWithRetry params retries initialDelay w
  = (Throw error,
     advance w (List.length errors + 1)
       (retryTrace params retries 0 initialDelay errors
        ++ [EGenerate params (Reject error)])).
Proof.
  intros Hlen Hrl Hsc Hs Hc H429 Hre.
  apply (@generateWithRetry_settles params retries initialDelay w errors
           (Reject error)); try assumption.
  intros e [= <-]. left.
  destruct (isRateLimit error) eqn:E; [exfalso|reflexivity].
  apply isRateLimit_spec in E. tauto.
Qed.

(** C6 at work: one rate-limited failure, then an internal error. *)
Lemma generateWithRetry_propagates_other_errors_witness :
  generateWithRetry (codeParams []) 10 10000
    (fresh (fun j => match j with
                     | O => Reject tooManyRequests
                     | _ => Reject internalError
                     end))
  = (Throw internalError,
     advance (fresh (fun j => match j with
                              | O => Reject tooManyRequests
                              | _ => Reject internalError
                              end)) 2
       [EGenerate (codeParams []) (Reject tooManyRequests);
        EWarn 1 10 10000; EDelay 10000;
        EGenerate (codeParams []) (Reject internalError)]).
Proof.
  apply (@generateWithRetry_propagates_other_errors (codeParams []) 10 10000
           (fresh (fun j => match j with
                            | O => Reject tooManyRequests
                            | _ => Reject internalError
                            end))
           [tooManyRequests] internalError).
  - simpl. lia.
  - repeat constructor.
  - intros j o H. destruct j as [|[|j]]; simpl in H.
    + injection H as <-. reflexivity.
    + injection H as <-. reflexivity.
    + destruct j; discriminate.
  - discriminate.
  - discriminate.
  - intros H. apply messageIncludes_spec in H; [|discriminate].
    vm_compute in H. discriminate.
  - intros H. apply messageIncludes_spec in H; [|discriminate].
    vm_compute in H. discriminate.
Defined.

(** C1, what the code does: when all ten attempts fail with a rate-limit
    classified error, the wrapper stops after exactly ten calls and nine
    waits, and what it throws is the error of the tenth call, which is not the
    "quota may be exhausted" error: on the last iteration the test
    [i < retries - 1] fails and the [else] branch rethrows. *)
Theorem generateWithRetry_exhaustion_rethrows
    (params : Params) (w : World) (errors : list JsError) (error : JsError) :
  List.length errors = 9%nat ->
  Forall rateLimited errors -> rateLimited error ->
  scripted (script w) (calls w) (List.map Reject errors ++ [Reject error]) ->
  generateWithRetry' params w
  = (Throw error,
     advance w 10 (retryTrace params 10 0 10000 errors
                   ++ [EGenerate params (Reject error)]))
  /\ error <> quotaExhausted
  /\ attempts (retryTrace params 10 0 10000 errors
               ++ [EGenerate params (Reject error)]) = 10%nat
  /\ List.length (delaysOf (retryTrace params 10 0 10000 errors
                            ++ [EGenerate params (Reject error)])) = 9%nat.
Proof.
  intros Hlen Hrl He Hsc. split; [|split; [|split]].
  - unfold generateWithRetry'.
    rewrite (@generateWithRetry_settles params 10 10000 w errors (Reject error));
      try assumption; try lia.
    rewrite Hlen. reflexivity.
  - intros ->. vm_compute in He. discriminate.
  - rewrite attempts_retryTrace, Hlen. reflexivity.
  - rewrite delaysOf_retryTrace, Hlen. reflexivity.
Qed.

(** C1 at work: a remote endpoint that answers 429 to every call. *)
Lemma generateWithRetry_exhaustion_rethrows_witness :
  fst (run (generateWithRetry' (codeParams [])) (fun _ => Reject tooManyRequests))
  = Throw tooManyRequests
  /\ tooManyRequests <> quotaExhausted
  /\ calls (snd (run (generateWithRetry' (codeParams []))
                   (fun _ => Reject tooManyRequests))) = 10%nat.
Proof.
  destruct (@generateWithRetry_exhaustion_rethrows (codeParams [])
              (fresh (fun _ => Reject tooManyRequests))
              (repeat tooManyRequests 9) tooManyRequests) as (E & N & _).
  - reflexivity.
  - repeat constructor.
  - reflexivity.
  - intros j o H.
    repeat (destruct j as [|j]; [injection H as <-; reflexivity|]).
    destruct j; discriminate.
  - unfold run. rewrite E. repeat split. exact N.
Defined.

(** C5: when the remote call fails [N] times ([N < 10]) with a rate-limit
    classified error and then succeeds, the default wrapper returns the
    response of the successful call after exactly [N + 1] calls; it waits [N]
    times, not before the first attempt, and the [k]-th wait, the one before
    attempt [k] ([1 <= k <= N], attempts numbered from 0 like the loop
    variable [i]), is [10000 * 1.5^(k-1)] milliseconds. *)
Theorem generateWithRetry_succeeds_after_failures
    (params : Params) (sc : nat -> Outcome) (N : nat)
    (errors : list JsError) (resp : GenerateContentResponse) :
  (N < 10)%nat -> List.length errors = N ->
  Forall rateLimited errors ->
  scripted sc 0 (List.map Reject errors ++ [Resolve resp]) ->
  exists w,
    run (generateWithRetry' params) sc = (Ok resp, w)
    /\ calls w = (N + 1)%nat
    /\ attempts (trace w) = (N + 1)%nat
    /\ List.length (delaysOf (trace w)) = N
    /\ delayBefore 0 None (trace w) = None
    /\ forall k, (1 <= k <= N)%nat ->
         exists d, delayBefore k None (trace w) = Some d
                   /\ nth_error (delaysOf (trace w)) (k - 1) = Some d
                   /\ d == 10000 * (3 # 2) ^ (Z.of_nat k - 1).
Proof.
  intros HN Hlen Hrl Hsc.
  eexists. split.
  { unfold run, generateWithRetry'.
    apply (@generateWithRetry_settles params 10 10000 (fresh sc) errors
             (Resolve resp)); try assumption; try lia.
    intros e [=]. }
  cbn [advance fresh calls trace app]. repeat split.
  - lia.
  - rewrite attempts_retryTrace. rewrite Hlen. reflexivity.
  - rewrite delaysOf_retryTrace. simpl. lia.
  - destruct errors; reflexivity.
  - intros k Hk. destruct errors as [|e errors]; [simpl in Hlen; lia|].
    destruct k as [|k]; [lia|].
    exists (backoff 10000 k). split; [|split].
    + cbn [retryTrace app delayBefore].
      rewrite delayBefore_retryTrace by (simpl in Hlen; lia).
      destruct k; reflexivity.
    + rewrite delaysOf_retryTrace_eq. cbn [delaysOf]. rewrite app_nil_r.
      replace (S k - 1)%nat with k by lia.
      apply nth_error_map_seq. lia.
    + rewrite backoff_power.
      replace (Z.of_nat (S k) - 1)%Z with (Z.of_nat k) by lia. reflexivity.
Qed.

(** C5 at work: two 429 answers, then a response. *)
Lemma generateWithRetry_succeeds_after_failures_witness :
  exists w,
    run (generateWithRetry' (codeParams []))
        (fun j => match j with
                  | 0 | 1 => Reject tooManyRequests
                  | _ => Resolve {| text := Some (u "ok") |}
                  end)%nat
    = (Ok {| text := Some (u "ok") |}, w)
    /\ calls w = 3%nat
    /\ delaysOf (trace w) = [10000; 10000 * (3 # 2)].
Proof.
  destruct (@generateWithRetry_succeeds_after_failures (codeParams [])
              (fun j => match j with
                        | 0 | 1 => Reject tooManyRequests
                        | _ => Resolve {| text := Some (u "ok") |}
                        end)%nat
              2 [tooManyRequests; tooManyRequests] {| text := Some (u "ok") |})
    as (w & E & C & _).
  - lia.
  - reflexivity.
  - repeat constructor.
  - intros j o H.
    repeat (destruct j as [|j]; [injection H as <-; reflexivity|]).
    destruct j; discriminate.
  - exists w. split; [exact E|]. split; [exact C|].
    unfold run in E. vm_compute in E. injection E as <-. reflexivity.
Defined.

(* ================================================================== *)
(** * The pipeline as seven stages *)
(* ================================================================== *)

Section PipelineFacts.

Variables fileBase64 mimeType : jsstring.

Lemma bind_emit {B} (e : Event) (k : unit -> M B) (w : World) :
  bind (emit e) k w = k tt (advance w 0 [e]).
Proof. reflexivity. Qed.

Lemma bind_delay {B} (ms : Q) (k : unit -> M B) (w : World) :
  bind (delay ms) k w = k tt (advance w 0 [EDelay ms]).
Proof. reflexivity. Qed.

(** The default wrapper always ends with a call that settles it. *)
Lemma retryLoop_cases (params : Params) (n : nat) :
  forall (i : nat) (d : Q) (w : World),
    (i + S n = 10)%nat ->
    exists errors last,
      (List.length errors <= n)%nat /\ Forall rateLimited errors
      /\ (forall e, last = Reject e ->
            isRateLimit e = false \/ List.length errors = n)
      /\ retryLoop params 10 (S n) i d w
         = (resultOf last,
            advance w (List.length errors + 1)
              (retryTrace params 10 i d errors ++ [EGenerate params last])).
Proof.
  induction n as [|n IH]; intros i d w Hi;
    destruct (script w (calls w)) as [resp | e] eqn:E.
  - exists [], (Resolve resp). split; [simpl; lia|]. split; [constructor|].
    split; [intros e [=]|]. apply retryLoop_resolve. exact E.
  - exists [], (Reject e). split; [simpl; lia|]. split; [constructor|].
    split; [intros; right; reflexivity|].
    apply retryLoop_throw; [exact E | right; lia].
  - exists [], (Resolve resp). split; [simpl; lia|]. split; [constructor|].
    split; [intros e [=]|]. apply retryLoop_resolve. exact E.
  - destruct (isRateLimit e) eqn:R.
    + destruct (IH (S i) (d * (3 # 2))
                  (advance w 1 [EGenerate params (Reject e);
                                EWarn (i + 1) 10 d; EDelay d]))
        as (errors & last & Hlen & Hrl & Hlast & Heq); [lia|].
      exists (e :: errors), last.
      split; [simpl; lia|]. split; [constructor; assumption|].
      split.
      * intros e' He'. destruct (Hlast e' He'); [left | right; simpl]; auto.
      * rewrite (@retryLoop_retry _ _ _ _ _ _ e E R) by lia.
        rewrite Heq, advance_advance. reflexivity.
    + exists [], (Reject e). split; [simpl; lia|]. split; [constructor|].
      split; [intros e' [= <-]; left; exact R|].
      apply retryLoop_throw; [exact E | left; exact R].
Qed.

Lemma generateWithRetry'_cases (params : Params) (w : World) :
  exists errors last,
    (List.length errors < 10)%nat /\ Forall rateLimited errors
    /\ (forall e, last = Reject e ->
          isRateLimit e = false \/ List.length errors = 9%nat)
    /\ generateWithRetry' params w
       = (resultOf last,
          advance w (List.length errors + 1)
            (retryTrace params 10 0 10000 errors ++ [EGenerate params last])).
Proof.
  destruct (@retryLoop_cases params 9 0%nat 10000 w eq_refl)
    as (errors & last & H1 & H2 & H3 & H4).
  exists errors, last. repeat split; auto. lia.
Qed.

(** One stage: the notice, then the wrapped call; the continuation runs
    when the call resolved. *)
Lemma stage_cases {B} (step : jsstring) (p : Params)
    (K : GenerateContentResponse -> M B) (w : World) (n : nat)
    (t : list Event) :
  exists errors last,
    (List.length errors < 10)%nat /\ Forall rateLimited errors
    /\ (forall e, last = Reject e ->
          isRateLimit e = false \/ List.length errors = 9%nat)
    /\ bind (emit (EProgress step)) (fun _ => bind (generateWithRetry' p) K)
         (advance w n t)
       = match last with
         | Resolve resp =>
             K resp (advance w (n + (0 + (List.length errors + 1)))
                       (t ++ stageEvents step p errors last))
         | Reject e =>
             (Throw e, advance w (n + (0 + (List.length errors + 1)))
                         (t ++ stageEvents step p errors last))
         end.
Proof.
  destruct (generateWithRetry'_cases p (advance (advance w n t) 0 [EProgress step]))
    as (errors & last & Hlen & Hrl & Hlast & Heq).
  exists errors, last. repeat (split; [assumption|]).
  rewrite bind_emit. unfold bind at 1. rewrite Heq.
  rewrite !advance_advance.
  destruct last; reflexivity.
Qed.

(** Stage 5 after its call: the parse, the log on failure, the wait. *)
Lemma bind_parseSlides {B} (resp : GenerateContentResponse)
    (K : Json.value -> M B) (w : World) (n : nat) (t : list Event) :
  bind (parseSlides (text resp))
    (fun slides => bind (delay 12000) (fun _ => K slides)) (advance w n t)
  = K (slidesOf (text resp)) (advance w (n + 0) (t ++ stageTail 5 resp)).
Proof.
  unfold parseSlides, slidesOf, stageTail.
  destruct (Json.parse (cleanJson (orElse (text resp) (u "[]")))) as [v|].
  - unfold bind at 1, ret. rewrite bind_delay, advance_advance. reflexivity.
  - unfold bind at 1. rewrite bind_emit. unfold ret.
    rewrite bind_delay, !advance_advance.
    reflexivity.
Qed.

Ltac run_stage HC :=
  match goal with
  | |- context [bind (emit (EProgress ?step))
                  (fun _ => bind (generateWithRetry' ?p) ?K)
                  (advance ?w ?n ?t)] =>
      let errors := fresh "errors" in
      let last := fresh "last" in
      let Hlen := fresh "Hlen" in
      let Hrl := fresh "Hrl" in
      let Hlast := fresh "Hlast" in
      let Heq := fresh "Heq" in
      destruct (stage_cases step p K w n t)
        as (errors & last & Hlen & Hrl & Hlast & Heq);
      rewrite Heq; clear Heq;
      destruct last as [? | ?];
      [ clear Hlast; cbv beta zeta
      | eexists _, _, _; split; [reflexivity|];
        exact (@run_throws fileBase64 mimeType _ _ _ _ _ HC ltac:(lia)
                 Hlen Hrl (Hlast _ eq_refl)) ]
  end.

Ltac stage_completed HC :=
  match goal with
  | Hlen : (List.length ?errors < 10)%nat, Hrl : Forall rateLimited ?errors
    |- context [advance _ _ ((_ ++ stageEvents _ _ ?errors (Resolve ?resp)) ++ _)] =>
      let HC' := fresh "HC" in
      pose proof (@completed_next fileBase64 mimeType _ _ _ _ resp HC
                    ltac:(lia) Hlen Hrl) as HC';
      clear HC Hlen Hrl
  end.

Ltac after_delay HC :=
  rewrite bind_delay; cbv beta; rewrite advance_advance; stage_completed HC.

(** Every run of [generateAnalysis] is a run of the seven stages. *)
Lemma generateAnalysis_run (w : World) :
  exists r n t,
    generateAnalysis fileBase64 mimeType w = (r, advance w n t)
    /\ PipelineRun fileBase64 mimeType r t.
Proof.
  pose proof (completed_none fileBase64 mimeType) as HC.
  replace (generateAnalysis fileBase64 mimeType w)
    with (generateAnalysis fileBase64 mimeType (advance w 0 []))
    by (rewrite advance_0_nil; reflexivity).
  unfold generateAnalysis.
  run_stage HC. after_delay HC.
  run_stage HC0. after_delay HC0.
  run_stage HC. after_delay HC.
  run_stage HC0. after_delay HC0.
  run_stage HC. rewrite bind_parseSlides. stage_completed HC.
  run_stage HC0. after_delay HC0.
  run_stage HC.
  match goal with
  | |- context [advance _ _ ?T] => rewrite <- (app_nil_r T)
  end.
  eexists _, _, _. split; [reflexivity|].
  apply run_returns.
  match goal with
  | |- context [(_ ++ stageEvents _ _ ?errors (Resolve ?resp)) ++ []] =>
      exact (@completed_next fileBase64 mimeType _ _ _ _ resp HC
               ltac:(lia) Hlen Hrl)
  end.
Qed.

End PipelineFacts.

(* ================================================================== *)
(** * Reading the trace of a run *)
(* ================================================================== *)

Section TraceFacts.

Lemma progressCount_app (t1 t2 : list Event) :
  progressCount (t1 ++ t2) = (progressCount t1 + progressCount t2)%nat.
Proof.
  induction t1 as [|[] t1 IH]; simpl; rewrite ?IH; reflexivity.
Qed.

Lemma progressCount_retryTrace p r (errors : list JsError) :
  forall i d, progressCount (retryTrace p r i d errors) = 0%nat.
Proof. induction errors as [|e errors IH]; intros; simpl; auto. Qed.

Lemma progressCount_stageEvents step p errors o :
  progressCount (stageEvents step p errors o) = 1%nat.
Proof.
  unfold stageEvents. cbn [progressCount].
  rewrite progressCount_app, progressCount_retryTrace. reflexivity.
Qed.

Lemma stageTail_cases (n : nat) (resp : GenerateContentResponse) :
  stageTail n resp = []
  \/ stageTail n resp = [EDelay 12000]
  \/ stageTail n resp
     = [EConsoleError (u "Failed to parse slides JSON"); EDelay 12000].
Proof.
  destruct n as [|[|[|[|[|[|[|[|n]]]]]]]]; cbn [stageTail]; auto.
  destruct (Json.parse (cleanJson (orElse (text resp) (u "[]")))); auto.
Qed.

Lemma progressCount_stageTail n resp : progressCount (stageTail n resp) = 0%nat.
Proof. destruct (stageTail_cases n resp) as [-> | [-> | ->]]; reflexivity. Qed.

Lemma attempts_app (t1 t2 : list Event) :
  attempts (t1 ++ t2) = (attempts t1 + attempts t2)%nat.
Proof. unfold attempts. rewrite filter_app, length_app. reflexivity. Qed.

Lemma attempts_stageEvents step p errors o :
  attempts (stageEvents step p errors o) = (List.length errors + 1)%nat.
Proof.
  unfold stageEvents.
  change (attempts (EProgress step :: ?t)) with (attempts t).
  apply attempts_retryTrace.
Qed.

(** ** The calls of a trace, by stage *)

Lemma stageCalls_app (t1 t2 : list Event) : forall s,
  stageCalls s (t1 ++ t2)
  = stageCalls s t1 ++ stageCalls (s + progressCount t1) t2.
Proof.
  induction t1 as [|e t1 IH]; intros s; simpl.
  - rewrite Nat.add_0_r. reflexivity.
  - destruct e; rewrite IH; simpl; rewrite ?Nat.add_succ_r; reflexivity.
Qed.

Lemma stageCalls_retryTrace s p r (errors : list JsError) :
  forall i d,
    stageCalls s (retryTrace p r i d errors)
    = List.map (fun _ => (s, p)) errors.
Proof.
  induction errors as [|e errors IH]; intros; simpl; rewrite ?IH; reflexivity.
Qed.

Lemma stageCalls_stageEvents s step p errors o :
  stageCalls s (stageEvents step p errors o)
  = List.map (fun _ => (S s, p)) errors ++ [(S s, p)].
Proof.
  unfold stageEvents. cbn [stageCalls].
  rewrite stageCalls_app, stageCalls_retryTrace.
  rewrite progressCount_retryTrace, Nat.add_0_r. reflexivity.
Qed.

Lemma stageCalls_stageTail s n resp : stageCalls s (stageTail n resp) = [].
Proof. destruct (stageTail_cases n resp) as [-> | [-> | ->]]; reflexivity. Qed.

(** ** The resolved call of a stage *)

Lemma afterResolved_app (k : nat) (t1 t2 : list Event) : forall s,
  afterResolved k s (t1 ++ t2)
  = match afterResolved k s t1 with
    | Some (resp, post) => Some (resp, post ++ t2)
    | None => afterResolved k (s + progressCount t1) t2
    end.
Proof.
  induction t1 as [|e t1 IH]; intros s; simpl.
  - rewrite Nat.add_0_r. reflexivity.
  - destruct e as [p [resp | err] | | | |]; rewrite ?IH;
      rewrite ?Nat.add_succ_r; try reflexivity.
    destruct (Nat.eqb s k); reflexivity.
Qed.

Lemma afterResolved_retryTrace k s p r (errors : list JsError) :
  forall i d, afterResolved k s (retryTrace p r i d errors) = None.
Proof. induction errors as [|e errors IH]; intros; simpl; auto. Qed.

Lemma afterResolved_stageEvents k s step p errors o (rest : list Event) :
  afterResolved k s (stageEvents step p errors o ++ rest)
  = match o with
    | Resolve resp =>
        if Nat.eqb (S s) k then Some (resp, rest)
        else afterResolved k (S s) rest
    | Reject _ => afterResolved k (S s) rest
    end.
Proof.
  unfold stageEvents. cbn [app afterResolved].
  rewrite <- app_assoc, afterResolved_app, afterResolved_retryTrace.
  rewrite progressCount_retryTrace, Nat.add_0_r.
  destruct o; reflexivity.
Qed.

Lemma afterResolved_stageTail k s n resp :
  afterResolved k s (stageTail n resp) = None.
Proof. destruct (stageTail_cases n resp) as [-> | [-> | ->]]; reflexivity. Qed.

(** ** The outputs a stage reads and writes *)

Variables fileBase64 mimeType : jsstring.

(** A stage reads only what the stages before it wrote. *)
Lemma stageParams_stageUpdate (k n : nat) resp b :
  (1 <= k <= n)%nat -> (n <= 7)%nat ->
  stageParams k fileBase64 mimeType (stageUpdate n resp b)
  = stageParams k fileBase64 mimeType b.
Proof.
  intros H Hn.
  destruct n as [|[|[|[|[|[|[|[|n]]]]]]]]; try lia;
    destruct k as [|[|[|[|[|[|[|[|k]]]]]]]]; try lia; reflexivity.
Qed.

Lemma stageUpdate_comm (k n : nat) r r' b :
  k <> n -> (1 <= k <= 7)%nat -> (1 <= n <= 7)%nat ->
  stageUpdate k r (stageUpdate n r' b) = stageUpdate n r' (stageUpdate k r b).
Proof.
  intros H Hk Hn.
  destruct n as [|[|[|[|[|[|[|[|n]]]]]]]]; try lia;
    destruct k as [|[|[|[|[|[|[|[|k]]]]]]]]; try lia;
    try congruence; reflexivity.
Qed.

Lemma stageUpdate_idem (n : nat) r b :
  stageUpdate n r (stageUpdate n r b) = stageUpdate n r b.
Proof. destruct n as [|[|[|[|[|[|[|n]]]]]]]; reflexivity. Qed.

End TraceFacts.

Section StageFacts.

Variables fileBase64 mimeType : jsstring.

Lemma Completed_bounds n b t :
  Completed fileBase64 mimeType n b t -> (n <= 7)%nat /\ progressCount t = n.
Proof.
  induction 1 as [|n b t errors resp HC [IHn IHp] Hn Hlen Hrl].
  - split; [lia | reflexivity].
  - split; [lia|].
    rewrite !progressCount_app, progressCount_stageEvents,
      progressCount_stageTail, IHp. lia.
Qed.

(** Every call of the trace belongs to one of the completed stages and
    carries the request of that stage, built from the outputs. *)
Lemma Completed_calls n b t :
  Completed fileBase64 mimeType n b t ->
  Forall (fun kq => (1 <= fst kq <= n)%nat
                    /\ snd kq = stageParams (fst kq) fileBase64 mimeType b)
         (stageCalls 0 t)
  /\ forall k, (1 <= k <= n)%nat -> In (k, stageParams k fileBase64 mimeType b) (stageCalls 0 t).
Proof.
  induction 1 as [|n b t errors resp HC [IHf IHi] Hn Hlen Hrl].
  - split; [constructor | intros k Hk; lia].
  - destruct (Completed_bounds HC) as [_ Hp].
    rewrite !stageCalls_app, stageCalls_stageEvents, stageCalls_stageTail,
      app_nil_r, Hp.
    split.
    + apply Forall_app. split; [|apply Forall_app; split].
      * eapply Forall_impl; [|exact IHf]. cbv beta.
        intros [k q] [Hk Hq]. cbn [fst snd] in *. split; [lia|].
        rewrite stageParams_stageUpdate by lia. exact Hq.
      * apply Forall_forall. intros kq Hin. apply in_map_iff in Hin.
        destruct Hin as (e & <- & _). cbn [fst snd]. split; [lia|].
        rewrite stageParams_stageUpdate; [reflexivity | lia | lia].
      * constructor; [|constructor]. cbn [fst snd]. split; [lia|].
        rewrite stageParams_stageUpdate; [reflexivity | lia | lia].
    + intros k Hk. rewrite stageParams_stageUpdate; [| lia | lia].
      apply in_or_app. destruct (Nat.eq_dec k (S n)) as [-> | Hne].
      * right. apply in_or_app. right. left. reflexivity.
      * left. apply IHi. lia.
Qed.

Lemma startsNextStage_stageEvents n p errors o (rest : list Event) :
  startsNextStage n (stageEvents (stageStep (S n)) p errors o ++ rest).
Proof.
  unfold startsNextStage, stageEvents. eexists. split; [reflexivity|].
  rewrite attempts_app, attempts_retryTrace. unfold attempts at 1; simpl. lia.
Qed.

Lemma startsNextStage_app k (post more : list Event) :
  startsNextStage k post -> startsNextStage k (post ++ more).
Proof.
  intros (rest & -> & Hr). exists (rest ++ more). split; [reflexivity|].
  rewrite attempts_app. lia.
Qed.

Lemma Completed_read n b t :
  Completed fileBase64 mimeType n b t -> forall k, StageRead n b t k.
Proof.
  induction 1 as [|n b t errors resp HC IH Hn Hlen Hrl]; intros k.
  - unfold StageRead. cbn. destruct k; [left; reflexivity | right; lia].
  - destruct (Completed_bounds HC) as [_ Hp].
    specialize (IH k). unfold StageRead in *.
    rewrite <- app_assoc, afterResolved_app.
    destruct (afterResolved k 0 t) as [[r post]|].
    + destruct IH as (Hk & Hu & post' & -> & Hlast & Hnext).
      split; [lia|]. split.
      * rewrite stageUpdate_comm, Hu by lia. reflexivity.
      * exists (post' ++ stageEvents (stageStep (S n))
                          (stageParams (S n) fileBase64 mimeType b) errors (Resolve resp)
                       ++ stageTail (S n) resp).
        split; [rewrite <- !app_assoc; reflexivity|].
        split; [intros; lia|]. intros _.
        destruct (Nat.eq_dec k n) as [-> | Hne].
        -- rewrite (Hlast eq_refl). apply startsNextStage_stageEvents.
        -- apply startsNextStage_app. auto.
    + rewrite Hp, afterResolved_stageEvents. cbn [Nat.add].
      destruct (Nat.eqb_spec (S n) k) as [<- | Hne].
      * split; [lia|]. split; [apply stageUpdate_idem|].
        exists []. rewrite app_nil_r. repeat split; congruence.
      * rewrite afterResolved_stageTail. destruct IH; [left | right]; lia.
Qed.

(** ** Runs *)

Lemma PipelineRun_calls r t :
  PipelineRun fileBase64 mimeType r t ->
  exists b,
    match r with
    | Ok b' =>
        b' = b
        /\ forall k, (1 <= k <= 7)%nat ->
             In (k, stageParams k fileBase64 mimeType b) (stageCalls 0 t)
    | Throw _ => True
    end
    /\ (forall k resp post,
          afterResolved k 0 t = Some (resp, post) -> stageUpdate k resp b = b)
    /\ Forall (fun kq => (1 <= fst kq <= 7)%nat
                         /\ snd kq = stageParams (fst kq) fileBase64 mimeType b)
              (stageCalls 0 t).
Proof.
  intros [b t' HC | n b t' errors error HC Hn Hlen Hrl Hlast]; exists b.
  - destruct (Completed_calls HC) as [Hf Hi]. split; [split; auto|].
    split; [|exact Hf].
    intros k resp post Hk. pose proof (Completed_read HC k) as HR.
    unfold StageRead in HR. rewrite Hk in HR. tauto.
  - destruct (Completed_calls HC) as [Hf _].
    destruct (Completed_bounds HC) as [_ Hp].
    split; [exact I|]. split.
    { intros k resp post Hk. pose proof (Completed_read HC k) as HR.
      unfold StageRead in HR. rewrite afterResolved_app in Hk.
      destruct (afterResolved k 0 t') as [[r' post0]|].
      - injection Hk as <- <-. tauto.
      - rewrite <- (app_nil_r (stageEvents _ _ _ _)) in Hk.
        rewrite afterResolved_stageEvents in Hk. discriminate. }
    rewrite stageCalls_app, stageCalls_stageEvents, Hp.
    apply Forall_app. split; [|apply Forall_app; split].
    + eapply Forall_impl; [|exact Hf]. cbv beta.
      intros kq [Hk Hq]. split; [lia | exact Hq].
    + apply Forall_forall. intros kq Hin. apply in_map_iff in Hin.
      destruct Hin as (e & <- & _). cbn [fst snd]. split; [lia | reflexivity].
    + constructor; [|constructor]. cbn [fst snd]. split; [lia | reflexivity].
Qed.

Lemma PipelineRun_read r t k resp post :
  PipelineRun fileBase64 mimeType r t ->
  afterResolved k 0 t = Some (resp, post) ->
  (1 <= k <= 7)%nat
  /\ (forall b, r = Ok b -> stageUpdate k resp b = b)
  /\ exists post',
       post = stageTail k resp ++ post'
       /\ (k = 7%nat -> post' = [] /\ exists b, r = Ok b)
       /\ ((k < 7)%nat -> startsNextStage k post').
Proof.
  intros [b t' HC | n b t' errors error HC Hn Hlen Hrl Hlast] Hk.
  - pose proof (Completed_read HC k) as HR. unfold StageRead in HR.
    rewrite Hk in HR. destruct HR as (Hb & Hu & post' & -> & Hlast & Hnext).
    split; [exact Hb|]. split; [intros b' [= <-]; exact Hu|].
    exists post'. split; [reflexivity|]. split.
    + intros ->. split; [auto | eauto].
    + intros Hlt. apply Hnext. lia.
  - pose proof (Completed_read HC k) as HR. unfold StageRead in HR.
    destruct (Completed_bounds HC) as [_ Hp].
    rewrite afterResolved_app in Hk.
    destruct (afterResolved k 0 t') as [[r' post0]|].
    + injection Hk as <- <-.
      destruct HR as (Hb & Hu & post' & -> & Hlast' & Hnext).
      split; [lia|]. split; [intros b' [=]|].
      eexists. split; [rewrite <- app_assoc; reflexivity|].
      split; [intros ->; lia|]. intros _.
      destruct (Nat.eq_dec k n) as [-> | Hne].
      * rewrite (Hlast' eq_refl). cbn [app].
        rewrite <- (app_nil_r (stageEvents _ _ _ _)).
        apply startsNextStage_stageEvents.
      * apply startsNextStage_app. auto.
    + rewrite <- (app_nil_r (stageEvents _ _ _ _)) in Hk.
      rewrite afterResolved_stageEvents in Hk. discriminate.
Qed.

Lemma PipelineRun_resolved b t k :
  PipelineRun fileBase64 mimeType (Ok b) t -> (1 <= k <= 7)%nat ->
  exists resp post, afterResolved k 0 t = Some (resp, post).
Proof.
  intros HR Hk. inversion HR as [b' t' HC |]; subst.
  pose proof (Completed_read HC k) as H. unfold StageRead in H.
  destruct (afterResolved k 0 t) as [[resp post]|]; [eauto | lia].
Qed.

(** The run of the program from a fresh environment. *)
Lemma run_PipelineRun (sc : nat -> Outcome) :
  PipelineRun fileBase64 mimeType
    (fst (run (generateAnalysis fileBase64 mimeType) sc))
    (trace (snd (run (generateAnalysis fileBase64 mimeType) sc))).
Proof.
  unfold run.
  destruct (generateAnalysis_run fileBase64 mimeType (fresh sc))
    as (r & n & t & -> & HR).
  exact HR.
Qed.

End StageFacts.

(* ================================================================== *)
(** * What the stages send *)
(* ================================================================== *)

(** C2, as stated, fails: the request of stage 3 carries the document. *)
Lemma stage3_request_has_document :
  exists q, In (3%nat, q) (stageCalls 0 (trace (snd (run (generateAnalysis paper pdf) noText))))
            /\ In (filePart paper pdf) (parts q).
Proof.
  exists (experimentParams paper pdf). split.
  - vm_compute. do 2 right. left. reflexivity.
  - left. reflexivity.
Qed.

Section RequestTheorems.

Variables fileBase64 mimeType : jsstring.

Lemma stageParams_document (k : nat) (b : AnalysisResult) :
  (1 <= k <= 7)%nat ->
  (In (filePart fileBase64 mimeType)
      (parts (stageParams k fileBase64 mimeType b))
   <-> In k [1; 2; 3; 5; 7]%nat).
Proof.
  intros Hk.
  destruct k as [|[|[|[|[|[|[|[|k]]]]]]]]; try lia; cbn;
    (split; [intros H | intros H]);
    repeat (destruct H as [H | H]; try discriminate H); auto 10.
Qed.

End RequestTheorems.

(** C2, amended: in every run the calls of stages 1, 2, 3, 5 and 7 carry the
    document and those of stages 4 and 6 do not; the parts of every request
    are exactly the document (where attached) and the fixed instruction text
    of the stage, into which the outputs [b] of the earlier stages are
    spliced; [b] holds the outputs the resolved calls of stages 1 to 3
    produced, and is the bundle when the run returns one. *)
Theorem requests_follow_wiring (fileBase64 mimeType : jsstring)
    (sc : nat -> Outcome) :
  exists b : AnalysisResult,
    match fst (run (generateAnalysis fileBase64 mimeType) sc) with
    | Ok b' => b' = b
    | Throw _ => True
    end
    /\ Forall (fun k =>
         match afterResolved k 0
                 (trace (snd (run (generateAnalysis fileBase64 mimeType) sc)))
         with
         | Some (resp, _) => stageOutput k b = orElse (text resp) (placeholder k)
         | None => True
         end) [1; 2; 3]%nat
    /\ Forall (fun kq =>
         parts (snd kq)
         = match fst kq with
           | 1 => [filePart fileBase64 mimeType; textPart summaryPrompt]
           | 2 => [filePart fileBase64 mimeType; textPart critiquePrompt]
           | 3 => [filePart fileBase64 mimeType; textPart experimentPrompt]
           | 4 => [textPart (codePrompt (experimentPlan b))]
           | 5 => [filePart fileBase64 mimeType;
                   textPart (slidesPrompt (summary b) (experimentPlan b))]
           | 6 => [textPart (interpretationPrompt (experimentPlan b))]
           | _ => [filePart fileBase64 mimeType;
                   textPart (validationPrompt (summary b) (critique b)
                               (experimentPlan b))]
           end%nat
         /\ (In (filePart fileBase64 mimeType) (parts (snd kq))
             <-> In (fst kq) [1; 2; 3; 5; 7]%nat))
       (stageCalls 0 (trace (snd (run (generateAnalysis fileBase64 mimeType) sc)))).
Proof.
  destruct (PipelineRun_calls (run_PipelineRun fileBase64 mimeType sc))
    as (b & Hb & Hout & Hcalls).
  exists b. split; [|split].
  - destruct (fst (run (generateAnalysis fileBase64 mimeType) sc));
      [apply Hb | exact I].
  - repeat constructor;
      match goal with
      | |- match afterResolved ?k 0 ?t with _ => _ end =>
          destruct (afterResolved k 0 t) as [[resp post]|] eqn:E; [|exact I];
          apply Hout in E
      end.
    + apply (f_equal summary) in E. symmetry. exact E.
    + apply (f_equal critique) in E. symmetry. exact E.
    + apply (f_equal experimentPlan) in E. symmetry. exact E.
  - eapply Forall_impl; [|exact Hcalls]. cbv beta.
    intros [k q] [Hk ->]. cbn [fst snd]. split.
    + destruct k as [|[|[|[|[|[|[|[|k]]]]]]]]; try lia; reflexivity.
    + apply stageParams_document. exact Hk.
Qed.


(* ================================================================== *)
(** * What the stages return *)
(* ================================================================== *)

(** C3, as stated, fails: when stage 5 resolves without text the run
    returns a bundle whose [slides] is the empty list. *)
Lemma slides_empty_without_text :
  exists b w,
    run (generateAnalysis paper pdf) noText = (Ok b, w)
    /\ slides b = JArray []
    /\ ~ nonEmptyList (slides b).
Proof.
  eexists _, _. split; [vm_compute; reflexivity|].
  cbn [slides]. split; [reflexivity|].
  intros (x & l & H). discriminate H.
Qed.

(** C3, amended: in every run that returns a bundle, [slides] is what
    [JSON.parse] gives for the cleaned text of the response that resolved
    stage 5, with "[]" standing in for a missing or empty text; it is the
    one-entry placeholder list, hence non-empty, when that parse fails, and it
    is the empty list when the text is missing or empty. *)
Theorem slides_from_stage5_response (fileBase64 mimeType : jsstring)
    (sc : nat -> Outcome) (b : AnalysisResult) (w : World) :
  run (generateAnalysis fileBase64 mimeType) sc = (Ok b, w) ->
  exists resp post,
    afterResolved 5 0 (trace w) = Some (resp, post)
    /\ match Json.parse (cleanJson (orElse (text resp) (u "[]"))) with
       | Some v => slides b = v
       | None => slides b = errorSlides /\ nonEmptyList (slides b)
       end
    /\ (falsy (text resp) -> slides b = JArray []).
Proof.
  intros Hrun.
  pose proof (run_PipelineRun fileBase64 mimeType sc) as HR.
  rewrite Hrun in HR. cbn [fst snd] in HR.
  destruct (PipelineRun_resolved (k := 5) HR) as (resp & post & E); [lia|].
  exists resp, post. split; [exact E|].
  destruct (@PipelineRun_read _ _ _ _ _ _ _ HR E) as (_ & Hu & _).
  specialize (Hu b eq_refl). apply (f_equal slides) in Hu.
  cbn [stageUpdate slides] in Hu. unfold slidesOf in Hu. split.
  - destruct (Json.parse (cleanJson (orElse (text resp) (u "[]")))).
    + symmetry. exact Hu.
    + split; [symmetry; exact Hu|]. rewrite <- Hu. unfold errorSlides.
      eexists _, _. reflexivity.
  - intros [H | H]; rewrite H in Hu; rewrite <- Hu; reflexivity.
Qed.

(** C3 at work: the run without text. *)
Lemma slides_from_stage5_response_witness :
  exists resp post,
    afterResolved 5 0 (trace (snd (run (generateAnalysis paper pdf) noText)))
    = Some (resp, post)
    /\ text resp = None.
Proof.
  destruct (run (generateAnalysis paper pdf) noText) as [r w] eqn:E.
  assert (Hr : r = fst (run (generateAnalysis paper pdf) noText))
    by (rewrite E; reflexivity).
  vm_compute in Hr. subst r.
  destruct (@slides_from_stage5_response paper pdf noText _ w E)
    as (resp & post & H5 & _ & _).
  exists resp, post. cbn [snd]. split; [exact H5|].
  assert (Hw : w = snd (run (generateAnalysis paper pdf) noText))
    by (rewrite E; reflexivity).
  rewrite Hw in H5. vm_compute in H5. injection H5 as <- _. reflexivity.
Defined.

(** C7, as stated, fails: without text, stage 7 stores a placeholder that
    is not of the form "Failed to generate ...", and stage 4 stores a Python
    comment. *)
Lemma placeholders_not_uniform :
  exists b w,
    run (generateAnalysis paper pdf) noText = (Ok b, w)
    /\ validationReport b = u "Validation check failed."
    /\ startsWith (validationReport b) (u "Failed to generate") = false
    /\ pythonCode b = u "# Failed to generate code."
    /\ startsWith (pythonCode b) (u "Failed to generate") = false.
Proof.
  eexists _, _. split; [vm_compute; reflexivity|].
  cbn [validationReport pythonCode]. repeat split; vm_compute; reflexivity.
Qed.

(** C7, amended: when the call of a text stage (1, 2, 3, 4, 6 or 7)
    resolves with a missing or empty text, the run goes on: after stages 1 to
    6 it waits 12 s, announces the next stage and calls the endpoint again,
    and after stage 7 it returns the bundle; in the bundle the output of that
    stage is the placeholder of the stage: "Failed to generate summary.",
    "Failed to generate critique.", "Failed to generate experiment plan.",
    "# Failed to generate code.", "Failed to generate interpretation." and
    "Validation check failed.". *)
Theorem empty_text_gives_placeholder (fileBase64 mimeType : jsstring)
    (sc : nat -> Outcome) (k : nat) (resp : GenerateContentResponse)
    (post : list Event) :
  In k [1; 2; 3; 4; 6; 7]%nat ->
  afterResolved k 0 (trace (snd (run (generateAnalysis fileBase64 mimeType) sc)))
  = Some (resp, post) ->
  falsy (text resp) ->
  (forall b, fst (run (generateAnalysis fileBase64 mimeType) sc) = Ok b ->
             stageOutput k b = placeholder k)
  /\ ((k < 7)%nat ->
      exists rest, post = EDelay 12000 :: EProgress (stageStep (S k)) :: rest
                   /\ (1 <= attempts rest)%nat)
  /\ (k = 7%nat ->
      post = []
      /\ exists b, fst (run (generateAnalysis fileBase64 mimeType) sc) = Ok b).
Proof.
  intros Hk E Hfalsy.
  destruct (@PipelineRun_read _ _ _ _ _ _ _
              (run_PipelineRun fileBase64 mimeType sc) E)
    as (_ & Hu & post' & -> & Hlast & Hnext).
  assert (Hor : forall d, orElse (text resp) d = d)
    by (intros d; destruct Hfalsy as [-> | ->]; reflexivity).
  split; [|split].
  - intros b Hb. specialize (Hu b Hb).
    cbn [In] in Hk.
    repeat (destruct Hk as [<- | Hk]); try contradiction;
      cbn [stageOutput];
      [ apply (f_equal summary) in Hu
      | apply (f_equal critique) in Hu
      | apply (f_equal experimentPlan) in Hu
      | apply (f_equal pythonCode) in Hu
      | apply (f_equal experimentInterpretation) in Hu
      | apply (f_equal validationReport) in Hu ];
      cbn [stageUpdate summary critique experimentPlan pythonCode
             experimentInterpretation validationReport] in Hu;
      rewrite Hor in Hu; rewrite <- Hu; reflexivity.
  - intros Hlt. destruct (Hnext Hlt) as (rest & -> & Hrest).
    exists rest. split; [|exact Hrest].
    cbn [In] in Hk.
    repeat (destruct Hk as [<- | Hk]); try contradiction; try lia; reflexivity.
  - intros ->. destruct (Hlast eq_refl) as [-> Hb]. split; [reflexivity | exact Hb].
Qed.

(** C7 at work: stage 7 of the run without text. *)
Lemma empty_text_gives_placeholder_witness :
  exists b, fst (run (generateAnalysis paper pdf) noText) = Ok b
            /\ validationReport b = u "Validation check failed.".
Proof.
  destruct (@empty_text_gives_placeholder paper pdf noText 7
              {| text := None |} []) as (Hout & _ & Hret).
  - simpl. auto 10.
  - vm_compute. reflexivity.
  - left. reflexivity.
  - destruct (Hret eq_refl) as (_ & b & Hb).
    exists b. split; [exact Hb | exact (Hout b Hb)].
Defined.




(* ================================================================== *)
(** * More on the retry wrapper *)
(* ================================================================== *)

Section RetryShape.

Variable params : Params.
Variable retries : nat.

(** The loop ends with a call that settles it, and its attempts are the
    outcomes the script holds. *)
Lemma retryLoop_shape (n : nat) :
  forall (i : nat) (d : Q) (w : World),
    (i + S n = retries)%nat ->
    exists errors last,
      (List.length errors <= n)%nat /\ Forall rateLimited errors
      /\ scripted (script w) (calls w) (List.map Reject errors ++ [last])
      /\ retryLoop params retries (S n) i d w
         = (resultOf last,
            advance w (List.length errors + 1)
              (retryTrace params retries i d errors ++ [EGenerate params last])).
Proof.
  induction n as [|n IH]; intros i d w Hi;
    destruct (script w (calls w)) as [resp | e] eqn:E.
  - exists [], (Resolve resp). split; [simpl; lia|]. split; [constructor|].
    split; [|apply retryLoop_resolve; exact E].
    intros [|j] o H; simpl in H; [|destruct j; discriminate].
    injection H as <-. rewrite Nat.add_0_r. exact E.
  - exists [], (Reject e). split; [simpl; lia|]. split; [constructor|].
    split; [|apply retryLoop_throw; [exact E | right; lia]].
    intros [|j] o H; simpl in H; [|destruct j; discriminate].
    injection H as <-. rewrite Nat.add_0_r. exact E.
  - exists [], (Resolve resp). split; [simpl; lia|]. split; [constructor|].
    split; [|apply retryLoop_resolve; exact E].
    intros [|j] o H; simpl in H; [|destruct j; discriminate].
    injection H as <-. rewrite Nat.add_0_r. exact E.
  - destruct (isRateLimit e) eqn:R.
    + destruct (IH (S i) (d * (3 # 2))
                  (advance w 1 [EGenerate params (Reject e);
                                EWarn (i + 1) retries d; EDelay d]))
        as (errors & last & Hlen & Hrl & Hsc & Heq); [lia|].
      exists (e :: errors), last.
      split; [simpl; lia|]. split; [constructor; assumption|].
      split.
      * intros [|j] o H; simpl in H.
        -- injection H as <-. rewrite Nat.add_0_r. exact E.
        -- specialize (Hsc j o H). cbn [advance script calls] in Hsc.
           replace (calls w + S j)%nat with (calls w + 1 + j)%nat by lia.
           exact Hsc.
      * rewrite (@retryLoop_retry _ _ _ _ _ _ e E R) by lia.
        rewrite Heq, advance_advance. reflexivity.
    + exists [], (Reject e). split; [simpl; lia|]. split; [constructor|].
      split; [|apply retryLoop_throw; [exact E | left; exact R]].
      intros [|j] o H; simpl in H; [|destruct j; discriminate].
      injection H as <-. rewrite Nat.add_0_r. exact E.
Qed.

End RetryShape.

(** The wrapper, for any positive number of attempts. *)
Lemma generateWithRetry_cases (params : Params) (retries : nat)
    (initialDelay : Q) (w : World) :
  (1 <= retries)%nat ->
  exists errors last,
    (List.length errors < retries)%nat
    /\ Forall rateLimited errors
    /\ scripted (script w) (calls w) (List.map Reject errors ++ [last])
    /\ generateWithRetry params retries initialDelay w
       = (resultOf last,
          advance w (List.length errors + 1)
            (retryTrace params retries 0 initialDelay errors
             ++ [EGenerate params last]))
    /\ delaysOf (retryTrace params retries 0 initialDelay errors
                 ++ [EGenerate params last])
       = List.map (backoff initialDelay) (seq 0 (List.length errors)).
Proof.
  intros Hr. destruct retries as [|n]; [lia|].
  destruct (@retryLoop_shape params (S n) n 0%nat initialDelay w eq_refl)
    as (errors & last & Hlen & Hrl & Hsc & Heq).
  exists errors, last. split; [lia|]. repeat (split; [assumption|]).
  rewrite delaysOf_retryTrace_eq. cbn [delaysOf]. apply app_nil_r.
Qed.



(** X2: the error "Failed to generate content after retries. The API quota
    may be exhausted." is raised by the wrapper itself only when [retries] is
    0, and then without any remote call; with [retries >= 1] whatever the
    wrapper throws is the rejection of the last remote call it made. *)
Theorem generateWithRetry_throws_what_was_rejected (params : Params)
    (initialDelay : Q) (w : World) :
  generateWithRetry params 0 initialDelay w = (Throw quotaExhausted, w)
  /\ forall retries error w',
       (1 <= retries)%nat ->
       generateWithRetry params retries initialDelay w = (Throw error, w') ->
       (calls w < calls w' <= calls w + retries)%nat
       /\ script w (calls w' - 1) = Reject error
       /\ exists t, trace w' = trace w ++ t ++ [EGenerate params (Reject error)].
Proof.
  split; [reflexivity|].
  intros retries error w' Hr Hrun.
  destruct (@generateWithRetry_cases params retries initialDelay w Hr)
    as (errors & last & Hlen & _ & Hsc & Heq & _).
  rewrite Heq in Hrun. injection Hrun as Hres <-.
  destruct last as [resp | e]; [discriminate Hres|].
  injection Hres as ->. cbn [advance calls trace].
  split; [lia|]. split.
  - apply scripted_app_r in Hsc. rewrite length_map in Hsc.
    rewrite <- Hsc. f_equal. lia.
  - eexists. reflexivity.
Qed.

(** X2 at work: the endpoint answers 500 to the first call. *)
Lemma generateWithRetry_throws_what_was_rejected_witness :
  (calls (fresh (fun _ => Reject internalError))
   < calls (advance (fresh (fun _ => Reject internalError)) 1
              [EGenerate (codeParams []) (Reject internalError)])
   <= calls (fresh (fun _ => Reject internalError)) + 10)%nat
  /\ script (fresh (fun _ => Reject internalError))
       (calls (advance (fresh (fun _ => Reject internalError)) 1
                 [EGenerate (codeParams []) (Reject internalError)]) - 1)
     = Reject internalError
  /\ exists t,
       trace (advance (fresh (fun _ => Reject internalError)) 1
                [EGenerate (codeParams []) (Reject internalError)])
       = trace (fresh (fun _ => Reject internalError))
         ++ t ++ [EGenerate (codeParams []) (Reject internalError)].
Proof.
  apply (proj2 (@generateWithRetry_throws_what_was_rejected (codeParams [])
                  10000 (fresh (fun _ => Reject internalError)))
           10%nat internalError
           (advance (fresh (fun _ => Reject internalError)) 1
              [EGenerate (codeParams []) (Reject internalError)])).
  - lia.
  - reflexivity.
Defined.

Section BackoffFacts.

Lemma backoff_ge (k : nat) : forall d : Q, 0 <= d -> d <= backoff d k.
Proof.
  induction k as [|k IH]; intros d Hd; cbn [backoff].
  - apply Qle_refl.
  - apply Qle_trans with (d * (3 # 2)); [lra|]. apply IH. lra.
Qed.

Lemma totalOf_backoff_le (k : nat) :
  (k <= 9)%nat ->
  totalOf (List.map (backoff 10000) (seq 0 k)) <= 383420000 # 512.
Proof.
  intros H.
  assert (C : In k (seq 0 10)) by (apply in_seq; lia).
  simpl in C.
  repeat (destruct C as [<- | C]; [vm_compute; discriminate|]).
  destruct C.
Qed.

Lemma Forall_backoff_ge (k : nat) :
  Forall (fun d => 10000 <= d) (List.map (backoff 10000) (seq 0 k)).
Proof.
  apply Forall_forall. intros d Hd. apply in_map_iff in Hd.
  destruct Hd as (j & <- & _). apply backoff_ge. discriminate.
Qed.

End BackoffFacts.

(** X3: one invocation of the default wrapper makes at most ten remote
    calls and waits at most nine times; every wait lasts at least 10 s and all
    of them together at most 748867.1875 ms, about twelve and a half
    minutes. *)
Theorem generateWithRetry_total_wait (params : Params) (sc : nat -> Outcome) :
  (1 <= attempts (trace (snd (run (generateWithRetry' params) sc))) <= 10)%nat
  /\ (List.length (delaysOf (trace (snd (run (generateWithRetry' params) sc))))
      <= 9)%nat
  /\ Forall (fun d => 10000 <= d)
       (delaysOf (trace (snd (run (generateWithRetry' params) sc))))
  /\ totalOf (delaysOf (trace (snd (run (generateWithRetry' params) sc))))
     <= 383420000 # 512.
Proof.
  unfold run, generateWithRetry'.
  destruct (@generateWithRetry_cases params 10 10000 (fresh sc))
    as (errors & last & Hlen & _ & _ & Heq & Hd); [lia|].
  rewrite Heq. cbn [snd advance fresh trace app].
  rewrite Hd, attempts_retryTrace, length_map, length_seq.
  change (attempts [EGenerate params last]) with 1%nat.
  split; [lia|]. split; [lia|]. split.
  - apply Forall_backoff_ge.
  - apply totalOf_backoff_le. lia.
Qed.

(** X4: the classification is by substring: an error whose message holds
    "429" anywhere counts as a rate limit whatever its status, so an endpoint
    that keeps rejecting with such an error is called ten times before the
    error reaches the caller. *)
Theorem message_with_429_is_retried (params : Params) (sc : nat -> Outcome)
    (error : JsError) :
  messageContains error (u "429") ->
  (forall j, sc j = Reject error) ->
  rateLimited error
  /\ fst (run (generateWithRetry' params) sc) = Throw error
  /\ attempts (trace (snd (run (generateWithRetry' params) sc))) = 10%nat.
Proof.
  intros Hm Hsc.
  assert (R : rateLimited error) by (apply isRateLimit_spec; auto).
  split; [exact R|].
  unfold run, generateWithRetry'.
  rewrite (@generateWithRetry_settles params 10 10000 (fresh sc)
             (repeat error 9) (Reject error)).
  - cbn [fst snd advance fresh trace app resultOf]. split; [reflexivity|].
    rewrite attempts_retryTrace, repeat_length. reflexivity.
  - rewrite repeat_length. lia.
  - intros j o Hj. cbn [fresh script calls]. rewrite Hsc.
    assert (Hin : In o (List.map Reject (repeat error 9) ++ [Reject error])).
    { eapply nth_error_In. exact Hj. }
    apply in_app_or in Hin. destruct Hin as [Hin | [<- | []]]; [|reflexivity].
    apply in_map_iff in Hin. destruct Hin as (e & <- & He).
    apply repeat_spec in He. subst e. reflexivity.
  - apply Forall_forall. intros e He. apply repeat_spec in He. subst e. exact R.
  - intros e _. right. rewrite repeat_length. reflexivity.
Qed.

(** X4 at work: a 400 whose message names request 14290. *)
Lemma message_with_429_is_retried_witness :
  status badRequest = Some 400%Z
  /\ fst (run (generateWithRetry' (codeParams [])) (fun _ => Reject badRequest))
     = Throw badRequest
  /\ attempts (trace (snd (run (generateWithRetry' (codeParams []))
                             (fun _ => Reject badRequest)))) = 10%nat.
Proof.
  split; [reflexivity|].
  apply (@message_with_429_is_retried (codeParams [])
           (fun _ => Reject badRequest) badRequest).
  - exists (u "Request 14290 is malformed."), (u "Request 1"),
      (u "0 is malformed."). split; reflexivity.
  - reflexivity.
Defined.


(* ================================================================== *)
(** * More on the pipeline *)
(* ================================================================== *)

Section PipelineTraceFacts.

Variables fileBase64 mimeType : jsstring.

Lemma progressOf_app (t1 t2 : list Event) :
  progressOf (t1 ++ t2) = progressOf t1 ++ progressOf t2.
Proof.
  induction t1 as [|[] t1 IH]; simpl; rewrite ?IH; reflexivity.
Qed.

Lemma progressOf_retryTrace p r (errors : list JsError) :
  forall i d, progressOf (retryTrace p r i d errors) = [].
Proof. induction errors as [|e errors IH]; intros; simpl; auto. Qed.

Lemma progressOf_stageEvents step p errors o :
  progressOf (stageEvents step p errors o) = [step].
Proof.
  unfold stageEvents. cbn [progressOf].
  rewrite progressOf_app, progressOf_retryTrace. reflexivity.
Qed.

Lemma progressOf_stageTail n resp : progressOf (stageTail n resp) = [].
Proof. destruct (stageTail_cases n resp) as [-> | [-> | ->]]; reflexivity. Qed.

Lemma Completed_progress n b t :
  Completed fileBase64 mimeType n b t ->
  progressOf t = List.map stageStep (seq 1 n).
Proof.
  induction 1 as [|n b t errors resp HC IH Hn Hlen Hrl]; [reflexivity|].
  rewrite !progressOf_app, progressOf_stageEvents, progressOf_stageTail, IH.
  rewrite seq_S, map_app, app_nil_r. reflexivity.
Qed.

(** ** Waits between calls *)

Lemma spaced_app (t1 t2 : list Event) : forall r,
  spaced r (t1 ++ t2) = spaced r t1 && spaced (readyAfter r t1) t2.
Proof.
  induction t1 as [|e t1 IH]; intros r; [reflexivity|].
  destruct e; cbn [app spaced readyAfter]; rewrite IH; try reflexivity.
  apply andb_assoc.
Qed.

Lemma readyAfter_app (t1 t2 : list Event) : forall r,
  readyAfter r (t1 ++ t2) = readyAfter (readyAfter r t1) t2.
Proof.
  induction t1 as [|e t1 IH]; intros r; [reflexivity|].
  destruct e; cbn [app readyAfter]; apply IH.
Qed.

Lemma spaced_retryTrace p r (errors : list JsError) :
  forall i d (rest : list Event),
    10000 <= d ->
    spaced true (retryTrace p r i d errors ++ rest) = spaced true rest.
Proof.
  induction errors as [|e errors IH]; intros i d rest Hd; [reflexivity|].
  cbn [retryTrace app spaced andb orb].
  apply Qle_bool_iff in Hd. rewrite Hd. apply IH.
  apply Qle_bool_iff in Hd. lra.
Qed.

Lemma spaced_stageEvents step p errors o (rest : list Event) :
  spaced true (stageEvents step p errors o ++ rest) = spaced false rest.
Proof.
  unfold stageEvents. cbn [app spaced].
  rewrite <- app_assoc, spaced_retryTrace by discriminate. reflexivity.
Qed.

Lemma spaced_stageTail n resp (rest : list Event) :
  (1 <= n < 7)%nat ->
  spaced false (stageTail n resp ++ rest) = spaced true rest.
Proof.
  intros Hn.
  destruct n as [|[|[|[|[|[|[|n]]]]]]]; try lia; cbn [stageTail];
    try reflexivity.
  destruct (Json.parse (cleanJson (orElse (text resp) (u "[]")))); reflexivity.
Qed.

Lemma Completed_spaced n b t :
  Completed fileBase64 mimeType n b t ->
  forall rest, spaced true (t ++ rest) = spaced (negb (Nat.eqb n 7)) rest.
Proof.
  induction 1 as [|n b t errors resp HC IH Hn Hlen Hrl]; intros rest;
    [reflexivity|].
  rewrite <- !app_assoc, IH.
  replace (Nat.eqb n 7) with false by (symmetry; apply Nat.eqb_neq; lia).
  cbn [negb]. rewrite spaced_stageEvents.
  destruct (Nat.eq_dec n 6) as [-> | Hne]; [reflexivity|].
  replace (Nat.eqb (S n) 7) with false by (symmetry; apply Nat.eqb_neq; lia).
  apply spaced_stageTail. lia.
Qed.

(** ** Counting calls and waits *)

Lemma delaysOf_app (t1 t2 : list Event) :
  delaysOf (t1 ++ t2) = delaysOf t1 ++ delaysOf t2.
Proof.
  induction t1 as [|[] t1 IH]; simpl; rewrite ?IH; reflexivity.
Qed.

Lemma delaysOf_stageEvents step p errors o :
  List.length (delaysOf (stageEvents step p errors o)) = List.length errors.
Proof.
  unfold stageEvents. cbn [delaysOf]. rewrite delaysOf_retryTrace.
  simpl. lia.
Qed.

Lemma delaysOf_stageTail n resp :
  (1 <= n <= 7)%nat ->
  delaysOf (stageTail n resp) = if Nat.eqb n 7 then [] else [12000].
Proof.
  intros Hn.
  destruct n as [|[|[|[|[|[|[|[|n]]]]]]]]; try lia; cbn [stageTail];
    try reflexivity.
  destruct (Json.parse (cleanJson (orElse (text resp) (u "[]")))); reflexivity.
Qed.

Lemma Completed_counts n b t :
  Completed fileBase64 mimeType n b t ->
  (n <= attempts t <= 10 * n)%nat
  /\ (List.length (delaysOf t) + (if Nat.eqb n 7 then 1 else 0))%nat = attempts t.
Proof.
  induction 1 as [|n b t errors resp HC [IHa IHd] Hn Hlen Hrl].
  - split; [unfold attempts; simpl; lia | reflexivity].
  - rewrite !attempts_app, attempts_stageEvents, !delaysOf_app, !length_app,
      delaysOf_stageEvents, delaysOf_stageTail by lia.
    replace (Nat.eqb n 7) with false in IHd
      by (symmetry; apply Nat.eqb_neq; lia).
    assert (Ht : attempts (stageTail (S n) resp) = 0%nat)
      by (destruct (stageTail_cases (S n) resp) as [-> | [-> | ->]];
          reflexivity).
    rewrite Ht. split; [lia|].
    destruct (Nat.eqb (S n) 7); simpl; lia.
Qed.

End PipelineTraceFacts.

(** X5: the progress callback receives the notices "Step 1/7 ..." to
    "Step k/7 ..." in this order, each once; [k] is 7 when the run returns a
    bundle, and otherwise the stage in which the wrapper threw. *)
Theorem progress_notices_in_order (fileBase64 mimeType : jsstring)
    (sc : nat -> Outcome) :
  exists k,
    (1 <= k <= 7)%nat
    /\ progressOf (trace (snd (run (generateAnalysis fileBase64 mimeType) sc)))
       = List.map stageStep (seq 1 k)
    /\ match fst (run (generateAnalysis fileBase64 mimeType) sc) with
       | Ok _ => k = 7%nat
       | Throw _ => True
       end.
Proof.
  destruct (run_PipelineRun fileBase64 mimeType sc)
    as [b t HC | n b t errors error HC Hn Hlen Hrl Hlast].
  - exists 7%nat. split; [lia|]. split; [|reflexivity].
    apply (Completed_progress HC).
  - exists (S n). split; [lia|]. split; [|exact I].
    rewrite progressOf_app, progressOf_stageEvents, (Completed_progress HC).
    rewrite seq_S, map_app. reflexivity.
Qed.

(** X6: in every run, whether it returns or throws, each remote call after
    the first comes after a wait of at least ten seconds since the call
    before it: the pipeline never issues two calls back to back. *)
Theorem calls_are_spaced (fileBase64 mimeType : jsstring) (sc : nat -> Outcome) :
  spaced true (trace (snd (run (generateAnalysis fileBase64 mimeType) sc)))
  = true.
Proof.
  destruct (run_PipelineRun fileBase64 mimeType sc)
    as [b t HC | n b t errors error HC Hn Hlen Hrl Hlast].
  - rewrite <- (app_nil_r t), (Completed_spaced HC). reflexivity.
  - rewrite (Completed_spaced HC).
    replace (Nat.eqb n 7) with false by (symmetry; apply Nat.eqb_neq; lia).
    rewrite <- (app_nil_r (stageEvents _ _ _ _)), spaced_stageEvents.
    reflexivity.
Qed.

(** X7: a run that throws stops at the rejected call: the error it throws
    is the rejection of the last remote call, and nothing is sent, logged or
    awaited after it; a run that returns a bundle ends with the resolved call
    of stage 7. *)
Theorem run_ends_with_settling_call (fileBase64 mimeType : jsstring)
    (sc : nat -> Outcome) :
  match fst (run (generateAnalysis fileBase64 mimeType) sc) with
  | Throw error =>
      exists t p,
        trace (snd (run (generateAnalysis fileBase64 mimeType) sc))
        = t ++ [EGenerate p (Reject error)]
  | Ok b =>
      exists t resp,
        trace (snd (run (generateAnalysis fileBase64 mimeType) sc))
        = t ++ [EGenerate (validationParams fileBase64 mimeType (summary b)
                             (critique b) (experimentPlan b))
                  (Resolve resp)]
  end.
Proof.
  destruct (run_PipelineRun fileBase64 mimeType sc)
    as [b t HC | n b t errors error HC Hn Hlen Hrl Hlast].
  - inversion HC as [|n b0 t0 errors resp HC0 Hn Hlen Hrl Hn7 Hb Ht]; subst.
    unfold stageEvents. cbn [stageTail stageUpdate summary critique
                               experimentPlan stageParams].
    rewrite app_nil_r, app_comm_cons, !app_assoc. eexists _, _. reflexivity.
  - unfold stageEvents. rewrite app_comm_cons, !app_assoc.
    eexists _, _. reflexivity.
Qed.

(** X8: a run makes at most seventy remote calls, and at least seven when
    it returns a bundle; the number of waits is always one less than the
    number of calls. *)
Theorem calls_and_waits_counted (fileBase64 mimeType : jsstring)
    (sc : nat -> Outcome) :
  (1 <= attempts (trace (snd (run (generateAnalysis fileBase64 mimeType) sc)))
   <= 70)%nat
  /\ (List.length
        (delaysOf (trace (snd (run (generateAnalysis fileBase64 mimeType) sc))))
      + 1)%nat
     = attempts (trace (snd (run (generateAnalysis fileBase64 mimeType) sc)))
  /\ match fst (run (generateAnalysis fileBase64 mimeType) sc) with
     | Ok _ =>
         (7 <= attempts
                 (trace (snd (run (generateAnalysis fileBase64 mimeType) sc))))%nat
     | Throw _ => True
     end.
Proof.
  destruct (run_PipelineRun fileBase64 mimeType sc)
    as [b t HC | n b t errors error HC Hn Hlen Hrl Hlast].
  - destruct (Completed_counts HC) as [Ha Hd]. cbn [Nat.eqb] in Hd.
    split; [lia|]. split; [exact Hd | lia].
  - destruct (Completed_counts HC) as [Ha Hd].
    replace (Nat.eqb n 7) with false in Hd
      by (symmetry; apply Nat.eqb_neq; lia).
    rewrite attempts_app, attempts_stageEvents, delaysOf_app, length_app,
      delaysOf_stageEvents.
    split; [lia|]. split; [lia | exact I].
Qed.

(** X9: every request names the model [gemini-3-pro-preview]; only the
    requests of stage 5 ask for a structured answer, with MIME type
    [application/json] and the schema of the slide list. *)
Theorem structured_output_only_in_stage_5 (fileBase64 mimeType : jsstring)
    (sc : nat -> Outcome) :
  Forall (fun kq =>
      model (snd kq) = MODEL_NAME
      /\ responseMimeTypeIn (snd kq)
         = (if Nat.eqb (fst kq) 5 then Some (u "application/json") else None)
      /\ responseSchemaIn (snd kq)
         = (if Nat.eqb (fst kq) 5 then Some slidesSchema else None))
    (stageCalls 0 (trace (snd (run (generateAnalysis fileBase64 mimeType) sc)))).
Proof.
  destruct (PipelineRun_calls (run_PipelineRun fileBase64 mimeType sc))
    as (b & _ & _ & Hcalls).
  eapply Forall_impl; [|exact Hcalls]. cbv beta.
  intros [k q] [Hk ->]. cbn [fst snd] in *.
  destruct k as [|[|[|[|[|[|[|[|k]]]]]]]]; try lia; repeat split.
Qed.

(* ================================================================== *)
(** * More on [cleanCode] and [cleanJson] *)
(* ================================================================== *)

Section TrimFacts.

Lemma dropSpaces_split (s : jsstring) :
  exists ws, spaces ws /\ s = ws ++ dropSpaces s.
Proof.
  induction s as [|c s (ws & Hws & Hs)]; [exists []; split; reflexivity|].
  cbn [dropSpaces]. destruct (is_space c) eqn:Hc.
  - exists (c :: ws). split; [|cbn [app]; congruence].
    unfold spaces in *. cbn [forallb]. rewrite Hc, Hws. reflexivity.
  - exists []. split; reflexivity.
Qed.

Lemma dropSpaces_head_nonspace (s : jsstring) (c : jschar) (r : jsstring) :
  dropSpaces s = c :: r -> is_space c = false.
Proof.
  induction s as [|x s IH]; cbn [dropSpaces]; [discriminate|].
  destruct (is_space x) eqn:Hx; [exact IH|].
  intros [= <- _]. exact Hx.
Qed.

Lemma dropSpaces_idem (s : jsstring) : dropSpaces (dropSpaces s) = dropSpaces s.
Proof.
  destruct (dropSpaces s) as [|c r] eqn:E; [reflexivity|].
  apply dropSpaces_head. eapply dropSpaces_head_nonspace. exact E.
Qed.

(** [trim] leaves a trimmed string alone. *)
Lemma trim_idem (s : jsstring) : trim (trim s) = trim s.
Proof.
  unfold trim.
  set (a := dropSpaces s). set (b := dropSpaces (rev a)).
  assert (Hb : dropSpaces b = b) by apply dropSpaces_idem.
  assert (Hr : dropSpaces (rev b) = rev b).
  { destruct (rev b) as [|c r] eqn:Erb; [reflexivity|].
    apply dropSpaces_head.
    destruct (dropSpaces_split (rev a)) as (ws & Hws & Hra). fold b in Hra.
    apply (f_equal (@rev _)) in Hra.
    rewrite rev_involutive, rev_app_distr, Erb in Hra.
    cbn [app] in Hra. eapply (@dropSpaces_head_nonspace s). fold a.
    exact Hra. }
  rewrite Hr, rev_involutive, Hb. reflexivity.
Qed.

Lemma noBacktick_head (s : jsstring) : noBacktick s -> headNotBacktick s.
Proof.
  unfold noBacktick. destruct s as [|c s]; cbn; [auto|].
  rewrite andb_true_iff, negb_true_iff. tauto.
Qed.

End TrimFacts.

(** X10: what [cleanCode] and [cleanJson] return never starts or ends with
    white space: trimming it again changes nothing. *)
Theorem cleaned_text_is_trimmed (text : jsstring) :
  trim (cleanCode text) = cleanCode text
  /\ trim (cleanJson text) = cleanJson text.
Proof. split; apply trim_idem. Qed.

(** Without a backtick there is nothing to strip. *)
Lemma clean_unfenced (text : jsstring) :
  noBacktick text ->
  cleanCode text = trim text /\ cleanJson text = trim text.
Proof.
  intros H. pose proof (noBacktick_head H) as Hh.
  unfold cleanCode, cleanJson.
  change (u "```python") with (backtick :: u "``python").
  change (u "```json") with (backtick :: u "``json").
  change fence with (backtick :: u "``").
  rewrite !(@replaceLeading_unfenced true) by exact Hh.
  rewrite !(@replaceLeading_unfenced false) by exact Hh.
  change (backtick :: u "``") with fence.
  rewrite replaceTrailing_none by exact H. split; reflexivity.
Qed.

(** X11: a text without any backtick holds no fence, and [cleanCode] and
    [cleanJson] only trim it. *)
Theorem unfenced_text_is_only_trimmed (text : jsstring) :
  noBacktick text ->
  cleanCode text = trim text /\ cleanJson text = trim text.
Proof. apply clean_unfenced. Qed.

(** X11 at work: code the model returned without fences. *)
Lemma unfenced_text_is_only_trimmed_witness :
  cleanCode (LF ++ u "import numpy as np" ++ LF) = trim (LF ++ u "import numpy as np" ++ LF)
  /\ cleanJson (LF ++ u "import numpy as np" ++ LF)
     = trim (LF ++ u "import numpy as np" ++ LF).
Proof.
  apply (@unfenced_text_is_only_trimmed (LF ++ u "import numpy as np" ++ LF)).
  reflexivity.
Defined.

(** X12: [cleanJson] frees a fenced answer: for a trimmed body without
    backticks, wrapped in the fence tagged [json] (in any letter case), white
    space and a closing fence, it returns the body, so stage 5 stores the same
    slides for the fenced answer as for the bare body. *)
Theorem cleanJson_strips_fences (tag ws1 body ws2 ws3 : jsstring) :
  List.length tag = 7%nat -> startsWith_ci tag (u "```json") = true ->
  spaces ws1 -> spaces ws2 -> spaces ws3 ->
  noBacktick body -> trim body = body -> body <> [] ->
  cleanJson (tag ++ ws1 ++ body ++ ws2 ++ fence ++ ws3) = body
  /\ slidesOf (Some (tag ++ ws1 ++ body ++ ws2 ++ fence ++ ws3))
     = slidesOf (Some body).
Proof.
  intros Hlen Htag H1 H2 H3 Hbt Htrim Hne.
  destruct (trim_fixed_head Htrim Hne) as (c & b & Hb & Hc).
  assert (Hcb : eqb_char c backtick = false).
  { unfold noBacktick in Hbt. rewrite Hb in Hbt. simpl in Hbt.
    rewrite andb_true_iff, negb_true_iff in Hbt. tauto. }
  assert (E : cleanJson (tag ++ ws1 ++ body ++ ws2 ++ fence ++ ws3) = body).
  { unfold cleanJson. unfold replaceLeading at 2.
    rewrite startsWith_ci_app by assumption.
    change (List.length (u "```json")) with 7%nat. rewrite <- Hlen.
    rewrite skipn_length_app, dropSpaces_spaces by assumption.
    rewrite Hb at 1. cbn [app]. rewrite dropSpaces_head by assumption.
    change (replaceLeading false fence)
      with (replaceLeading false (backtick :: u "``")).
    rewrite replaceLeading_unfenced by exact Hcb.
    change (c :: b ++ ws2 ++ fence ++ ws3) with ((c :: b) ++ ws2 ++ fence ++ ws3).
    rewrite <- Hb.
    replace (body ++ ws2 ++ fence ++ ws3) with ((body ++ ws2) ++ fence ++ ws3)
      by (rewrite <- app_assoc; reflexivity).
    rewrite replaceTrailing_fence;
      [| apply noBacktick_app; auto using spaces_noBacktick | assumption].
    apply (@trim_padded [] body ws2); auto. reflexivity. }
  split; [exact E|].
  unfold slidesOf.
  assert (O1 : orElse (Some (tag ++ ws1 ++ body ++ ws2 ++ fence ++ ws3)) (u "[]")
               = tag ++ ws1 ++ body ++ ws2 ++ fence ++ ws3).
  { destruct tag; [discriminate Hlen | reflexivity]. }
  assert (O2 : orElse (Some body) (u "[]") = body)
    by (destruct body; [congruence | reflexivity]).
  rewrite O1, O2, E.
  replace (cleanJson body) with body; [reflexivity|].
  symmetry. rewrite <- (app_nil_r body).
  destruct (@clean_unfenced (body ++ []))
    as [_ ->]; rewrite app_nil_r; auto.
Qed.

(** X12 at work: an empty slide list in a fence. *)
Lemma cleanJson_strips_fences_witness :
  cleanJson (u "```JSON" ++ LF ++ u "[]" ++ LF ++ fence ++ []) = u "[]"
  /\ slidesOf (Some (u "```JSON" ++ LF ++ u "[]" ++ LF ++ fence ++ []))
     = slidesOf (Some (u "[]")).
Proof.
  apply (@cleanJson_strips_fences (u "```JSON") LF (u "[]") LF []);
    try reflexivity.
  discriminate.
Defined.

(* ================================================================== *)
(** * More on the bundle *)
(* ================================================================== *)

Section BundleFacts.

Variables fileBase64 mimeType : jsstring.

Lemma orElse_nonempty (x : option jsstring) (d : jsstring) :
  d <> [] -> orElse x d <> [].
Proof. destruct x as [[|c s]|]; cbn; congruence. Qed.

Lemma orElse_text (c : jschar) (s d : jsstring) : orElse (Some (c :: s)) d = c :: s.
Proof. reflexivity. Qed.

(** One stage whose first attempt resolves. *)
Lemma stage_resolved {B} (step : jsstring) (p : Params)
    (K : GenerateContentResponse -> M B) (w : World) (n : nat)
    (t : list Event) (resp : GenerateContentResponse) :
  script w (calls w + n) = Resolve resp ->
  bind (emit (EProgress step)) (fun _ => bind (generateWithRetry' p) K)
    (advance w n t)
  = K resp (advance w (n + 1)
              (t ++ [EProgress step; EGenerate p (Resolve resp)])).
Proof.
  intros H. rewrite bind_emit. unfold bind at 1.
  unfold generateWithRetry', generateWithRetry.
  rewrite (@retryLoop_resolve p 10 9 0 10000 _ resp).
  - rewrite !advance_advance. reflexivity.
  - cbn [advance script calls]. rewrite Nat.add_0_r. exact H.
Qed.

End BundleFacts.

(** X13: in a bundle the five prose fields (summary, critique, experiment
    plan, interpretation, validation report) are never empty, and each holds
    the text of the response that resolved its stage, verbatim, whenever that
    text is not empty. *)
Theorem prose_fields_verbatim (fileBase64 mimeType : jsstring)
    (sc : nat -> Outcome) (b : AnalysisResult) (w : World) :
  run (generateAnalysis fileBase64 mimeType) sc = (Ok b, w) ->
  Forall (fun k =>
      stageOutput k b <> []
      /\ exists resp post,
           afterResolved k 0 (trace w) = Some (resp, post)
           /\ match text resp with
              | Some (c :: s) => stageOutput k b = c :: s
              | _ => stageOutput k b = placeholder k
              end)
    [1; 2; 3; 6; 7]%nat.
Proof.
  intros Hrun.
  pose proof (run_PipelineRun fileBase64 mimeType sc) as HR.
  rewrite Hrun in HR. cbn [fst snd] in HR.
  assert (G : forall k, (1 <= k <= 7)%nat -> k <> 4%nat -> k <> 5%nat ->
            stageOutput k b <> []
            /\ exists resp post,
                 afterResolved k 0 (trace w) = Some (resp, post)
                 /\ match text resp with
                    | Some (c :: s) => stageOutput k b = c :: s
                    | _ => stageOutput k b = placeholder k
                    end).
  { intros k Hk H4 H5.
    destruct (PipelineRun_resolved HR Hk) as (resp & post & E).
    destruct (@PipelineRun_read _ _ _ _ _ _ _ HR E) as (_ & Hu & _).
    specialize (Hu b eq_refl).
    assert (Hout : stageOutput k b = orElse (text resp) (placeholder k)).
    { destruct k as [|[|[|[|[|[|[|[|k]]]]]]]]; try lia; try congruence;
        cbn [stageOutput];
        [ apply (f_equal summary) in Hu
        | apply (f_equal critique) in Hu
        | apply (f_equal experimentPlan) in Hu
        | apply (f_equal experimentInterpretation) in Hu
        | apply (f_equal validationReport) in Hu ];
        symmetry; exact Hu. }
    split.
    - rewrite Hout. apply orElse_nonempty.
      destruct k as [|[|[|[|[|[|[|[|k]]]]]]]]; discriminate.
    - exists resp, post. split; [exact E|].
      rewrite Hout. destruct (text resp) as [[|c s]|]; reflexivity. }
  repeat constructor; apply G; lia.
Qed.

(** X13 at work: the run without text. *)
Lemma prose_fields_verbatim_witness :
  exists b, fst (run (generateAnalysis paper pdf) noText) = Ok b
            /\ summary b <> [].
Proof.
  destruct (run (generateAnalysis paper pdf) noText) as [r w] eqn:E.
  assert (Hr : r = fst (run (generateAnalysis paper pdf) noText))
    by (rewrite E; reflexivity).
  vm_compute in Hr. subst r.
  eexists. split; [reflexivity|].
  pose proof (@prose_fields_verbatim paper pdf noText _ w E) as H.
  inversion H as [|k l [Hne _] _]. exact Hne.
Defined.

(** X14: the code field of a bundle is [cleanCode] of the text that
    resolved stage 4 (of "# Failed to generate code." when there is none), and
    it never starts or ends with white space. *)
Theorem code_field_is_cleaned (fileBase64 mimeType : jsstring)
    (sc : nat -> Outcome) (b : AnalysisResult) (w : World) :
  run (generateAnalysis fileBase64 mimeType) sc = (Ok b, w) ->
  trim (pythonCode b) = pythonCode b
  /\ exists resp post,
       afterResolved 4 0 (trace w) = Some (resp, post)
       /\ pythonCode b
          = cleanCode (orElse (text resp) (u "# Failed to generate code.")).
Proof.
  intros Hrun.
  pose proof (run_PipelineRun fileBase64 mimeType sc) as HR.
  rewrite Hrun in HR. cbn [fst snd] in HR.
  destruct (PipelineRun_resolved (k := 4) HR) as (resp & post & E); [lia|].
  destruct (@PipelineRun_read _ _ _ _ _ _ _ HR E) as (_ & Hu & _).
  specialize (Hu b eq_refl). apply (f_equal pythonCode) in Hu.
  cbn [stageUpdate pythonCode placeholder] in Hu.
  split.
  - rewrite <- Hu. apply trim_idem.
  - exists resp, post. split; [exact E | symmetry; exact Hu].
Qed.

(** X14 at work: the run without text. *)
Lemma code_field_is_cleaned_witness :
  exists b, fst (run (generateAnalysis paper pdf) noText) = Ok b
            /\ trim (pythonCode b) = pythonCode b.
Proof.
  destruct (run (generateAnalysis paper pdf) noText) as [r w] eqn:E.
  assert (Hr : r = fst (run (generateAnalysis paper pdf) noText))
    by (rewrite E; reflexivity).
  vm_compute in Hr. subst r.
  eexists. split; [reflexivity|].
  apply (proj1 (@code_field_is_cleaned paper pdf noText _ w E)).
Defined.

(** X15: when the first seven remote calls resolve, the run returns the
    bundle built from their texts, stage by stage; it makes exactly seven
    calls and waits exactly six times, 12 s each. *)
Theorem all_resolved_end_to_end (fileBase64 mimeType : jsstring)
    (sc : nat -> Outcome) (r : nat -> GenerateContentResponse) :
  (forall j, (j < 7)%nat -> sc j = Resolve (r j)) ->
  exists w,
    run (generateAnalysis fileBase64 mimeType) sc
    = (Ok {| summary := orElse (text (r 0%nat)) (u "Failed to generate summary.");
             critique := orElse (text (r 1%nat)) (u "Failed to generate critique.");
             experimentPlan :=
               orElse (text (r 2%nat)) (u "Failed to generate experiment plan.");
             pythonCode :=
               cleanCode (orElse (text (r 3%nat)) (u "# Failed to generate code."));
             experimentInterpretation :=
               orElse (text (r 5%nat)) (u "Failed to generate interpretation.");
             validationReport :=
               orElse (text (r 6%nat)) (u "Validation check failed.");
             slides := slidesOf (text (r 4%nat)) |}, w)
    /\ calls w = 7%nat
    /\ attempts (trace w) = 7%nat
    /\ delaysOf (trace w) = [12000; 12000; 12000; 12000; 12000; 12000].
Proof.
  intros Hsc. unfold run.
  replace (fresh sc) with (advance (fresh sc) 0 [])
    by (apply advance_0_nil).
  unfold generateAnalysis.
  rewrite (@stage_resolved _ _ _ _ _ _ _ (r 0%nat)) by (apply (Hsc 0%nat); lia).
  cbv beta zeta. rewrite bind_delay. cbv beta. rewrite advance_advance.
  rewrite (@stage_resolved _ _ _ _ _ _ _ (r 1%nat)) by (apply (Hsc 1%nat); lia).
  cbv beta zeta. rewrite bind_delay. cbv beta. rewrite advance_advance.
  rewrite (@stage_resolved _ _ _ _ _ _ _ (r 2%nat)) by (apply (Hsc 2%nat); lia).
  cbv beta zeta. rewrite bind_delay. cbv beta. rewrite advance_advance.
  rewrite (@stage_resolved _ _ _ _ _ _ _ (r 3%nat)) by (apply (Hsc 3%nat); lia).
  cbv beta zeta. rewrite bind_delay. cbv beta. rewrite advance_advance.
  rewrite (@stage_resolved _ _ _ _ _ _ _ (r 4%nat)) by (apply (Hsc 4%nat); lia).
  cbv beta zeta. rewrite bind_parseSlides.
  rewrite (@stage_resolved _ _ _ _ _ _ _ (r 5%nat)) by (apply (Hsc 5%nat); lia).
  cbv beta zeta. rewrite bind_delay. cbv beta. rewrite advance_advance.
  rewrite (@stage_resolved _ _ _ _ _ _ _ (r 6%nat)) by (apply (Hsc 6%nat); lia).
  cbv beta zeta. unfold ret.
  eexists. split; [reflexivity|].
  cbn [advance fresh calls trace]. split; [reflexivity|].
  unfold stageTail.
  destruct (Json.parse (cleanJson (orElse (text (r 4%nat)) (u "[]"))));
    split; reflexivity.
Qed.

(** X15 at work: the run without text. *)
Lemma all_resolved_end_to_end_witness :
  exists w,
    fst (run (generateAnalysis paper pdf) noText)
    = fst (Ok {| summary := u "Failed to generate summary.";
                 critique := u "Failed to generate critique.";
                 experimentPlan := u "Failed to generate experiment plan.";
                 pythonCode := u "# Failed to generate code.";
                 experimentInterpretation := u "Failed to generate interpretation.";
                 validationReport := u "Validation check failed.";
                 slides := JArray [] |}, w)
    /\ calls w = 7%nat.
Proof.
  destruct (@all_resolved_end_to_end paper pdf noText (fun _ => {| text := None |}))
    as (w & E & C & _).
  - reflexivity.
  - exists w. split; [|exact C]. rewrite E. cbn [fst]. reflexivity.
Defined.

(* ================================================================== *)
(** * [split] *)
(* ================================================================== *)

Section SplitFacts.

Lemma splitAux_skip (sep s cur : jsstring) : forall k,
  splitAux sep s cur k = splitAux sep (skipn k s) cur 0.
Proof.
  induction s as [|c s IH]; intros [|k]; try reflexivity.
  cbn [splitAux skipn]. apply IH.
Qed.



(** A text without the separator is one piece. *)
Lemma splitAux_no_match (sep s : jsstring) : forall cur,
  includes s sep = false -> splitAux sep s cur 0 = [rev cur ++ s].
Proof.
  induction s as [|c s IH]; intros cur H.
  - cbn. rewrite app_nil_r. reflexivity.
  - cbn [includes] in H. apply orb_false_iff in H. destruct H as [H1 H2].
    cbn [splitAux]. rewrite H1, (IH _ H2). cbn [rev].
    rewrite <- app_assoc. reflexivity.
Qed.

(** The piece before the first separator. *)
Lemma splitAux_prefix (sep b : jsstring) : forall a cur,
  sep <> [] ->
  (forall j, (j < List.length a)%nat ->
             startsWith (skipn j (a ++ sep ++ b)) sep = false) ->
  splitAux sep (a ++ sep ++ b) cur 0 = (rev cur ++ a) :: splitAux sep b [] 0.
Proof.
  induction a as [|x a IH]; intros cur Hsep H.
  - rewrite app_nil_r. cbn [app]. destruct sep as [|c sep]; [congruence|].
    change ((c :: sep) ++ b) with (c :: (sep ++ b)).
    cbn [splitAux].
    change (c :: sep ++ b) with ((c :: sep) ++ b). rewrite startsWith_app.
    f_equal. rewrite splitAux_skip. cbn [List.length].
    replace (S (List.length sep) - 1)%nat with (List.length sep) by lia.
    rewrite skipn_app, skipn_all, Nat.sub_diag. reflexivity.
  - change ((x :: a) ++ sep ++ b) with (x :: (a ++ sep ++ b)).
    cbn [splitAux].
    assert (H0 := H 0%nat ltac:(cbn; lia)). cbn [skipn] in H0.
    change ((x :: a) ++ sep ++ b) with (x :: (a ++ sep ++ b)) in H0.
    rewrite H0, IH.
    + cbn [rev]. rewrite <- app_assoc. reflexivity.
    + exact Hsep.
    + intros j Hj. apply (H (S j)). cbn. lia.
Qed.

Lemma includes_false_skipn (s needle : jsstring) :
  includes s needle = false ->
  forall j, startsWith (skipn j s) needle = false.
Proof.
  induction s as [|x s IH]; intros H j.
  - cbn [includes] in H. rewrite orb_false_r in H.
    destruct j; exact H.
  - cbn [includes] in H. apply orb_false_iff in H. destruct H as [H1 H2].
    destruct j; [exact H1|]. apply (IH H2).
Qed.




(** With a separator of one character: as many pieces as occurrences, and
    one more. *)
Lemma splitAux_length (c : jschar) (s : jsstring) : forall cur,
  List.length (splitAux [c] s cur 0) = S (count_occ N.eq_dec s c).
Proof.
  induction s as [|x s IH]; intros cur; [reflexivity|].
  cbn [splitAux startsWith List.length Nat.sub count_occ].
  unfold eqb_char. rewrite andb_true_r.
  destruct (N.eq_dec x c) as [-> | Hne].
  - rewrite N.eqb_refl. cbn [List.length]. rewrite IH. reflexivity.
  - apply N.eqb_neq in Hne. rewrite Hne. apply IH.
Qed.

Lemma no_char_prefix (c : jschar) (b : jsstring) : forall a j,
  ~ In c a -> (j < List.length a)%nat ->
  startsWith (skipn j (a ++ [c] ++ b)) [c] = false.
Proof.
  induction a as [|x a IH]; intros j Hin Hj; [cbn in Hj; lia|].
  destruct j as [|j].
  - cbn. unfold eqb_char. rewrite andb_true_r. apply N.eqb_neq.
    intros ->. apply Hin. left. reflexivity.
  - cbn [skipn app]. apply IH; [|cbn in Hj; lia].
    intros Hc. apply Hin. right. exact Hc.
Qed.

Lemma no_char_includes (c : jschar) (s : jsstring) :
  ~ In c s -> includes s [c] = false.
Proof.
  induction s as [|x s IH]; intros Hin; [reflexivity|].
  cbn [includes startsWith]. unfold eqb_char. rewrite andb_true_r.
  apply orb_false_iff. split.
  - apply N.eqb_neq. intros ->. apply Hin. left. reflexivity.
  - apply IH. intros Hc. apply Hin. right. exact Hc.
Qed.

(** The two pieces of a text with one separating character. *)
Lemma split_two (c : jschar) (a b : jsstring) :
  ~ In c a -> ~ In c b -> split [c] (a ++ [c] ++ b) = [a; b].
Proof.
  intros Ha Hb. unfold split.
  rewrite splitAux_prefix; [|discriminate|intros j Hj; apply no_char_prefix; assumption].
  rewrite splitAux_no_match by (apply no_char_includes; exact Hb).
  reflexivity.
Qed.

End SplitFacts.

(* ================================================================== *)
(** * MarkdownView: bold spans *)
(* ================================================================== *)

Section BoldFacts.

Lemma splitBoldAux_skip (s cur : jsstring) : forall k,
  Markdown.splitBoldAux s cur k = Markdown.splitBoldAux (skipn k s) cur 0.
Proof.
  induction s as [|c s IH]; intros [|k]; try reflexivity.
  cbn [Markdown.splitBoldAux skipn]. apply IH.
Qed.

Lemma boldMatch_ge (s : jsstring) (len : nat) :
  Markdown.boldMatch s = Some len -> (4 <= len)%nat.
Proof.
  unfold Markdown.boldMatch. destruct (startsWith s (u "**")); [|discriminate].
  destruct (Markdown.closing (skipn 2 s)); cbn; [|discriminate].
  intros [= <-]. lia.
Qed.

Lemma concat_splitBoldAux (s : jsstring) : forall cur k,
  List.concat (Markdown.splitBoldAux s cur k) = rev cur ++ skipn k s.
Proof.
  induction s as [|c s IH]; intros cur k.
  - rewrite skipn_nil. reflexivity.
  - destruct k as [|k]; cbn [Markdown.splitBoldAux skipn]; [|apply IH].
    destruct (Markdown.boldMatch (c :: s)) as [len|] eqn:E.
    + apply boldMatch_ge in E. destruct len as [|len]; [lia|].
      cbn [List.concat firstn]. rewrite IH. cbn [rev app].
      replace (S len - 1)%nat with len by lia.
      rewrite firstn_skipn. reflexivity.
    + rewrite IH. cbn [rev skipn]. rewrite <- app_assoc. reflexivity.
Qed.

Lemma star_head (x : jschar) (s : jsstring) :
  x <> 42%N -> startsWith (x :: s) (u "**") = false.
Proof.
  intros H. change (u "**") with [42%N; 42%N]. cbn [startsWith].
  unfold eqb_char at 1. apply N.eqb_neq in H. rewrite H. reflexivity.
Qed.

Lemma boldMatch_not_star (x : jschar) (s : jsstring) :
  x <> 42%N -> Markdown.boldMatch (x :: s) = None.
Proof.
  intros H. unfold Markdown.boldMatch. rewrite (star_head s H). reflexivity.
Qed.

(** Text without an asterisk goes to the piece being read. *)
Lemma splitBoldAux_plain (a : jsstring) : forall rest cur,
  ~ In 42%N a ->
  Markdown.splitBoldAux (a ++ rest) cur 0
  = Markdown.splitBoldAux rest (rev a ++ cur) 0.
Proof.
  induction a as [|x a IH]; intros rest cur Hin; [reflexivity|].
  cbn [app Markdown.splitBoldAux].
  rewrite boldMatch_not_star by (intros ->; apply Hin; left; reflexivity).
  rewrite IH by (intros Hc; apply Hin; right; exact Hc).
  cbn [rev]. rewrite <- app_assoc. reflexivity.
Qed.

Lemma renderPart_plain (a : jsstring) :
  ~ In 42%N a -> Markdown.renderPart a = Markdown.Plain a.
Proof.
  intros Hin. unfold Markdown.renderPart. destruct a as [|x a].
  - reflexivity.
  - rewrite star_head by (intros ->; apply Hin; left; reflexivity).
    reflexivity.
Qed.

Lemma closing_found (c : jsstring) : forall b,
  ~ In 42%N b -> Forall (fun x => Markdown.isLineTerminator x = false) b ->
  Markdown.closing (b ++ u "**" ++ c) = Some (List.length b).
Proof.
  induction b as [|x b IH]; intros Hin Hlt.
  - change (u "**") with [42%N; 42%N]. reflexivity.
  - cbn [app Markdown.closing].
    rewrite star_head by (intros ->; apply Hin; left; reflexivity).
    inversion Hlt as [|? ? Hx Hb]; subst. rewrite Hx.
    rewrite IH; [reflexivity | | exact Hb].
    intros Hc. apply Hin. right. exact Hc.
Qed.

Lemma firstn_length_app (A : Type) (x y : list A) :
  firstn (List.length x) (x ++ y) = x.
Proof.
  rewrite firstn_app, Nat.sub_diag, firstn_all. cbn. apply app_nil_r.
Qed.

Lemma renderPart_strong (b : jsstring) :
  Markdown.renderPart (u "**" ++ b ++ u "**") = Markdown.Strong b.
Proof.
  unfold Markdown.renderPart. rewrite startsWith_app.
  unfold endsWith. rewrite !rev_app_distr.
  change (rev (u "**")) with (u "**").
  rewrite <- app_assoc, startsWith_app. cbn [andb].
  unfold slice2. change (u "**") with [42%N; 42%N].
  cbn [app skipn List.length].
  rewrite length_app. cbn [List.length].
  replace (S (S (List.length b + 2)) - 4)%nat with (List.length b) by lia.
  rewrite firstn_length_app. reflexivity.
Qed.

Lemma parseLineWithBold_some (text : jsstring) :
  text <> [] ->
  Markdown.parseLineWithBold text
  = Some (List.map Markdown.renderPart (Markdown.splitBold text)).
Proof. destruct text; [congruence | reflexivity]. Qed.

Lemma splitBold_span (a b c : jsstring) :
  ~ In 42%N a -> ~ In 42%N b ->
  Forall (fun x => Markdown.isLineTerminator x = false) b ->
  Markdown.splitBold (a ++ u "**" ++ b ++ u "**" ++ c)
  = a :: (u "**" ++ b ++ u "**") :: Markdown.splitBold c.
Proof.
  intros Ha Hb Hlt. unfold Markdown.splitBold.
  rewrite splitBoldAux_plain by exact Ha. rewrite app_nil_r.
  assert (E : Markdown.boldMatch (u "**" ++ b ++ u "**" ++ c)
              = Some (List.length (u "**" ++ b ++ u "**"))).
  { unfold Markdown.boldMatch. rewrite startsWith_app.
    change (skipn 2 (u "**" ++ b ++ u "**" ++ c)) with (b ++ u "**" ++ c).
    rewrite closing_found by assumption. cbn [option_map].
    rewrite !length_app. change (List.length (u "**")) with 2%nat.
    f_equal. unfold jsstring, jschar in *. lia. }
  remember (u "**" ++ b ++ u "**") as m eqn:Em.
  assert (Eq : u "**" ++ b ++ u "**" ++ c = m ++ c).
  { subst m. rewrite <- !app_assoc. reflexivity. }
  rewrite Eq in *.
  assert (Hlen : (1 <= List.length m)%nat).
  { subst m. change (u "**") with [42%N; 42%N]. cbn. lia. }
  destruct m as [|x m]; [cbn in Hlen; lia|].
  cbn [app Markdown.splitBoldAux]. cbn [app] in E. rewrite E.
  rewrite rev_involutive. f_equal. f_equal.
  - change (x :: m ++ c) with ((x :: m) ++ c). apply firstn_length_app.
  - rewrite splitBoldAux_skip. cbn [List.length].
    replace (S (List.length m) - 1)%nat with (List.length m) by lia.
    rewrite skipn_length_app. reflexivity.
Qed.

End BoldFacts.

(** X16: [parseLineWithBold] cuts a line at its bold spans without losing a
    character: the parts, markers included, put together give the line. *)
Theorem bold_split_loses_nothing (text : jsstring) :
  List.concat (Markdown.splitBold text) = text.
Proof.
  unfold Markdown.splitBold. rewrite concat_splitBoldAux. reflexivity.
Qed.

(** X17: a line without an asterisk is rendered as one piece of plain text,
    the line itself. *)
Theorem text_without_asterisk_is_plain (text : jsstring) :
  text <> [] -> ~ In 42%N text ->
  Markdown.parseLineWithBold text = Some [Markdown.Plain text].
Proof.
  intros Hne Hin. rewrite parseLineWithBold_some by exact Hne.
  unfold Markdown.splitBold.
  rewrite <- (app_nil_r text) at 1. rewrite splitBoldAux_plain by exact Hin.
  cbn [Markdown.splitBoldAux]. rewrite app_nil_r, rev_involutive.
  cbn [List.map]. rewrite renderPart_plain by exact Hin. reflexivity.
Qed.

(** X17 at work. *)
Lemma text_without_asterisk_is_plain_witness :
  Markdown.parseLineWithBold (u "No markup here.")
  = Some [Markdown.Plain (u "No markup here.")].
Proof.
  apply text_without_asterisk_is_plain.
  - discriminate.
  - vm_compute. intuition discriminate.
Defined.

(** X18: in [a**b**c], where [a] and [b] hold no asterisk and [b] no line
    break, the text [b] is rendered in [<strong>], without its markers,
    between the plain text [a] and the parts of [c]. *)
Theorem bold_span_is_strong (a b c : jsstring) :
  ~ In 42%N a -> ~ In 42%N b ->
  Forall (fun x => Markdown.isLineTerminator x = false) b ->
  Markdown.parseLineWithBold (a ++ u "**" ++ b ++ u "**" ++ c)
  = Some (Markdown.Plain a :: Markdown.Strong b
          :: List.map Markdown.renderPart (Markdown.splitBold c)).
Proof.
  intros Ha Hb Hlt. rewrite parseLineWithBold_some.
  - rewrite splitBold_span by assumption. cbn [List.map].
    rewrite renderPart_plain by exact Ha. rewrite renderPart_strong.
    reflexivity.
  - change (u "**") with [42%N; 42%N]. destruct a; discriminate.
Qed.

(** X18 at work. *)
Lemma bold_span_is_strong_witness :
  Markdown.parseLineWithBold (u "The **main** claim")
  = Some [Markdown.Plain (u "The "); Markdown.Strong (u "main");
          Markdown.Plain (u " claim")].
Proof.
  apply (@bold_span_is_strong (u "The ") (u "main") (u " claim")).
  - vm_compute. intuition discriminate.
  - vm_compute. intuition discriminate.
  - repeat constructor.
Defined.

(* ================================================================== *)
(** * MarkdownView: lines *)
(* ================================================================== *)

Section LineFacts.

Lemma forallb_rev (f : jschar -> bool) (s : jsstring) :
  forallb f (rev s) = forallb f s.
Proof.
  induction s as [|x s IH]; [reflexivity|].
  cbn [rev forallb]. rewrite forallb_app, IH. cbn [forallb].
  rewrite andb_true_r. apply andb_comm.
Qed.

Lemma dropSpaces_all_app (a b : jsstring) :
  forallb is_space a = true -> dropSpaces (a ++ b) = dropSpaces b.
Proof.
  induction a as [|x a IH]; intros H; [reflexivity|].
  cbn [forallb] in H. apply andb_true_iff in H. destruct H as [Hx Ha].
  cbn [app dropSpaces]. rewrite Hx. apply IH, Ha.
Qed.

Lemma dropSpaces_some_app (a b : jsstring) :
  forallb is_space a = false -> dropSpaces (a ++ b) = dropSpaces a ++ b.
Proof.
  induction a as [|x a IH]; intros H; [discriminate|].
  cbn [forallb] in H. cbn [app dropSpaces].
  destruct (is_space x); [apply IH, H | reflexivity].
Qed.

(** The trimmed form of a marker, a space and the rest of the line. *)
Lemma trim_marked_blank (m : jschar) (item : jsstring) :
  is_space m = false -> forallb is_space item = true ->
  trim (m :: 32%N :: item) = [m].
Proof.
  intros Hm Hi. unfold trim. cbn [dropSpaces]. rewrite Hm.
  cbn [rev]. rewrite <- !app_assoc.
  rewrite dropSpaces_all_app by (rewrite forallb_rev; exact Hi).
  cbn [app dropSpaces]. change (is_space 32%N) with true. cbn iota.
  rewrite Hm. reflexivity.
Qed.

Lemma trim_marked (m : jschar) (item : jsstring) :
  is_space m = false -> forallb is_space item = false ->
  exists r, trim (m :: 32%N :: item) = m :: 32%N :: r.
Proof.
  intros Hm Hi. unfold trim. cbn [dropSpaces]. rewrite Hm.
  cbn [rev]. rewrite <- !app_assoc.
  rewrite dropSpaces_some_app by (rewrite forallb_rev; exact Hi).
  rewrite rev_app_distr. cbn [app rev]. eauto.
Qed.

Lemma not_space_eqb (sp c : jschar) :
  is_space sp = true -> is_space c = false -> (sp =? c)%N = false.
Proof.
  intros Hs Hc. apply N.eqb_neq. intros ->. congruence.
Qed.

End LineFacts.

(** X19: [formatText] returns one element per line of the text: as many as
    the text has line feeds, and one more. *)
Theorem formatText_one_block_per_line (text : jsstring) :
  text <> [] ->
  exists blocks,
    Markdown.formatText text = Some blocks
    /\ List.length blocks = S (count_occ N.eq_dec text 10%N).
Proof.
  intros Hne. destruct text as [|c t]; [congruence|].
  eexists. split; [reflexivity|].
  rewrite length_map. unfold split, LF. apply splitAux_length.
Qed.

(** X19 at work: three lines. *)
Lemma formatText_one_block_per_line_witness :
  exists blocks,
    Markdown.formatText (u "## Title" ++ LF ++ LF ++ u "Body") = Some blocks
    /\ List.length blocks = 3%nat.
Proof.
  destruct (@formatText_one_block_per_line (u "## Title" ++ LF ++ LF ++ u "Body"))
    as (blocks & E & L).
  - discriminate.
  - exists blocks. split; [exact E | exact L].
Defined.

(** X20: a line that starts with a dash or an asterisk and a space is a list
    item showing the rest of the line, unless the rest is blank: then the
    line is a paragraph that shows the marker. *)
Theorem bullet_marker_removed (m : jschar) (item : jsstring) :
  m = 45%N \/ m = 42%N ->
  Markdown.formatLine (m :: 32%N :: item)
  = if forallb is_space item
    then Markdown.Paragraph (Markdown.parseLineWithBold (m :: 32%N :: item))
    else Markdown.Bullet (Markdown.parseLineWithBold item).
Proof.
  intros Hm.
  assert (Hs : is_space m = false) by (destruct Hm as [-> | ->]; reflexivity).
  assert (H2 : startsWith (m :: 32%N :: item) (u "## ") = false)
    by (destruct Hm as [-> | ->]; reflexivity).
  assert (H3 : startsWith (m :: 32%N :: item) (u "### ") = false)
    by (destruct Hm as [-> | ->]; reflexivity).
  unfold Markdown.formatLine. rewrite H2, H3.
  destruct (forallb is_space item) eqn:Hi.
  - rewrite (@trim_marked_blank m item Hs Hi).
    destruct Hm as [-> | ->]; reflexivity.
  - destruct (@trim_marked m item Hs Hi) as [r ->].
    destruct Hm as [-> | ->]; reflexivity.
Qed.

(** X20 at work: an item, and a dash alone. *)
Lemma bullet_marker_removed_witness :
  Markdown.formatLine (u "- first")
  = Markdown.Bullet (Some [Markdown.Plain (u "first")])
  /\ Markdown.formatLine (u "- ")
     = Markdown.Paragraph (Some [Markdown.Plain (u "- ")]).
Proof.
  split.
  - exact (@bullet_marker_removed 45%N (u "first") (or_introl eq_refl)).
  - exact (@bullet_marker_removed 45%N [] (or_introl eq_refl)).
Defined.

(** X21: an indented list item is still rendered as a list item, but its
    marker is not removed: the item shows the whole line. *)
Theorem indented_bullet_keeps_marker (sp : jschar) (rest : jsstring) :
  is_space sp = true ->
  startsWith (trim (sp :: rest)) (u "- ")
  || startsWith (trim (sp :: rest)) (u "* ") = true ->
  Markdown.formatLine (sp :: rest)
  = Markdown.Bullet (Markdown.parseLineWithBold (sp :: rest)).
Proof.
  intros Hs Ht. unfold Markdown.formatLine.
  change (u "## ") with [35%N; 35%N; 32%N].
  change (u "### ") with [35%N; 35%N; 35%N; 32%N].
  cbn [startsWith]. unfold eqb_char at 1 4.
  rewrite (@not_space_eqb sp 35%N Hs eq_refl). cbn [andb].
  rewrite Ht. unfold Markdown.removeBulletMarker.
  destruct rest as [|d rest]; [reflexivity|].
  rewrite (@not_space_eqb sp 45%N Hs eq_refl),
          (@not_space_eqb sp 42%N Hs eq_refl).
  reflexivity.
Qed.

(** X21 at work. *)
Lemma indented_bullet_keeps_marker_witness :
  Markdown.formatLine (u "  - nested")
  = Markdown.Bullet (Some [Markdown.Plain (u "  - nested")]).
Proof.
  exact (@indented_bullet_keeps_marker 32%N (u " - nested") eq_refl eq_refl).
Defined.

(* ================================================================== *)
(** * SlideDeck: the position in the deck *)
(* ================================================================== *)

Section DeckFacts.

Lemma click_in_range (n : nat) (c : SlideDeck.Click) (i : Z) :
  (0 <= i < Z.of_nat n)%Z -> (0 <= SlideDeck.click n c i < Z.of_nat n)%Z.
Proof.
  intros H. destruct c; cbn [SlideDeck.click];
    unfold SlideDeck.nextSlide, SlideDeck.prevSlide; lia.
Qed.

Lemma fold_click_in_range (n : nat) (clicks : list SlideDeck.Click) : forall i,
  (0 <= i < Z.of_nat n)%Z ->
  (0 <= fold_left (fun i c => SlideDeck.click n c i) clicks i < Z.of_nat n)%Z.
Proof.
  induction clicks as [|c clicks IH]; intros i H; [exact H|].
  cbn [fold_left]. apply IH, click_in_range, H.
Qed.

End DeckFacts.

(** X22: for a deck that is not empty, whatever the clicks on the two
    buttons, the index stays within the deck, so the component always has a
    slide to show. *)
Theorem slide_index_stays_in_deck (slides : list SlideData)
    (clicks : list SlideDeck.Click) :
  slides <> [] ->
  let i := SlideDeck.indexAfter (List.length slides) clicks in
  (0 <= i < Z.of_nat (List.length slides))%Z
  /\ exists s,
       SlideDeck.view slides i
       = SlideDeck.Showing (Some s) (i + 1) (Z.of_nat (List.length slides))
           (i =? 0)%Z (i =? Z.of_nat (List.length slides) - 1)%Z.
Proof.
  intros Hne i.
  assert (Hi : (0 <= i < Z.of_nat (List.length slides))%Z).
  { apply fold_click_in_range. destruct slides; [congruence | cbn; lia]. }
  split; [exact Hi|].
  destruct (nth_error slides (Z.to_nat i)) as [s|] eqn:E.
  - exists s. unfold SlideDeck.view. destruct slides; [congruence|].
    replace (i <? 0)%Z with false by (symmetry; apply Z.ltb_ge; lia).
    rewrite E. reflexivity.
  - apply nth_error_None in E. lia.
Qed.

(** X23: at an index within the deck, each button is disabled exactly when
    its click would leave the index where it is. *)
Theorem disabled_buttons_are_noops (slides : list SlideData) (i : Z) :
  (0 <= i < Z.of_nat (List.length slides))%Z ->
  exists s,
    SlideDeck.view slides i
    = SlideDeck.Showing s (i + 1) (Z.of_nat (List.length slides))
        (Z.eqb (SlideDeck.click (List.length slides) SlideDeck.Prev i) i)
        (Z.eqb (SlideDeck.click (List.length slides) SlideDeck.Next i) i).
Proof.
  intros Hi. unfold SlideDeck.view. destruct slides as [|s0 slides].
  - cbn in Hi. lia.
  - eexists. f_equal.
    + cbn [SlideDeck.click]. unfold SlideDeck.prevSlide.
      destruct (Z.eqb_spec i 0), (Z.eqb_spec (Z.max (i - 1) 0) i);
        try reflexivity; lia.
    + cbn [SlideDeck.click]. unfold SlideDeck.nextSlide.
      destruct (Z.eqb_spec i (Z.of_nat (List.length (s0 :: slides)) - 1)),
               (Z.eqb_spec (Z.min (i + 1)
                              (Z.of_nat (List.length (s0 :: slides)) - 1)) i);
        try reflexivity; lia.
Qed.

(** X22 at work: three clicks on "next" in a deck of two slides. *)
Lemma slide_index_stays_in_deck_witness :
  (0 <= SlideDeck.indexAfter 2
          [SlideDeck.Next; SlideDeck.Next; SlideDeck.Next] < 2)%Z.
Proof.
  apply (@slide_index_stays_in_deck twoSlides
           [SlideDeck.Next; SlideDeck.Next; SlideDeck.Next]).
  discriminate.
Defined.

(** X23 at work: on the last of two slides "next" is disabled, "previous"
    is not. *)
Lemma disabled_buttons_are_noops_witness :
  exists s,
    SlideDeck.view twoSlides 1 = SlideDeck.Showing s 2 2 false true.
Proof.
  destruct (@disabled_buttons_are_noops twoSlides 1%Z) as [s E].
  - cbn. lia.
  - exists s. exact E.
Defined.

(* ================================================================== *)
(** * App: uploading, analysing, navigating *)
(* ================================================================== *)

Section AppFacts.

Lemma eqb_eq (a b : jsstring) : JsString.eqb a b = true -> a = b.
Proof.
  revert b; induction a as [|x a IH]; intros [|y b]; cbn [JsString.eqb];
    try discriminate; [reflexivity|].
  intros H. apply andb_true_iff in H. destruct H as [H1 H2].
  apply eqb_char_eq in H1. rewrite H1, (IH _ H2). reflexivity.
Qed.

(** Storing progress notices touches the notice only. *)
Lemma fold_setProgressMsg (l : list jsstring) : forall st,
  let st' := fold_left (fun s msg => App.setProgressMsg msg s) l st in
  App.status st' = App.status st
  /\ App.currentStep st' = App.currentStep st
  /\ App.file st' = App.file st
  /\ App.result st' = App.result st
  /\ App.error st' = App.error st
  /\ App.pyodide st' = App.pyodide st
  /\ App.runStatus st' = App.runStatus st
  /\ App.output st' = App.output st
  /\ App.runError st' = App.runError st
  /\ App.progressMsg st' = fold_left (fun _ msg => msg) l (App.progressMsg st).
Proof.
  induction l as [|x l IH]; intros st; cbn [fold_left].
  - cbv zeta. repeat split.
  - apply (IH (App.setProgressMsg x st)).
Qed.

(** [runExperiment] touches the state of the run only. *)
Lemma runFailed_keeps (logs : list jsstring) (err : App.PyError) (st : App.State) :
  let st' := App.runFailed logs err st in
  App.status st' = App.status st
  /\ App.currentStep st' = App.currentStep st
  /\ App.progressMsg st' = App.progressMsg st
  /\ App.file st' = App.file st
  /\ App.result st' = App.result st
  /\ App.error st' = App.error st.
Proof. destruct logs; repeat split. Qed.

Ltac keeps H :=
  cbv zeta in H; destruct H as (-> & -> & -> & -> & -> & ->); repeat split.

Lemma runLoaded_keeps (env : App.PyEnv) (st : App.State) :
  let st' := App.runLoaded env st in
  App.status st' = App.status st
  /\ App.currentStep st' = App.currentStep st
  /\ App.progressMsg st' = App.progressMsg st
  /\ App.file st' = App.file st
  /\ App.result st' = App.result st
  /\ App.error st' = App.error st.
Proof.
  unfold App.runLoaded. cbv zeta.
  destruct (App.loadPackage env) as [e|].
  { pose proof (runFailed_keeps [] e (App.setRunStatus App.RunRUNNING st)) as H.
    keeps H. }
  destruct (App.runPythonAsync env) as [e|].
  { pose proof (runFailed_keeps (List.map App.logLine (App.printed env)) e
                  (App.setRunStatus App.RunRUNNING st)) as H.
    keeps H. }
  repeat split.
Qed.

Lemma runExperiment_keeps (env : App.PyEnv) (st : App.State) :
  let st' := App.runExperiment env st in
  App.status st' = App.status st
  /\ App.currentStep st' = App.currentStep st
  /\ App.progressMsg st' = App.progressMsg st
  /\ App.file st' = App.file st
  /\ App.result st' = App.result st
  /\ App.error st' = App.error st.
Proof.
  unfold App.runExperiment. cbv zeta.
  destruct (App.result st) as [r|] eqn:Er; [|rewrite Er; repeat split].
  destruct (pythonCode r); [rewrite Er; repeat split|].
  rewrite <- Er.
  set (st0 := App.setOutput []
                (App.setRunError None (App.setRunStatus App.RunLOADING st))).
  destruct (App.pyodide st).
  { pose proof (runLoaded_keeps env st0) as H. keeps H. }
  destruct (negb (App.loaderDefined env)).
  { pose proof (runFailed_keeps []
      (App.newError (u "Pyodide script not loaded. Please check internet connection."))
      st0) as H.
    keeps H. }
  destruct (App.loadPyodide env) as [e|].
  { pose proof (runFailed_keeps [] e st0) as H. keeps H. }
  pose proof (runLoaded_keeps env (App.setPyodide true st0)) as H. keeps H.
Qed.

(** What [startAnalysis] leaves, by the way the pipeline ends. *)
Lemma startAnalysis_ends (sc : nat -> Outcome) (st : App.State) (f : App.FileData) :
  App.file st = Some f ->
  let r := fst (run (generateAnalysis (App.base64 f) (App.mimeType f)) sc) in
  let st' := App.startAnalysis sc st in
  App.currentStep st' = App.StepSummary
  /\ App.file st' = App.file st
  /\ App.progressMsg st'
     = fold_left (fun _ msg => msg)
         (progressOf (trace (snd (run (generateAnalysis (App.base64 f)
                                         (App.mimeType f)) sc))))
         (App.progressMsg st)
  /\ match r with
     | Ok analysis =>
         App.status st' = App.COMPLETE
         /\ App.result st' = Some analysis
         /\ App.error st' = App.error st
     | Throw _ =>
         App.status st' = App.ERROR
         /\ App.result st' = App.result st
         /\ App.error st'
            = Some (u "Analysis failed. Please try again or check your API key.")
     end.
Proof.
  intros Hf. cbv zeta. unfold App.startAnalysis. rewrite Hf.
  destruct (run (generateAnalysis (App.base64 f) (App.mimeType f)) sc)
    as [r w].
  cbn [fst snd].
  destruct (fold_setProgressMsg (progressOf (trace w))
              (App.setCurrentStep App.StepSummary
                 (App.setStatus App.PROCESSING st)))
    as (_ & Hstep & Hfile & Hres & Herr & _ & _ & _ & _ & Hmsg).
  cbn [App.setCurrentStep App.setStatus App.status App.currentStep
       App.progressMsg App.file App.result App.error] in *.
  destruct r as [analysis | e]; cbn [App.setStatus App.setResult App.setError
       App.status App.currentStep App.progressMsg App.file App.result
       App.error]; rewrite ?Hstep, ?Hfile, ?Hres, ?Herr, ?Hmsg, ?Hf;
    repeat split.
Qed.


(** What the invariants below are about. *)
Lemma act_keeps (st : App.State) (a : App.Action) :
  ((forall f, App.file st = Some f -> App.mimeType f = u "application/pdf")
   -> forall f, App.file (App.act st a) = Some f
                -> App.mimeType f = u "application/pdf")
  /\ ((App.status st <> App.PROCESSING
       /\ (App.status st = App.IDLE ->
           App.currentStep st = App.StepUpload /\ App.result st = None)
       /\ (App.status st = App.COMPLETE -> App.result st <> None))
      -> (App.status (App.act st a) <> App.PROCESSING
          /\ (App.status (App.act st a) = App.IDLE ->
              App.currentStep (App.act st a) = App.StepUpload
              /\ App.result (App.act st a) = None)
          /\ (App.status (App.act st a) = App.COMPLETE ->
              App.result (App.act st a) <> None))).
Proof.
  destruct a as [[sf|] | sc | id | env]; cbn [App.act].
  - (* a file is picked *)
    unfold App.handleFileUpload.
    destruct (JsString.eqb (App.fileType sf) (u "application/pdf")) eqn:E;
      cbn [negb].
    + split; [|intros H; exact H].
      intros _ f [= <-]. cbn [App.mimeType]. apply eqb_eq, E.
    + split; intros H; exact H.
  - (* nothing is picked *)
    split; intros H; exact H.
  - (* an analysis *)
    assert (Hcase : (exists f, App.file st = Some f)
                    \/ App.startAnalysis sc st = st).
    { unfold App.startAnalysis.
      destruct (App.file st) as [f|]; [left; eauto | right; reflexivity]. }
    destruct Hcase as [[f Hf] | E].
    + destruct (startAnalysis_ends sc st Hf) as (Hstep & Hfile & _ & Hr).
      split.
      * intros H g Hg. rewrite Hfile in Hg. apply (H g Hg).
      * intros _.
        destruct (fst (run (generateAnalysis (App.base64 f) (App.mimeType f)) sc));
          destruct Hr as (Hs & Hres & _); rewrite Hs.
        -- rewrite Hres. repeat split; try discriminate.
        -- repeat split; discriminate.
    + rewrite E. split; intros H; exact H.
  - (* a click in the side bar *)
    unfold App.navigate, App.isDisabled.
    destruct (App.status st) eqn:Hs; destruct id; cbn [App.setCurrentStep
      App.status App.currentStep App.file App.result];
      (split; [intros H; exact H|]); rewrite ?Hs;
      intros (H1 & H2 & H3); repeat split; try discriminate; try congruence;
      try (intros _; apply H2; reflexivity); try exact H3;
      try (apply H2; reflexivity).
  - (* a run of the code *)
    destruct (runExperiment_keeps env st) as (Hs & Hstep & _ & Hfile & Hres & _).
    rewrite Hs, Hstep, Hfile, Hres. split; intros H; exact H.
Qed.

Lemma after_snoc (actions : list App.Action) (a : App.Action) :
  App.after (actions ++ [a]) = App.act (App.after actions) a.
Proof. unfold App.after. rewrite fold_left_app. reflexivity. Qed.

Lemma after_invariants (actions : list App.Action) :
  (forall f, App.file (App.after actions) = Some f ->
             App.mimeType f = u "application/pdf")
  /\ App.status (App.after actions) <> App.PROCESSING
  /\ (App.status (App.after actions) = App.IDLE ->
      App.currentStep (App.after actions) = App.StepUpload
      /\ App.result (App.after actions) = None)
  /\ (App.status (App.after actions) = App.COMPLETE ->
      App.result (App.after actions) <> None).
Proof.
  induction actions as [|a actions IH] using rev_ind.
  - cbn. repeat split; try discriminate.
  - rewrite after_snoc. destruct IH as (H1 & H2).
    destruct (act_keeps (App.after actions) a) as (K1 & K2).
    split; [apply K1, H1 | apply K2, H2].
Qed.

End AppFacts.

(** X24: an accepted upload stores the file's name, its type and exactly its
    base64 content, the part of the data URL after the comma (the base64
    alphabet has no comma), and clears the error message. *)
Theorem upload_stores_payload (f : App.SelectedFile) (st : App.State) :
  App.fileType f = u "application/pdf" ->
  ~ In 44%N (App.contents64 f) ->
  App.handleFileUpload (Some f) st
  = App.setFile (Some {| App.name := App.fileName f;
                         App.base64 := App.contents64 f;
                         App.mimeType := u "application/pdf" |})
      (App.setError None st).
Proof.
  intros Ht Hc. unfold App.handleFileUpload. rewrite Ht.
  change (JsString.eqb (u "application/pdf") (u "application/pdf")) with true.
  cbn [negb].
  assert (E : App.readAsDataURL f
              = u "data:application/pdf;base64" ++ [44%N] ++ App.contents64 f).
  { unfold App.readAsDataURL. rewrite Ht. reflexivity. }
  rewrite E. change (u ",") with [44%N]. rewrite split_two.
  - reflexivity.
  - vm_compute. intuition discriminate.
  - exact Hc.
Qed.

(** X24 at work. *)
Lemma upload_stores_payload_witness :
  App.file (App.handleFileUpload (Some pickedPdf) App.initial)
  = Some {| App.name := u "paper.pdf"; App.base64 := paper;
            App.mimeType := u "application/pdf" |}.
Proof.
  rewrite (@upload_stores_payload pickedPdf App.initial).
  - reflexivity.
  - reflexivity.
  - vm_compute. intuition discriminate.
Defined.

(** X25: whatever the user does, the file the application holds is a PDF:
    a file of another type is never stored, so never sent for analysis. *)
Theorem stored_file_is_pdf (actions : list App.Action) (f : App.FileData) :
  App.file (App.after actions) = Some f ->
  App.mimeType f = u "application/pdf".
Proof. apply (after_invariants actions). Qed.

(** X25 at work: an image, then a PDF. *)
Lemma stored_file_is_pdf_witness :
  exists f,
    App.file (App.after [App.Upload (Some pickedImage);
                         App.Upload (Some pickedPdf)]) = Some f
    /\ App.mimeType f = u "application/pdf".
Proof.
  eexists. split; [reflexivity|].
  apply (@stored_file_is_pdf [App.Upload (Some pickedImage);
                              App.Upload (Some pickedPdf)]).
  reflexivity.
Defined.

(** X26: as long as no analysis has been started (the status is IDLE), the
    page shown is the upload page, whatever was clicked in the side bar, and
    there is no result. *)
Theorem upload_page_until_analysis (actions : list App.Action) :
  App.status (App.after actions) = App.IDLE ->
  App.result (App.after actions) = None
  /\ App.renderContent (App.after actions)
     = App.UploadPage (option_map App.name (App.file (App.after actions)))
         (App.truthy (App.error (App.after actions)))
         (match App.file (App.after actions) with
          | None => true
          | Some _ => false
          end).
Proof.
  intros Hs. destruct (after_invariants actions) as (_ & _ & H & _).
  destruct (H Hs) as [Hstep Hres]. split; [exact Hres|].
  unfold App.renderContent. rewrite Hs, Hstep. reflexivity.
Qed.

(** X26 at work: clicks in the side bar and a rejected upload. *)
Lemma upload_page_until_analysis_witness :
  App.renderContent
    (App.after [App.Navigate App.StepSlides; App.Upload (Some pickedImage);
                App.Navigate App.StepCode])
  = App.UploadPage None (Some (u "Please upload a valid PDF file.")) true.
Proof.
  destruct (@upload_page_until_analysis
              [App.Navigate App.StepSlides; App.Upload (Some pickedImage);
               App.Navigate App.StepCode]) as [_ E].
  - reflexivity.
  - rewrite E. reflexivity.
Defined.





(* ================================================================== *)
(** * App: running the code *)
(* ================================================================== *)

Section RunFacts.





End RunFacts.


(** X30: a run of the code leaves nothing of an earlier run: the output is
    the lines this run captured, joined by line feeds (none if the runtime
    or the packages failed to load); the status is SUCCESS or ERROR, with no
    error message on success; and a runtime once loaded is kept. *)
Theorem run_replaces_earlier_output (env : App.PyEnv) (st : App.State)
    (r : AnalysisResult) :
  App.result st = Some r ->
  pythonCode r <> [] ->
  App.output (App.runExperiment env st) = join LF (App.captured env st)
  /\ App.runStatus (App.runExperiment env st)
     = (if App.runSucceeds env st then App.RunSUCCESS else App.RunERROR)
  /\ (if App.runSucceeds env st
      then App.runError (App.runExperiment env st) = None
      else exists msg, App.runError (App.runExperiment env st) = Some msg)
  /\ App.pyodide (App.runExperiment env st) = App.runtimeReady env st.
Proof.
  intros Hr Hcode.
  unfold App.runExperiment, App.captured, App.runSucceeds, App.runtimeReady.
  rewrite Hr. destruct (pythonCode r) as [|c code]; [congruence|].
  unfold App.runLoaded, App.runFailed.
  destruct (App.pyodide st) eqn:Hp;
    destruct (App.loaderDefined env);
    destruct (App.loadPyodide env);
    destruct (App.loadPackage env);
    destruct (App.runPythonAsync env);
    destruct (List.map App.logLine (App.printed env)) eqn:Hl;
    cbn [negb orb andb App.settled App.setOutput App.setRunError
         App.setRunStatus App.setPyodide App.output App.runStatus
         App.runError App.pyodide];
    rewrite ?Hp; repeat split; eauto.
Qed.

(** X30 at work: lines of an earlier run are replaced by the two lines
    printed before the program raised. *)
Lemma run_replaces_earlier_output_witness :
  App.output
    (App.runExperiment raising
       (App.setOutput (u "old")
          (App.startAnalysis answering (App.after [App.Upload (Some pickedPdf)]))))
  = u "epoch 1" ++ LF ++ u "[stderr] warning".
Proof.
  destruct (@run_replaces_earlier_output raising
              (App.setOutput (u "old")
                 (App.startAnalysis answering
                    (App.after [App.Upload (Some pickedPdf)])))
              (match fst (run (generateAnalysis paper pdf) answering) with
               | Ok a => a
               | Throw _ => noOutputs
               end))
    as (E & _).
  - vm_compute. reflexivity.
  - vm_compute. discriminate.
  - rewrite E. reflexivity.
Defined.
